(** * EV charging points in Central London: extraction, classification, sync

    A shallow embedding of the pipeline found in
    - [Cloud_Functions_Option_01/main.py]  (Google Places + Open Charge Map),
    - [Cloud_Functions_Option_02/main.py]  (Open Charge Map only),
    - [data_extracting_OCM_GPA.py], [data_cleaning_OCM_GPA.py],
    - [data_extracting_cleaning_OCM.py],
    together with the properties the specification states about it.

    Conventions.
    - A power reading (kW) is a finite Python number decoded from JSON.
      It is modelled by its exact value in [Q]; comparing it with the
      integer literals 7 and 22 is exact in Python, so the order of [Q]
      is the order the code sees.
    - Python's [None] and pandas' [NaN] are [None] of an [option].
    - Tier names and the Yes/No flags are the strings the code writes. *)

From Stdlib Require Import QArith ZArith List Ascii String DecimalString DecimalN DecimalNat Lqa.
From stdpp Require Import base decidable option list strings gmap.

Local Open Scope string_scope.
Local Open Scope list_scope.

(** ** Python comparison of numbers *)

Definition Qle_b (x y : Q) : bool := Qle_bool x y.
Definition Qlt_b (x y : Q) : bool := negb (Qle_bool y x).

(** The outcome of a Python call: a value, or a raised exception
    (named by its class). *)
Inductive PyResult (A : Type) : Type :=
  | Return (a : A)
  | Raise (exn : string).
Arguments Return {A} a.
Arguments Raise {A} exn.

(** ** Connector classifier (identical in all four scripts) *)

Module Classifier.

(** The body of the loop of [assign_charging_type]: the tier of one
    reading.  [7 <= p <= 22] is Python's chained comparison. *)
Definition tier (p : Q) : string :=
  if Qlt_b p 7 then "Slow"
  else if Qle_b 7 p && Qle_b p 22 then "Fast"
  else "Rapid".

(** The order of the tiers: Rapid above Fast above Slow. *)
Definition tier_rank (t : string) : nat :=
  if String.eqb t "Slow" then 0 else if String.eqb t "Fast" then 1 else 2.

(** [types = []; for p in power_list: types.append(...)]. *)
Fixpoint assign_loop (types : list string) (power_list : list Q) : list string :=
  match power_list with
  | [] => types
  | p :: rest => assign_loop (types ++ [tier p]) rest
  end.

Definition assign_charging_type (power_list : list Q) : list string :=
  assign_loop [] power_list.

(** [x in types] on a list of strings. *)
Definition py_in (x : string) (types : list string) : bool :=
  bool_decide (x ∈ types).

(** [max_charging_type]; [None] is the [np.nan] of the source. *)
Definition max_charging_type (types : list string) : option string :=
  if py_in "Rapid" types then Some "Rapid"
  else if py_in "Fast" types then Some "Fast"
  else if py_in "Slow" types then Some "Slow"
  else None.

Definition yes_no (b : bool) : string := if b then "Yes" else "No".

(** Python's [min] and [max] on a list that is known to be non-empty:
    the running value is replaced when the next item is strictly
    smaller (resp. larger). *)
Definition py_min (first : Q) (rest : list Q) : Q :=
  fold_left (fun m e => if Qlt_b e m then e else m) rest first.

Definition py_max (first : Q) (rest : list Q) : Q :=
  fold_left (fun m e => if Qlt_b m e then e else m) rest first.

(** [min(x) if x else None] and [max(x) if x else None]; the cleaning
    script writes the guard as [len(x) > 0] and the default as [np.nan]. *)
Definition min_power (powers : list Q) : option Q :=
  match powers with
  | [] => None
  | p :: rest => Some (py_min p rest)
  end.

Definition max_power (powers : list Q) : option Q :=
  match powers with
  | [] => None
  | p :: rest => Some (py_max p rest)
  end.

Definition min_power_clean (x : list Q) : option Q :=
  if (0 <? length x)%nat then min_power x else None.

Definition max_power_clean (x : list Q) : option Q :=
  if (0 <? length x)%nat then max_power x else None.

(** One entry of the [Connections] array of an Open Charge Map POI. *)
Record Connection := {
  PowerKW : option Q;
  ConnectionTypeID : option Z;
  CurrentTypeID : option Z
}.

(** The dictionary returned by [extract_connections]. *)
Record ConnectionInfo := {
  Number_of_Connectors : nat;
  Power_List : list Q;
  Min_Power_kW : option Q;
  Max_Power_kW : option Q;
  Charging_Type_List : list string;
  Max_Charging_Type : option string;
  Rapid_Charge_Available : string;
  Fast_Charge_Available : string;
  Slow_Charge_Available : string;
  Connection_Types : list Z;
  Connection_CurrentTypes : list Z
}.

(** [[c.get(k) for c in conn_list if c.get(k) is not None]]. *)
Definition known {A} (get : Connection -> option A) (conn_list : list Connection) : list A :=
  omap get conn_list.

(** [extract_connections] of Cloud Function Option 02.  The argument is
    [None] when the JSON value is not a list; the result is then the
    empty dictionary, here [None]. *)
Definition extract_connections (conn_list : option (list Connection)) : option ConnectionInfo :=
  match conn_list with
  | None => None
  | Some conn_list =>
      let powers := known PowerKW conn_list in
      let conn_types := known ConnectionTypeID conn_list in
      let current_types := known CurrentTypeID conn_list in
      let charging_type_list :=
        match powers with [] => [] | _ => assign_charging_type powers end in
      Some {|
        Number_of_Connectors := length conn_list;
        Power_List := powers;
        Min_Power_kW := min_power powers;
        Max_Power_kW := max_power powers;
        Charging_Type_List := charging_type_list;
        Max_Charging_Type := max_charging_type charging_type_list;
        Rapid_Charge_Available := yes_no (py_in "Rapid" charging_type_list);
        Fast_Charge_Available := yes_no (py_in "Fast" charging_type_list);
        Slow_Charge_Available := yes_no (py_in "Slow" charging_type_list);
        Connection_Types := conn_types;
        Connection_CurrentTypes := current_types
      |}
  end.

End Classifier.

(** ** pandas [drop_duplicates] *)

Module Pandas.

Inductive Keep := keep_first | keep_last.

Section DropDuplicates.
Context {R : Type}.
(** [same r1 r2]: the two rows agree on the columns of [subset]
    (on every column when no subset is given). *)
Variable same : R -> R -> bool.

(** [keep='first']: a row is dropped when an earlier row is the same. *)
Fixpoint drop_after (earlier : list R) (df : list R) : list R :=
  match df with
  | [] => []
  | r :: rest =>
      if existsb (same r) earlier then drop_after earlier rest
      else r :: drop_after (earlier ++ [r]) rest
  end.

(** [keep='last']: a row is dropped when a later row is the same. *)
Fixpoint drop_before (df : list R) : list R :=
  match df with
  | [] => []
  | r :: rest =>
      if existsb (same r) rest then drop_before rest
      else r :: drop_before rest
  end.

Definition drop_duplicates (keep : Keep) (df : list R) : list R :=
  match keep with
  | keep_first => drop_after [] df
  | keep_last => drop_before df
  end.
End DropDuplicates.

(** Rows compared on the columns [key] only. *)
Definition same_on {R K : Type} `{EqDecision K} (key : R -> K) (a b : R) : bool :=
  bool_decide (key a = key b).

(** [df[~df[col].isin(values)]] *)
Definition not_isin {R K : Type} `{EqDecision K}
    (col : R -> K) (values : list K) (df : list R) : list R :=
  filter (fun r => col r ∉ values) df.

End Pandas.

(** ** The BigQuery table the sync appends to (external collaborator)

    A table that may not exist yet, the load jobs run against it, and
    the lines printed. *)

Module BigQuery.

Inductive WriteDisposition := WRITE_APPEND | WRITE_EMPTY.

Inductive Message :=
  | Table_not_found
  | No_new_records_to_append
  | Records_loaded (n : nat).

Record Client (Row : Type) := {
  table : option (list Row);
  jobs : list (WriteDisposition * list Row);
  printed : list Message
}.
Arguments table {Row} _.
Arguments jobs {Row} _.
Arguments printed {Row} _.

Section Client.
Context {Row : Type}.

Definition print (m : Message) (c : Client Row) : Client Row :=
  {| table := table c; jobs := jobs c; printed := printed c ++ [m] |}.

(** [client.get_table(table_id)]: raises [NotFound] when absent. *)
Definition get_table (c : Client Row) : bool :=
  match table c with Some _ => true | None => false end.

(** [client.load_table_from_dataframe(df, table_id, job_config)] followed
    by [job.result()].  WRITE_APPEND appends (creating the table when
    needed); WRITE_EMPTY writes only to a table without rows and fails
    otherwise. *)
Definition load_table_from_dataframe (df : list Row) (wd : WriteDisposition)
    (c : Client Row) : PyResult (Client Row) :=
  let ran := jobs c ++ [(wd, df)] in
  match wd, table c with
  | WRITE_APPEND, Some rows =>
      Return {| table := Some (rows ++ df); jobs := ran; printed := printed c |}
  | WRITE_APPEND, None =>
      Return {| table := Some df; jobs := ran; printed := printed c |}
  | WRITE_EMPTY, None | WRITE_EMPTY, Some [] =>
      Return {| table := Some df; jobs := ran; printed := printed c |}
  | WRITE_EMPTY, Some (_ :: _) => Raise "Conflict"
  end.
End Client.

End BigQuery.

(** ** Incremental sync *)

Module Sync.
Import Pandas BigQuery.

Section Loader01.
Context {Row K : Type} `{Countable K}.
(** The key column [Place_Id]. *)
Variable Place_Id : Row -> K.

(** [load_to_bigquery_incremental] of Cloud Function Option 01.
    [existing_ids] is a Python set. *)
Definition load_to_bigquery_incremental_01 (df : list Row) (client : Client Row)
    : PyResult (string * Client Row) :=
  let table_exists := get_table client in
  let client := if table_exists then client else print Table_not_found client in
  let finish (df_new : list Row) (client : Client Row) :=
    match load_table_from_dataframe df_new
            (if table_exists then WRITE_APPEND else WRITE_EMPTY) client with
    | Raise e => Raise e
    | Return client => Return ("OK", print (Records_loaded (length df_new)) client)
    end in
  match table client with
  | Some rows =>
      let existing_ids : gset K := list_to_set (map Place_Id rows) in
      let df_new := filter (fun r => Place_Id r ∉ existing_ids) df in
      match df_new with
      | [] => Return ("No new data", print No_new_records_to_append client)
      | _ :: _ => finish df_new client
      end
  | None => finish df client
  end.

End Loader01.

Definition table_id_02 : string :=
  "fiery-atlas-472112-s9.ev_data_ocm_only.ev_chargers_ocm_only_cleaned".

Section Loader02.
Context {Row K : Type} `{EqDecision K}.
(** The key column [Place_ID]. *)
Variable Place_ID : Row -> K.

(** [load_to_bigquery_incremental] of Cloud Function Option 02.
    [existing_ids] is a Python list; the return value is the table id
    on every path. *)
Definition load_to_bigquery_incremental_02 (df : list Row) (client : Client Row)
    : PyResult (string * Client Row) :=
  let table_exists := get_table client in
  let client := if table_exists then client else print Table_not_found client in
  let finish (df_new : list Row) (client : Client Row) :=
    match load_table_from_dataframe df_new
            (if table_exists then WRITE_APPEND else WRITE_EMPTY) client with
    | Raise e => Raise e
    | Return client =>
        Return (table_id_02, print (Records_loaded (length df_new)) client)
    end in
  match table client with
  | Some rows =>
      let existing_ids : list K := map Place_ID rows in
      let df_new := not_isin Place_ID existing_ids df in
      match df_new with
      | [] => Return (table_id_02, print No_new_records_to_append client)
      | _ :: _ => finish df_new client
      end
  | None => finish df client
  end.
End Loader02.

End Sync.

(** ** Python strings (ASCII) *)

Module PyStr.

(** [sub in s] *)
Fixpoint contains (sub s : string) : bool :=
  match s with
  | EmptyString => String.prefix sub EmptyString
  | String _ s' => String.prefix sub s || contains sub s'
  end.

Definition lower_char (c : ascii) : ascii :=
  let n := nat_of_ascii c in
  if (65 <=? n)%nat && (n <=? 90)%nat then ascii_of_nat (n + 32) else c.

(** [s.lower()] *)
Fixpoint lower (s : string) : string :=
  match s with
  | EmptyString => EmptyString
  | String c s' => String (lower_char c) (lower s')
  end.

(** [sep.join(parts)] *)
Definition join (sep : string) (parts : list string) : string :=
  String.concat sep parts.

(** The scan shared by [split] and [replace]: [skip] counts the
    characters of a separator that has just been matched. *)
Fixpoint split_scan (sep : string) (skip : nat) (word s : string) : list string :=
  match s with
  | EmptyString => [word]
  | String c s' =>
      match skip with
      | S k => split_scan sep k word s'
      | O =>
          if String.prefix sep s
          then word :: split_scan sep (String.length sep - 1) EmptyString s'
          else split_scan sep 0 (word ++ String c EmptyString) s'
      end
  end.

(** [s.split(sep)] for a non-empty separator. *)
Definition split (sep s : string) : list string := split_scan sep 0 EmptyString s.

(** [s.replace(old, new)] for a non-empty [old]. *)
Definition replace (old new s : string) : string := join new (split old s).

(** Every character of [s] satisfies [p]. *)
Fixpoint all_chars (p : ascii -> bool) (s : string) : bool :=
  match s with
  | EmptyString => true
  | String c s' => p c && all_chars p s'
  end.

(** The characters other than [x]. *)
Definition not_char (x : ascii) (c : ascii) : bool := negb (Ascii.eqb c x).

Definition is_digit (c : ascii) : bool :=
  let n := nat_of_ascii c in (48 <=? n)%nat && (n <=? 57)%nat.

(** The characters of a formatted number. *)
Definition is_numeric (c : ascii) : bool :=
  is_digit c || Ascii.eqb c "-" || Ascii.eqb c ".".

Definition digit_value (c : ascii) : Z := Z.of_nat (nat_of_ascii c) - 48.

(** Whitespace removed by [int] and [float] around their argument:
    that of C's [isspace], and the next-line and no-break space
    characters, which they read as spaces. *)
Definition is_space (c : ascii) : bool :=
  let n := nat_of_ascii c in
  ((9 <=? n)%nat && (n <=? 13)%nat) || (n =? 32)%nat || (n =? 133)%nat || (n =? 160)%nat.

Fixpoint lstrip (s : string) : string :=
  match s with
  | String c s' => if is_space c then lstrip s' else s
  | EmptyString => EmptyString
  end.

Fixpoint rstrip (s : string) : string :=
  match s with
  | EmptyString => EmptyString
  | String c s' =>
      match rstrip s' with
      | EmptyString => if is_space c then EmptyString else String c EmptyString
      | t => String c t
      end
  end.

Definition strip (s : string) : string := rstrip (lstrip s).

(** Decimal digits, where single underscores may separate digits. *)
Fixpoint digits (acc : Z) (after_digit : bool) (s : string) : option Z :=
  match s with
  | EmptyString => if after_digit then Some acc else None
  | String c s' =>
      if is_digit c then digits (acc * 10 + digit_value c) true s'
      else if Ascii.eqb c "_" && after_digit then digits acc false s'
      else None
  end.

(** The decimal digits that [int] reads at most
    ([sys.int_info.default_max_str_digits]). *)
Definition max_str_digits : nat := 4300.

Fixpoint count_digits (s : string) : nat :=
  match s with
  | EmptyString => 0
  | String c s' => (if is_digit c then 1 else 0) + count_digits s'
  end.

(** [int(s)] in base ten; [None] stands for [ValueError]. *)
Definition py_int (s : string) : option Z :=
  let unsigned (s' : string) :=
    if (max_str_digits <? count_digits s')%nat then None else digits 0 false s' in
  match strip s with
  | String "-" s' => Z.opp <$> unsigned s'
  | String "+" s' => unsigned s'
  | s' => unsigned s'
  end.

End PyStr.

(** ** Rate-limited fetch ([safe_get], Cloud Function Option 02) *)

Module Fetch.
Import PyStr.

Section SafeGet.
(** The decoded body of a response. *)
Context {Body : Type}.

Record Response := {
  status_code : Z;
  Retry_After : option string;
  json : Body
}.

(** What [requests.get] does on one call. *)
Inductive Reply :=
  | Request_exception
  | Responds (response : Response).

(** [response.raise_for_status()] raises [HTTPError], a
    [RequestException], on a 4xx or 5xx status. *)
Definition raise_for_status (response : Response) : bool :=
  (400 <=? status_code response)%Z && (status_code response <? 600)%Z.

(** Requests issued and sleeps taken so far. *)
Record Effort := {
  requests : nat;
  slept : list Z
}.

Definition request_made (e : Effort) : Effort :=
  {| requests := S (requests e); slept := slept e |}.

(** The longest length that the n-th call of [time.sleep] accepts: the
    deadline, the reading of the monotonic clock plus the length, has
    to fit the clock. *)
Variable longest_sleep : nat -> Z.

(** The longest length that [time.sleep] can convert, in seconds: it
    counts in nanoseconds on 64 bits. *)
Definition sleep_limit : Z := 9223372036.

(** [time.sleep(secs)] raises [OverflowError] on a length it cannot
    convert, [ValueError] on a negative length, and [OSError] on a
    deadline that does not fit the clock. *)
Definition sleep (secs : Z) (e : Effort) : PyResult Effort :=
  if (sleep_limit <? Z.abs secs)%Z then Raise "OverflowError"
  else if (secs <? 0)%Z then Raise "ValueError"
  else if (longest_sleep (length (slept e)) <? secs)%Z then Raise "OSError"
  else Return {| requests := requests e; slept := slept e ++ [secs] |}.

(** [int(retry_after) if retry_after else 2 ** retry] *)
Definition wait_time_429 (response : Response) (retry : nat) : PyResult Z :=
  match Retry_After response with
  | None | Some EmptyString => Return (2 ^ Z.of_nat retry)%Z
  | Some retry_after =>
      match py_int retry_after with
      | Some n => Return n
      | None => Raise "ValueError"
      end
  end.

(** The network: the reply to the n-th request of this call. *)
Variable network : nat -> Reply.
Variable max_retries : nat.

(** [while retry < max_retries: ...]; [None] when [fuel] iterations
    did not finish the loop. *)
Fixpoint safe_get_loop (fuel retry : nat) (e : Effort)
    : option (PyResult (option Response) * Effort) :=
  match fuel with
  | O => None
  | S fuel =>
      if (retry <? max_retries)%nat then
        let handler (e : Effort) :=
          (* except requests.exceptions.RequestException *)
          match sleep (2 ^ Z.of_nat retry) e with
          | Raise x => Some (Raise x, e)
          | Return e => safe_get_loop fuel (retry + 1) e
          end in
        match network (requests e) with
        | Request_exception => handler (request_made e)
        | Responds response =>
            let e := request_made e in
            if (status_code response =? 429)%Z then
              match wait_time_429 response retry with
              | Raise x => Some (Raise x, e)
              | Return wait_time =>
                  match sleep wait_time e with
                  | Raise x => Some (Raise x, e)
                  | Return e => safe_get_loop fuel (retry + 1) e
                  end
              end
            else if raise_for_status response then handler e
            else Some (Return (Some response), e)
        end
      else Some (Return None, e)
  end.

Definition safe_get : option (PyResult (option Response) * Effort) :=
  safe_get_loop (S max_retries) 0 {| requests := 0; slept := [] |}.

(** An attempt fails when the request raises, is throttled (429) or
    comes back with an error status. *)
Definition failed (reply : Reply) : bool :=
  match reply with
  | Request_exception => true
  | Responds response =>
      (status_code response =? 429)%Z || raise_for_status response
  end.

(** The [Retry-After] header of a throttled reply, when present and
    not empty, reads as a non-negative integer. *)
Definition delay_readable (reply : Reply) : Prop :=
  match reply with
  | Request_exception => True
  | Responds response =>
      status_code response = 429%Z ->
      match Retry_After response with
      | None | Some EmptyString => True
      | Some retry_after => exists n : Z, py_int retry_after = Some n /\ (0 <= n)%Z
      end
  end.

(** The wait after the failed attempt number [retry] (from 0): the
    delay the provider supplied on a 429, else two to the power
    [retry]. *)
Definition backoff (retry : nat) : Z :=
  match network retry with
  | Request_exception => (2 ^ Z.of_nat retry)%Z
  | Responds response =>
      if (status_code response =? 429)%Z then
        match Retry_After response with
        | None | Some EmptyString => (2 ^ Z.of_nat retry)%Z
        | Some retry_after => default 0%Z (py_int retry_after)
        end
      else (2 ^ Z.of_nat retry)%Z
  end.

(** [time.sleep] accepts the wait after the attempt number [retry]. *)
Definition wait_accepted (retry : nat) : Prop :=
  (backoff retry <= sleep_limit)%Z /\ (backoff retry <= longest_sleep retry)%Z.
End SafeGet.

Arguments Response : clear implicits.
Arguments Reply : clear implicits.

End Fetch.

(** ** Number formatting and parsing used between the two stages of
    Option 01 *)

Module PyNum.
Import PyStr.

(** Nearest integer, ties to even: the rounding of [format]. *)
Definition round_half_even (q : Q) : Z :=
  let n := Qnum q in
  let d := Zpos (Qden q) in
  let f := (n / d)%Z in
  match (2 * (n mod d) ?= d)%Z with
  | Lt => f
  | Gt => (f + 1)%Z
  | Eq => if Z.even f then f else (f + 1)%Z
  end.

Definition decimal (n : Z) : string :=
  DecimalString.NilZero.string_of_uint (N.to_uint (Z.to_N n)).

(** [f"{x:.1f}"]: one digit after the point, correctly rounded; a
    negative [x] keeps its sign even when it rounds to zero. *)
Definition format_1f (x : Q) : string :=
  let t := Z.abs (round_half_even (x * 10)) in
  (if Qlt_b x 0 then "-" else "")
    ++ decimal (t / 10) ++ "." ++ decimal (t mod 10).

(** The text before the first point, and the text after it if any. *)
Fixpoint cut_at_point (s : string) : string * option string :=
  match s with
  | EmptyString => (EmptyString, None)
  | String c s' =>
      if Ascii.eqb c "." then (EmptyString, Some s')
      else let (a, b) := cut_at_point s' in (String c a, b)
  end.

Definition pow10 (n : nat) : positive := Nat.iter n (Pos.mul 10) 1%positive.

Definition digits_N (s : string) : option N :=
  N.of_uint <$> DecimalString.NilEmpty.uint_of_string s.

(** Unsigned decimal notation [digits], [digits.], [.digits] or
    [digits.digits]. *)
Definition unsigned_decimal (s : string) : option Q :=
  let (ip, fp) := cut_at_point s in
  let fp := default EmptyString fp in
  match ip, fp with
  | EmptyString, EmptyString => None
  | _, _ =>
      match digits_N ip, digits_N fp with
      | Some i, Some f =>
          Some (inject_Z (Z.of_N i) + (Z.of_N f # pow10 (String.length fp)))%Q
      | _, _ => None
      end
  end.

(** [float(s)] on plain decimal notation; [None] stands for
    [ValueError].  (Python also reads exponents, underscores, [inf] and
    [nan]; none of them is produced by [format_1f].) *)
Definition py_float (s : string) : option Q :=
  match strip s with
  | String "-" s' => Qopp <$> unsigned_decimal s'
  | String "+" s' => unsigned_decimal s'
  | s' => unsigned_decimal s'
  end.

End PyNum.

(** ** Cross-source reconciler ([fetch_ocm_details], Option 01) *)

Module Reconciler.
Import PyStr PyNum.

(** A member of a JSON object as [dict.get] sees it. *)
Inductive Member (A : Type) : Type :=
  | Absent
  | Null
  | Present (a : A).
Arguments Absent {A}.
Arguments Null {A}.
Arguments Present {A} a.

(** One connection: the [Title] of its [ConnectionType] object and its
    [PowerKW] (absent or null: [None]). *)
Record Connection := {
  ConnectionType : Member (Member string);
  PowerKW : option Q
}.

(** A POI: its [Connections] array ([None] when absent or null). *)
Record Poi := {
  Connections : option (list Connection)
}.

(** What the catalog answers: the request or the decoding fails, or a
    list of POIs arrives. *)
Inductive OcmReply :=
  | Ocm_exception
  | Ocm_data (data : list Poi).

(** [conn.get("ConnectionType", {}).get("Title", "Unknown")]; a null
    [ConnectionType] raises [AttributeError], a null title makes the
    later [join] raise [TypeError]. *)
Definition conn_type (conn : Connection) : PyResult string :=
  match ConnectionType conn with
  | Absent => Return "Unknown"
  | Null => Raise "AttributeError"
  | Present Absent => Return "Unknown"
  | Present Null => Raise "TypeError"
  | Present (Present title) => Return title
  end.

(** Truth value of [power_kw]. *)
Definition truthy (power_kw : option Q) : bool :=
  match power_kw with
  | None => false
  | Some q => negb (Qeq_bool q 0)
  end.

(** The entry appended to [power_values] for one connection. *)
Definition power_value (conn : Connection) : string :=
  if truthy (PowerKW conn)
  then format_1f (default 0%Q (PowerKW conn)) ++ " kW"
  else "Power Unknown".

Fixpoint conn_types (connections : list Connection) : PyResult (list string) :=
  match connections with
  | [] => Return []
  | conn :: rest =>
      match conn_type conn with
      | Raise x => Raise x
      | Return t =>
          match conn_types rest with
          | Raise x => Raise x
          | Return ts => Return (t :: ts)
          end
      end
  end.

Definition fetch_ocm_details (OCM_API_KEY : option string) (reply : OcmReply)
    : string * string :=
  match OCM_API_KEY with
  | None | Some EmptyString => ("Not Available", "Not Available")
  | Some _ =>
      match reply with
      | Ocm_exception => ("OCM API Error", "OCM API Error")
      | Ocm_data [] => ("No Match Found", "No Match Found")
      | Ocm_data (poi :: _) =>
          match Connections poi with
          | None | Some [] => ("No Connections Listed", "No Connections Listed")
          | Some connections =>
              match conn_types connections with
              | Raise _ => ("OCM API Error", "OCM API Error")
              | Return connector_types =>
                  (join "; " connector_types,
                   join "; " (map power_value connections))
              end
          end
      end
  end.

(** The same function in [data_extracting_OCM_GPA.py]: the default
    title is "Unknown Type" and the power test is [is not None]. *)
Definition conn_type_script (conn : Connection) : PyResult string :=
  match ConnectionType conn with
  | Absent => Return "Unknown Type"
  | Null => Raise "AttributeError"
  | Present Absent => Return "Unknown Type"
  | Present Null => Return "None"
  | Present (Present title) => Return title
  end.

Definition power_value_script (conn : Connection) : string :=
  match PowerKW conn with
  | Some power_kw => format_1f power_kw ++ " kW"
  | None => "Power Unknown"
  end.

Fixpoint conn_types_script (connections : list Connection) : PyResult (list string) :=
  match connections with
  | [] => Return []
  | conn :: rest =>
      match conn_type_script conn with
      | Raise x => Raise x
      | Return t =>
          match conn_types_script rest with
          | Raise x => Raise x
          | Return ts => Return (t :: ts)
          end
      end
  end.

Definition fetch_ocm_details_script (OCM_API_KEY : option string) (reply : OcmReply)
    : string * string :=
  match OCM_API_KEY with
  | None | Some EmptyString => ("Not Available", "Not Available")
  | Some _ =>
      match reply with
      | Ocm_exception => ("OCM API Error", "OCM API Error")
      | Ocm_data [] => ("No Match Found", "No Match Found")
      | Ocm_data (poi :: _) =>
          match Connections poi with
          | None | Some [] => ("No Connections Listed", "No Connections Listed")
          | Some connections =>
              match conn_types_script connections with
              | Raise _ => ("OCM API Error", "OCM API Error")
              | Return connector_types =>
                  (join "; " connector_types,
                   join "; " (map power_value_script connections))
              end
          end
      end
  end.

(** [convert_power] of [clean_ev_charger_data]: the entries that contain
    [kW], converted with [float]. *)
Fixpoint convert_power (x : list string) : PyResult (list Q) :=
  match x with
  | [] => Return []
  | p :: rest =>
      if contains "kW" p then
        match py_float (replace " kW" "" p) with
        | None => Raise "ValueError"
        | Some v =>
            match convert_power rest with
            | Raise e => Raise e
            | Return out => Return (v :: out)
            end
        end
      else convert_power rest
  end.

(** The readings that [fetch_ocm_details] renders as numbers: those
    that are neither absent nor zero. *)
Definition rendered_powers (connections : list Connection) : list Q :=
  omap (fun conn => if truthy (PowerKW conn) then PowerKW conn else None) connections.

(** A reading rounded to one decimal. *)
Definition one_decimal (q : Q) : Q := (inject_Z (round_half_even (q * 10)) / 10)%Q.

(** The [power_list] column computed from the [ocm_power_kW] column. *)
Definition power_list (ocm_power_kW : string) : PyResult (list Q) :=
  convert_power (split "; " ocm_power_kW).

End Reconciler.

(** ** Verified-place adapter (two-stage sweep) *)

Module Verified.
Import PyStr Reconciler.

(** One entry of a nearby-search result. *)
Record Candidate := {
  place_id : option string;
  candidate_lat : option Q;
  candidate_lng : option Q
}.

(** The [result] object of a place-details reply. *)
Record PlaceResult := {
  name : option string;
  formatted_address : option string;
  geometry_lat : option Q;
  geometry_lng : option Q;
  types : list string;
  business_status : option string;
  formatted_phone_number : option string
}.

(** [details.get("result", {})]: a reply without [result] reads as the
    empty object. *)
Definition result_of (details : option PlaceResult) : PlaceResult :=
  default {| name := None; formatted_address := None;
             geometry_lat := None; geometry_lng := None; types := [];
             business_status := None; formatted_phone_number := None |}
          details.

Definition CHARGER_KEYWORDS_01 : list string :=
  map lower
    ["charge"; "charging"; "ev"; "ev charger"; "ev-charger";
     "pod point"; "bp pulse"; "tesla"; "supercharger";
     "instavolt"; "chargepoint"; "rapid charger";
     "shell recharge"; "ionity"; "mer"; "octopus"].

Definition CHARGER_KEYWORDS_script : list string :=
  map lower
    ["charge"; "charging"; "ev"; "ev-charger"; "ev charger"; "pod point"; "pod-point";
     "bp pulse"; "bp-pulse"; "tesla"; "tesla supercharger"; "instavolt";
     "chargepoint"; "rapid charger"; "rapid charge"; "ac charger"; "dc charger";
     "shell recharge"; "shell-recharge"; "ionity"; "evgo"; "engie"; "mer";
     "octopus"; "octopus energy"; "podpoint"].

(** [is_charger_place] of Cloud Function Option 01. *)
Definition is_charger_place_01 (details_json : option PlaceResult) : bool :=
  let result := result_of details_json in
  if bool_decide ("electric_vehicle_charging_station" ∈ types result) then true
  else
    let name := lower (default "" (name result)) in
    if existsb (fun kw => contains kw name) CHARGER_KEYWORDS_01 then true
    else
      let addr := lower (default "" (formatted_address result)) in
      contains "charging" addr || contains "ev" addr.

(** [is_charger_place] of [data_extracting_OCM_GPA.py]. *)
Definition is_charger_place_script (details_json : option PlaceResult) : bool :=
  let types := map lower (types (result_of details_json)) in
  if bool_decide ("electric_vehicle_charging_station" ∈ types)
     || bool_decide ("charging_station" ∈ types) then true
  else
    let name_l := lower (default "" (name (result_of details_json))) in
    if existsb (fun kw => contains kw name_l) CHARGER_KEYWORDS_script then true
    else
      let addr := default "" (formatted_address (result_of details_json)) in
      contains "charging" (lower addr) || contains "ev" (lower addr).

(** The dictionary appended to [records]. *)
Record Record_ := {
  r_place_id : string;
  r_name : option string;
  r_address : option string;
  r_lat : option Q;
  r_lng : option Q;
  ocm_connector_types : string;
  ocm_power_kW : string;
  r_types : string;
  r_business_status : option string;
  r_phone_number : option string
}.

(** What the run does to the outside, in order. *)
Inductive Event :=
  | Nearby_search (lat lng : Q)
  | Details_fetch (pid : string)
  | Seen_add (pid : string)
  | Ocm_lookup (lat lng : option Q).

#[global] Instance Q_eq_dec : EqDecision Q.
Proof. solve_decision. Defined.

#[global] Instance Event_eq_dec : EqDecision Event.
Proof. solve_decision. Defined.

(** The state of one run: [records], [seen], and the events so far. *)
Record Run := {
  records : list Record_;
  seen : gset string;
  trace : list Event
}.

(** Computations of the run: state passing, with exceptions. *)
Definition M (A : Type) : Type := Run -> PyResult A * Run.

Definition ret {A} (a : A) : M A := fun st => (Return a, st).

Definition bind {A B} (m : M A) (k : A -> M B) : M B :=
  fun st =>
    match m st with
    | (Return a, st') => k a st'
    | (Raise x, st') => (Raise x, st')
    end.

Notation "'let*' x ':=' m 'in' k" := (bind m (fun x => k))
  (at level 10, x name, m at level 100, k at level 200, only parsing).

(** [try: m  except Exception: handler] *)
Definition try_except {A} (m : M A) (handler : M A) : M A :=
  fun st =>
    match m st with
    | (Return a, st') => (Return a, st')
    | (Raise _, st') => handler st'
    end.

Definition emit (ev : Event) : M unit :=
  fun st => (Return tt,
             {| records := records st; seen := seen st; trace := trace st ++ [ev] |}).

Definition lift {A} (r : PyResult A) : M A := fun st => (r, st).

Definition in_seen (pid : string) : M bool :=
  fun st => (Return (bool_decide (pid ∈ seen st)), st).

Definition seen_add (pid : string) : M unit :=
  fun st => (Return tt,
             {| records := records st; seen := {[pid]} ∪ seen st;
                trace := trace st ++ [Seen_add pid] |}).

Definition records_append (rec : Record_) : M unit :=
  fun st => (Return tt,
             {| records := records st ++ [rec]; seen := seen st; trace := trace st |}).

Definition now : M nat := fun st => (Return (length (trace st)), st).

(** [for x in xs: body] *)
Fixpoint for_each {X} (xs : list X) (body : X -> M unit) : M unit :=
  match xs with
  | [] => ret tt
  | x :: rest => let* _ := body x in for_each rest body
  end.

(** [a or b] on optional numbers. *)
Definition or_else (a b : option Q) : option Q :=
  match a with
  | Some q => if Qeq_bool q 0 then b else a
  | None => b
  end.

Section Sweep.
(** The outside world, as a function of the moment of the call (the
    number of events before it): the paginated nearby search with all
    its pages, the details lookup, the catalog lookup. *)
Variable nearby_api : nat -> Q -> Q -> PyResult (list Candidate).
Variable details_api : nat -> string -> PyResult (option PlaceResult).
Variable ocm_api : nat -> option Q -> option Q -> OcmReply.
Variable OCM_API_KEY : option string.
(** The grid: [np.arange(MIN, MAX + 1e-9, step)] on each axis. *)
Variables lat_points lng_points : list Q.

Definition fetch_nearby (lat lng : Q) : M (list Candidate) :=
  let* t := now in let* _ := emit (Nearby_search lat lng) in lift (nearby_api t lat lng).

Definition fetch_place_details (pid : string) : M (option PlaceResult) :=
  let* t := now in let* _ := emit (Details_fetch pid) in lift (details_api t pid).

Definition fetch_ocm (lat lng : option Q) : M (string * string) :=
  let* t := now in let* _ := emit (Ocm_lookup lat lng) in
  ret (fetch_ocm_details OCM_API_KEY (ocm_api t lat lng)).

Definition fetch_ocm_script (lat lng : option Q) : M (string * string) :=
  let* t := now in let* _ := emit (Ocm_lookup lat lng) in
  ret (fetch_ocm_details_script OCM_API_KEY (ocm_api t lat lng)).

Definition make_record (pid : string) (res : PlaceResult)
    (place_lat place_lng : option Q) (ocm : string * string) : Record_ :=
  {| r_place_id := pid;
     r_name := name res;
     r_address := formatted_address res;
     r_lat := place_lat;
     r_lng := place_lng;
     ocm_connector_types := fst ocm;
     ocm_power_kW := snd ocm;
     r_types := join "," (types res);
     r_business_status := business_status res;
     r_phone_number := formatted_phone_number res |}.

(** The body of [for r in results] in [run_extraction] (Option 01). *)
Definition visit_01 (r : Candidate) : M unit :=
  match place_id r with
  | None | Some EmptyString => ret tt
  | Some pid =>
      let* known := in_seen pid in
      if known then ret tt
      else
        let* details := fetch_place_details pid in
        if negb (is_charger_place_01 details) then ret tt
        else
          let* _ := seen_add pid in
          let res := result_of details in
          let place_lat := geometry_lat res in
          let place_lng := geometry_lng res in
          let* ocm := fetch_ocm place_lat place_lng in
          records_append (make_record pid res place_lat place_lng ocm)
  end.

Definition run_extraction : M unit :=
  for_each lat_points (fun lat =>
    for_each lng_points (fun lng =>
      let* results := fetch_nearby lat lng in
      for_each results visit_01)).

(** The body of [for r in results] in [fetch_central_london_verified],
    on replies whose [types] is a list. *)
Definition visit_script (r : Candidate) : M unit :=
  match place_id r with
  | None | Some EmptyString => ret tt
  | Some pid =>
      let* known := in_seen pid in
      if known then ret tt
      else
        let* fetched := try_except (let* d := fetch_place_details pid in ret (Some d)) (ret None) in
        match fetched with
        | None => ret tt
        | Some details =>
            if negb (is_charger_place_script details) then ret tt
            else
              let* _ := seen_add pid in
              let res := result_of details in
              let place_lat := or_else (geometry_lat res) (candidate_lat r) in
              let place_lng := or_else (geometry_lng res) (candidate_lng r) in
              let* ocm := fetch_ocm_script place_lat place_lng in
              records_append (make_record pid res place_lat place_lng ocm)
        end
  end.

Definition fetch_central_london_verified : M unit :=
  for_each lat_points (fun lat =>
    for_each lng_points (fun lng =>
      let* found := try_except (let* rs := fetch_nearby lat lng in ret (Some rs)) (ret None) in
      match found with
      | None => ret tt
      | Some results => for_each results visit_script
      end)).
End Sweep.

Definition start : Run := {| records := []; seen := ∅; trace := [] |}.


(** No details lookup of an identifier follows its addition to [seen]. *)
Definition never_refetched (events : list Event) : Prop :=
  forall (before : list Event) (pid : string) (after : list Event),
    events = before ++ Seen_add pid :: after -> Details_fetch pid ∉ after.

(** The invariant of a run: identifiers added to [seen] are in [seen]
    and are not looked up again; every record's identifier is in [seen],
    and no two records share one. *)
Definition run_invariant (st : Run) : Prop :=
  (forall pid : string, Seen_add pid ∈ trace st -> pid ∈ seen st)
  /\ never_refetched (trace st)
  /\ (forall rec : Record_, rec ∈ records st -> r_place_id rec ∈ seen st)
  /\ NoDup (map r_place_id (records st)).

(** A computation keeps the invariant, whether it returns or raises. *)
Definition keeps {A} (m : M A) : Prop :=
  forall st : Run, run_invariant st -> run_invariant (snd (m st)).


End Verified.

(** ** Data cleaning of Cloud Function Option 01 *)

Module Cleaning01.
Import PyStr Pandas Classifier Reconciler Verified.

(** A row of the cleaned frame (temporary columns dropped, the others
    renamed). *)
Record Cleaned := {
  Place_Id : string;
  Location_Name : option string;
  Address : option string;
  Latitude : option Q;
  Longitude : option Q;
  OCM_Connector_Types : string;
  OCM_Power_kW : string;
  Business_Status : option string;
  Phone_Number : option string;
  Number_of_Connectors : nat;
  Max_Charging_Type : option string;
  Min_Power_kW : option Q;
  Max_Power_kW : option Q;
  Rapid_Charge_Available : string;
  Fast_Charge_Available : string;
  Slow_Charge_Available : string
}.

(** [df.drop_duplicates(subset=["place_id"], inplace=True)]: [keep] is
    left at its default, ['first']. *)
Definition drop_duplicate_places (df : list Record_) : list Record_ :=
  drop_duplicates (same_on r_place_id) keep_first df.

Definition bad : list string :=
  ["No Match Found"; "No Connections Listed"; "OCM API Error"].

Definition clean_row (r : Record_) : PyResult Cleaned :=
  let connector_list := split "; " (ocm_connector_types r) in
  match power_list (ocm_power_kW r) with
  | Raise e => Raise e
  | Return power_list =>
      let charging_type_list := assign_charging_type power_list in
      Return {|
        Place_Id := r_place_id r;
        Location_Name := r_name r;
        Address := r_address r;
        Latitude := r_lat r;
        Longitude := r_lng r;
        OCM_Connector_Types := ocm_connector_types r;
        OCM_Power_kW := ocm_power_kW r;
        Business_Status := r_business_status r;
        Phone_Number := r_phone_number r;
        Number_of_Connectors := length connector_list;
        Max_Charging_Type := max_charging_type charging_type_list;
        Min_Power_kW := min_power power_list;
        Max_Power_kW := max_power power_list;
        Rapid_Charge_Available := yes_no (py_in "Rapid" charging_type_list);
        Fast_Charge_Available := yes_no (py_in "Fast" charging_type_list);
        Slow_Charge_Available := yes_no (py_in "Slow" charging_type_list)
      |}
  end.

Fixpoint clean_rows (df : list Record_) : PyResult (list Cleaned) :=
  match df with
  | [] => Return []
  | r :: rest =>
      match clean_row r with
      | Raise e => Raise e
      | Return c =>
          match clean_rows rest with
          | Raise e => Raise e
          | Return cs => Return (c :: cs)
          end
      end
  end.

Definition clean_ev_charger_data (df : list Record_) : PyResult (list Cleaned) :=
  let df := drop_duplicate_places df in
  let df := filter (fun r => ocm_connector_types r ∉ bad) df in
  clean_rows df.

End Cleaning01.

(** ** Catalog variants (Open Charge Map only) *)

Module Catalog.
Import Pandas Classifier.

(** A cell after [fillna("Unknown")]. *)
Inductive Cell (A : Type) : Type :=
  | Value (a : A)
  | Unknown.
Arguments Value {A} a.
Arguments Unknown {A}.

Definition fillna {A} (x : option A) : Cell A :=
  match x with Some a => Value a | None => Unknown end.

Definition notna {A} (x : option A) : bool :=
  match x with Some _ => true | None => false end.

Section Frame.
(** The text columns of a row after their clean-up (operator, status,
    location name, address, usage); the steps below carry them along
    unchanged. *)
Context {Text : Type} `{EqDecision Text}.

(** A POI of the catalog, as far as the numeric columns read it. *)
Record POI := {
  ID : option Z;
  Address_Latitude : option Q;
  Address_Longitude : option Q;
  Connections : option (list Connection);
  text : Text
}.

(** A row of [df_final] before [dropna]: the columns of
    [connection_info] are all null when [extract_connections] returned
    the empty dictionary. *)
Record Wide := {
  w_Place_ID : option Z;
  w_Latitude : option Q;
  w_Longitude : option Q;
  w_connection_info : option ConnectionInfo;
  w_text : Text
}.

Definition widen (p : POI) : Wide :=
  {| w_Place_ID := ID p;
     w_Latitude := Address_Latitude p;
     w_Longitude := Address_Longitude p;
     w_connection_info := extract_connections (Connections p);
     w_text := text p |}.

(** [dropna(subset=[Number_of_Connectors, Min_Power_kW, Max_Power_kW,
    Latitude, Longitude], how='any')] keeps the rows this accepts. *)
Definition complete (w : Wide) : bool :=
  notna (Number_of_Connectors <$> w_connection_info w)
  && notna (w_connection_info w ≫= Min_Power_kW)
  && notna (w_connection_info w ≫= Max_Power_kW)
  && notna (w_Latitude w)
  && notna (w_Longitude w).

(** A row of the exported frame ([selected_cols]). *)
Record Row := {
  Place_ID : Cell Z;
  Text_Columns : Text;
  Latitude : Cell Q;
  Longitude : Cell Q;
  Row_Number_of_Connectors : Cell nat;
  Row_Min_Power_kW : Cell Q;
  Row_Max_Power_kW : Cell Q;
  Row_Max_Charging_Type : Cell string;
  Row_Rapid_Charge_Available : Cell string;
  Row_Fast_Charge_Available : Cell string;
  Row_Slow_Charge_Available : Cell string
}.

(** [fillna("Unknown")] and the selection of the exported columns. *)
Definition export (w : Wide) : Row :=
  let info := w_connection_info w in
  {| Place_ID := fillna (w_Place_ID w);
     Text_Columns := w_text w;
     Latitude := fillna (w_Latitude w);
     Longitude := fillna (w_Longitude w);
     Row_Number_of_Connectors := fillna (Number_of_Connectors <$> info);
     Row_Min_Power_kW := fillna (info ≫= Min_Power_kW);
     Row_Max_Power_kW := fillna (info ≫= Max_Power_kW);
     Row_Max_Charging_Type := fillna (info ≫= Max_Charging_Type);
     Row_Rapid_Charge_Available := fillna (Rapid_Charge_Available <$> info);
     Row_Fast_Charge_Available := fillna (Fast_Charge_Available <$> info);
     Row_Slow_Charge_Available := fillna (Slow_Charge_Available <$> info) |}.

(** [df_export] of [data_extracting_cleaning_OCM.py].  The script's own
    [extract_connections] differs from the one of Option 02 only in the
    columns Connection_Types and Connection_CurrentTypes, where it keeps
    the null entries; neither column is exported. *)
Definition df_export (all_poi_data : list POI) : list Row :=
  map export (filter (fun w => complete w = true) (map widen all_poi_data)).

Definition cell_same {A} (eqb : A -> A -> bool) (x y : Cell A) : bool :=
  match x, y with
  | Value a, Value b => eqb a b
  | Unknown, Unknown => true
  | _, _ => false
  end.

(** Two rows are the same when every column holds the same value. *)
Definition same_row (a b : Row) : bool :=
  cell_same Z.eqb (Place_ID a) (Place_ID b)
  && bool_decide (Text_Columns a = Text_Columns b)
  && cell_same Qeq_bool (Latitude a) (Latitude b)
  && cell_same Qeq_bool (Longitude a) (Longitude b)
  && cell_same Nat.eqb (Row_Number_of_Connectors a) (Row_Number_of_Connectors b)
  && cell_same Qeq_bool (Row_Min_Power_kW a) (Row_Min_Power_kW b)
  && cell_same Qeq_bool (Row_Max_Power_kW a) (Row_Max_Power_kW b)
  && cell_same String.eqb (Row_Max_Charging_Type a) (Row_Max_Charging_Type b)
  && cell_same String.eqb (Row_Rapid_Charge_Available a) (Row_Rapid_Charge_Available b)
  && cell_same String.eqb (Row_Fast_Charge_Available a) (Row_Fast_Charge_Available b)
  && cell_same String.eqb (Row_Slow_Charge_Available a) (Row_Slow_Charge_Available b).

(** The five columns named by [dropna] hold values, and the maximum
    charging type is a tier name. *)
Definition row_defined (row : Row) : Prop :=
  exists (n : nat) (lo hi lat lng : Q) (t : string),
    Row_Number_of_Connectors row = Value n
    /\ Row_Min_Power_kW row = Value lo
    /\ Row_Max_Power_kW row = Value hi
    /\ Latitude row = Value lat
    /\ Longitude row = Value lng
    /\ Row_Max_Charging_Type row = Value t
    /\ t ∈ ["Rapid"; "Fast"; "Slow"].

(** The connection list of the POI yields no known power reading. *)
Definition no_known_power (p : POI) : Prop :=
  match Connections p with
  | Some conn_list => known PowerKW conn_list = []
  | None => True
  end.

(** [df_final] of [ocm_extractor] (Option 02) when it reaches the
    upload: the same steps, then [drop_duplicates(keep='last')]. *)
Definition df_final (all_poi_data : list POI) : list Row :=
  drop_duplicates same_row keep_last (df_export all_poi_data).
End Frame.

Arguments POI : clear implicits.
Arguments Wide : clear implicits.
Arguments Row : clear implicits.

#[global] Instance Cell_eq_dec {A} `{EqDecision A} : EqDecision (Cell A).
Proof. solve_decision. Defined.

#[global] Instance Row_eq_dec {Text} `{EqDecision Text} : EqDecision (Row Text).
Proof. solve_decision. Defined.

(** A row with every number in lowest terms: two rows are the same for
    [same_row] exactly when these representatives are equal. *)
Definition canon_cell (c : Cell Q) : Cell Q :=
  match c with Value q => Value (Qred q) | Unknown => Unknown end.

Definition canon {Text} (r : Row Text) : Row Text :=
  {| Place_ID := Place_ID r;
     Text_Columns := Text_Columns r;
     Latitude := canon_cell (Latitude r);
     Longitude := canon_cell (Longitude r);
     Row_Number_of_Connectors := Row_Number_of_Connectors r;
     Row_Min_Power_kW := canon_cell (Row_Min_Power_kW r);
     Row_Max_Power_kW := canon_cell (Row_Max_Power_kW r);
     Row_Max_Charging_Type := Row_Max_Charging_Type r;
     Row_Rapid_Charge_Available := Row_Rapid_Charge_Available r;
     Row_Fast_Charge_Available := Row_Fast_Charge_Available r;
     Row_Slow_Charge_Available := Row_Slow_Charge_Available r |}.

(** The tail of [ocm_extractor] (Option 02): nothing is persisted when
    no POI was fetched; otherwise the cleaned frame is written as a CSV
    snapshot (not modelled: it holds the same rows) and synced. *)
Definition ocm_extractor {Text} `{EqDecision Text}
    (all_poi_data : list (POI Text)) (client : BigQuery.Client (Row Text))
    : PyResult (string * BigQuery.Client (Row Text)) :=
  match all_poi_data with
  | [] => Return ("No data returned from OCM API", client)
  | _ :: _ =>
      Sync.load_to_bigquery_incremental_02 Place_ID (df_final all_poi_data) client
  end.

End Catalog.


(** ** Sample data *)

Module Samples.
Import Verified.

(** Two extracted records for one place, in the order received. *)
Definition first_seen : Record_ :=
  {| r_place_id := "ChIJ-A"; r_name := Some "Car Park EV Charger";
     r_address := Some "1 High St"; r_lat := Some 51.5%Q; r_lng := Some (-0.1)%Q;
     ocm_connector_types := "Type 2"; ocm_power_kW := "7.0 kW";
     r_types := "establishment"; r_business_status := Some "OPERATIONAL";
     r_phone_number := None |}.

Definition last_seen : Record_ :=
  {| r_place_id := "ChIJ-A"; r_name := Some "Car Park EV Charger";
     r_address := Some "1 High St"; r_lat := Some 51.5%Q; r_lng := Some (-0.1)%Q;
     ocm_connector_types := "CCS (Type 2)"; ocm_power_kW := "50.0 kW";
     r_types := "establishment"; r_business_status := Some "OPERATIONAL";
     r_phone_number := None |}.

(** Two catalog rows with one Place_ID that differ in a column. *)
Definition row_old : Catalog.Row string :=
  {| Catalog.Place_ID := Catalog.Value 1001%Z;
     Catalog.Text_Columns := "Unknown";
     Catalog.Latitude := Catalog.Value 51.5%Q;
     Catalog.Longitude := Catalog.Value (-0.1)%Q;
     Catalog.Row_Number_of_Connectors := Catalog.Value 1%nat;
     Catalog.Row_Min_Power_kW := Catalog.Value 7%Q;
     Catalog.Row_Max_Power_kW := Catalog.Value 7%Q;
     Catalog.Row_Max_Charging_Type := Catalog.Value "Fast";
     Catalog.Row_Rapid_Charge_Available := Catalog.Value "No";
     Catalog.Row_Fast_Charge_Available := Catalog.Value "Yes";
     Catalog.Row_Slow_Charge_Available := Catalog.Value "No" |}.

Definition row_new : Catalog.Row string :=
  {| Catalog.Place_ID := Catalog.Value 1001%Z;
     Catalog.Text_Columns := "Unknown";
     Catalog.Latitude := Catalog.Value 51.5%Q;
     Catalog.Longitude := Catalog.Value (-0.1)%Q;
     Catalog.Row_Number_of_Connectors := Catalog.Value 1%nat;
     Catalog.Row_Min_Power_kW := Catalog.Value 50%Q;
     Catalog.Row_Max_Power_kW := Catalog.Value 50%Q;
     Catalog.Row_Max_Charging_Type := Catalog.Value "Rapid";
     Catalog.Row_Rapid_Charge_Available := Catalog.Value "Yes";
     Catalog.Row_Fast_Charge_Available := Catalog.Value "No";
     Catalog.Row_Slow_Charge_Available := Catalog.Value "No" |}.

(** A service that fails five times and would then answer, and one that
    throttles with a date in [Retry-After]. *)
Definition unavailable : Fetch.Reply unit :=
  Fetch.Responds {| Fetch.status_code := 503; Fetch.Retry_After := None; Fetch.json := tt |}.

Definition answer : Fetch.Response unit :=
  {| Fetch.status_code := 200; Fetch.Retry_After := None; Fetch.json := tt |}.

Definition five_failures_then_answer (n : nat) : Fetch.Reply unit :=
  if (n <? 5)%nat then unavailable else Fetch.Responds answer.

Definition throttled_until_date (n : nat) : Fetch.Reply unit :=
  Fetch.Responds {| Fetch.status_code := 429;
                    Fetch.Retry_After := Some "Wed, 21 Oct 2015 07:28:00 GMT";
                    Fetch.json := tt |}.

(** A throttled reply that asks for more seconds than [time.sleep]
    can convert. *)
Definition throttled_for_ages (n : nat) : Fetch.Reply unit :=
  Fetch.Responds {| Fetch.status_code := 429; Fetch.Retry_After := Some "9223372037";
                    Fetch.json := tt |}.

(** A clock that lets every sleep of up to nine thousand million
    seconds through. *)
Definition young_clock (n : nat) : Z := 9000000000.

Definition throttled_twice (n : nat) : Fetch.Reply unit :=
  if (n <? 2)%nat then
    Fetch.Responds {| Fetch.status_code := 429; Fetch.Retry_After := Some "3";
                      Fetch.json := tt |}
  else Fetch.Responds answer.

(** Two POIs of the catalog: one with a 7.4 kW and a 50 kW connector,
    one whose only connector has no power reading. *)
Definition poi_with_power : Catalog.POI string :=
  {| Catalog.ID := Some 1001%Z;
     Catalog.Address_Latitude := Some 51.5%Q;
     Catalog.Address_Longitude := Some (-0.1)%Q;
     Catalog.Connections :=
       Some [{| Classifier.PowerKW := Some 7.4%Q;
                Classifier.ConnectionTypeID := Some 25%Z;
                Classifier.CurrentTypeID := Some 10%Z |};
             {| Classifier.PowerKW := Some 50%Q;
                Classifier.ConnectionTypeID := Some 33%Z;
                Classifier.CurrentTypeID := Some 30%Z |}];
     Catalog.text := "Unknown" |}.

(** The same POI as two overlapping tiles may return it, its connector
    upgraded between the two requests. *)
Definition poi_upgraded : Catalog.POI string :=
  {| Catalog.ID := Some 1001%Z;
     Catalog.Address_Latitude := Some 51.5%Q;
     Catalog.Address_Longitude := Some (-0.1)%Q;
     Catalog.Connections :=
       Some [{| Classifier.PowerKW := Some 22%Q;
                Classifier.ConnectionTypeID := Some 25%Z;
                Classifier.CurrentTypeID := Some 10%Z |};
             {| Classifier.PowerKW := Some 50%Q;
                Classifier.ConnectionTypeID := Some 33%Z;
                Classifier.CurrentTypeID := Some 30%Z |}];
     Catalog.text := "Unknown" |}.

Definition poi_without_power : Catalog.POI string :=
  {| Catalog.ID := Some 1002%Z;
     Catalog.Address_Latitude := Some 51.51%Q;
     Catalog.Address_Longitude := Some (-0.12)%Q;
     Catalog.Connections :=
       Some [{| Classifier.PowerKW := None;
                Classifier.ConnectionTypeID := Some 25%Z;
                Classifier.CurrentTypeID := None |}];
     Catalog.text := "Unknown" |}.

(** A sweep over two anchors around a hardware shop and a charger: the
    nearby search returns both places at each anchor. *)
Definition hardware_shop : PlaceResult :=
  {| name := Some "Acme Hardware"; formatted_address := Some "1 High St";
     geometry_lat := Some 51.5%Q; geometry_lng := Some (-0.1)%Q;
     types := ["hardware_store"]; business_status := Some "OPERATIONAL";
     formatted_phone_number := None |}.

Definition charger : PlaceResult :=
  {| name := Some "Acme EV Charger";
     formatted_address := Some "1 High St, Charging Yard";
     geometry_lat := Some 51.5%Q; geometry_lng := Some (-0.1)%Q;
     types := ["establishment"]; business_status := Some "OPERATIONAL";
     formatted_phone_number := None |}.

Definition candidate (pid : string) : Candidate :=
  {| place_id := Some pid; candidate_lat := Some 51.5%Q; candidate_lng := Some (-0.1)%Q |}.

Definition nearby_both (t : nat) (lat lng : Q) : PyResult (list Candidate) :=
  Return [candidate "shop"; candidate "charger"].


Definition details_of (t : nat) (pid : string) : PyResult (option PlaceResult) :=
  if String.eqb pid "shop" then Return (Some hardware_shop)
  else Return (Some charger).

Definition no_catalog (t : nat) (lat lng : option Q) : Reconciler.OcmReply :=
  Reconciler.Ocm_data [].

Definition two_anchors : list Q := [51.48%Q; 51.51%Q].
Definition one_column : list Q := [(-0.2)%Q].

(** Four connectors of one catalog POI. *)
Definition with_power (title : string) (q : Q) : Reconciler.Connection :=
  {| Reconciler.ConnectionType := Reconciler.Present (Reconciler.Present title);
     Reconciler.PowerKW := Some q |}.

Definition zero_power : Reconciler.Connection :=
  {| Reconciler.ConnectionType := Reconciler.Absent;
     Reconciler.PowerKW := Some 0%Q |}.

Definition no_power : Reconciler.Connection :=
  {| Reconciler.ConnectionType := Reconciler.Present Reconciler.Absent;
     Reconciler.PowerKW := None |}.

Definition four_connectors : list Reconciler.Connection :=
  [with_power "Type 2" 7.4%Q; zero_power; no_power; with_power "CCS" 50%Q].

End Samples.
From Stdlib Require Import Qround.
From Stdlib Require Qpower Qabs.


(** ** The keywords that decide the name test

    Every other keyword of [CHARGER_KEYWORDS] holds one of these. *)

Module Keywords.

Definition core_01 : list string :=
  ["charge"; "charging"; "ev"; "pod point"; "bp pulse"; "tesla"; "instavolt";
   "ionity"; "mer"; "octopus"].

Definition core_script : list string :=
  ["charge"; "charging"; "ev"; "pod point"; "pod-point"; "bp pulse"; "bp-pulse";
   "tesla"; "instavolt"; "ionity"; "engie"; "mer"; "octopus"; "podpoint"].

End Keywords.

(** ** The time [safe_get] spends asleep *)

Module Backoff.
Import Fetch.

(** The seconds slept in all. *)
Definition total_slept (e : Effort) : Z := foldr Z.add 0%Z (slept e).

(** A reply without a [Retry-After] header. *)
Definition no_retry_after {Body : Type} (reply : Reply Body) : Prop :=
  match reply with
  | Request_exception => True
  | Responds response => Retry_After response = None
  end.

(** Why the wait after the failed attempt number [retry] raises [x]:
    [int] cannot read the delay or [time.sleep] finds it negative
    ([ValueError]), [time.sleep] cannot convert it ([OverflowError]),
    or its end does not fit the clock ([OSError]). *)
Definition refused {Body : Type} (longest_sleep : nat -> Z) (network : nat -> Reply Body)
    (retry : nat) (x : string) : Prop :=
  (x = "ValueError"
   /\ ~ delay_readable (network retry)
   /\ (- sleep_limit <= backoff network retry)%Z)
  \/ (x = "OverflowError"
      /\ (sleep_limit < Z.abs (backoff network retry))%Z)
  \/ (x = "OSError"
      /\ delay_readable (network retry)
      /\ (backoff network retry <= sleep_limit)%Z
      /\ (longest_sleep retry < backoff network retry)%Z).

End Backoff.

(** ** Nearby search, page by page ([fetch_nearby])

    The oracle [nearby_api] of the sweep stands for one call of
    [fetch_nearby]; here is the call itself. *)

Module Pagination.
Import Fetch.

(** The decoded body of a nearby-search reply: [results] (absent: the
    empty list) and [next_page_token] (absent or null: [None]). *)
Record Page (Entry : Type) := {
  results : list Entry;
  next_page_token : option string
}.
Arguments results {Entry} _.
Arguments next_page_token {Entry} _.

(** The [pagetoken] parameter of each request sent ([None]: the
    parameter is not set) and the sleeps taken, in seconds. *)
Record Calls := {
  pagetokens : list (option string);
  sleeps : list Q
}.

(** Truth value of a token. *)
Definition token_given (pagetoken : option string) : bool :=
  match pagetoken with
  | Some (String _ _) => true
  | _ => false
  end.

Section FetchNearby.
Context {Entry : Type}.
(** What the n-th request of the call gets; the [json] of a response
    is the outcome of [resp.json()]. *)
Variable network : nat -> Reply (PyResult (Page Entry)).

(** [if pagetoken: params["pagetoken"] = pagetoken; time.sleep(pause)],
    then the request goes out. *)
Definition request_page (pause : Q) (pagetoken : option string) (c : Calls) : Calls :=
  if token_given pagetoken
  then {| pagetokens := pagetokens c ++ [pagetoken]; sleeps := sleeps c ++ [pause] |}
  else {| pagetokens := pagetokens c ++ [None]; sleeps := sleeps c |}.

(** [while True: ...] of Cloud Function Option 01; [None] when [fuel]
    iterations did not reach the [break]. *)
Fixpoint fetch_nearby_loop_01 (fuel : nat) (pagetoken : option string)
    (all_results : list Entry) (c : Calls) : option (PyResult (list Entry) * Calls) :=
  match fuel with
  | O => None
  | S fuel =>
      let n := length (pagetokens c) in
      let c := request_page 2 pagetoken c in
      match network n with
      | Request_exception => Some (Raise "RequestException", c)
      | Responds response =>
          match json response with
          | Raise x => Some (Raise x, c)
          | Return resp =>
              let all_results := all_results ++ results resp in
              let pagetoken := next_page_token resp in
              if token_given pagetoken
              then fetch_nearby_loop_01 fuel pagetoken all_results c
              else Some (Return all_results, c)
          end
      end
  end.

Definition fetch_nearby_01 (fuel : nat) : option (PyResult (list Entry) * Calls) :=
  fetch_nearby_loop_01 fuel None [] {| pagetokens := []; sleeps := [] |}.

(** The same loop in [data_extracting_OCM_GPA.py]: the pause is 2.2 s
    and [resp.raise_for_status()] comes before [resp.json()]. *)
Fixpoint fetch_nearby_loop_script (fuel : nat) (pagetoken : option string)
    (all_results : list Entry) (c : Calls) : option (PyResult (list Entry) * Calls) :=
  match fuel with
  | O => None
  | S fuel =>
      let n := length (pagetokens c) in
      let c := request_page 2.2 pagetoken c in
      match network n with
      | Request_exception => Some (Raise "RequestException", c)
      | Responds resp =>
          if raise_for_status resp then Some (Raise "HTTPError", c)
          else
            match json resp with
            | Raise x => Some (Raise x, c)
            | Return data =>
                let all_results := all_results ++ results data in
                let pagetoken := next_page_token data in
                if token_given pagetoken
                then fetch_nearby_loop_script fuel pagetoken all_results c
                else Some (Return all_results, c)
            end
      end
  end.

Definition fetch_nearby_script (fuel : nat) : option (PyResult (list Entry) * Calls) :=
  fetch_nearby_loop_script fuel None [] {| pagetokens := []; sleeps := [] |}.

(** The page that the n-th request brings, when it brings one. *)
Definition page_at (n : nat) : option (Page Entry) :=
  match network n with
  | Request_exception => None
  | Responds response =>
      match json response with
      | Return page => Some page
      | Raise _ => None
      end
  end.

(** The token that the n-th request carries: that of the page before. *)
Definition token_before (n : nat) : option string :=
  match n with
  | O => None
  | S m => page_at m ≫= next_page_token
  end.

(** The entries of the pages of the first [n] requests. *)
Definition gathered (n : nat) : list Entry :=
  flat_map results (omap page_at (seq 0 n)).

(** The n-th request brings a page with a token: the loop goes on. *)
Definition continues_01 (n : nat) : bool :=
  match page_at n with
  | Some page => token_given (next_page_token page)
  | None => false
  end.

Definition continues_script (n : nat) : bool :=
  match network n with
  | Request_exception => false
  | Responds resp => negb (raise_for_status resp) && continues_01 n
  end.

(** What the call ends with when the n-th request is its last. *)
Definition ending_01 (n : nat) : PyResult (list Entry) :=
  match network n with
  | Request_exception => Raise "RequestException"
  | Responds response =>
      match json response with
      | Raise x => Raise x
      | Return _ => Return (gathered (S n))
      end
  end.

Definition ending_script (n : nat) : PyResult (list Entry) :=
  match network n with
  | Request_exception => Raise "RequestException"
  | Responds resp => if raise_for_status resp then Raise "HTTPError" else ending_01 n
  end.

(** The requests and sleeps of a call that ends with the n-th request. *)
Definition calls_until (pause : Q) (n : nat) : Calls :=
  {| pagetokens := map token_before (seq 0 (S n)); sleeps := replicate n pause |}.

End FetchNearby.

End Pagination.

(** ** Where the records of a sweep come from *)

Module Provenance.
Import Reconciler Verified.

(** A computation keeps a property of the run, whether it returns or
    raises. *)
Definition preserves {A} (P : Run -> Prop) (m : M A) : Prop :=
  forall st : Run, P st -> P (snd (m st)).

(** The identifiers added to [seen], in the order of their addition. *)
Definition accepted (events : list Event) : list string :=
  omap (fun ev => match ev with Seen_add pid => Some pid | _ => None end) events.

(** The grid points searched, in the order of the searches. *)
Definition searched (events : list Event) : list (Q * Q) :=
  omap (fun ev => match ev with Nearby_search lat lng => Some (lat, lng) | _ => None end)
       events.

Section Validated.
Variable details_api : nat -> string -> PyResult (option PlaceResult).
Variable ocm_api : nat -> option Q -> option Q -> OcmReply.
(** The validation and the catalog reading of the sweep at hand, and
    how it places a record. *)
Variable is_charger_place : option PlaceResult -> bool.
Variable fetch_ocm_details : OcmReply -> string * string.
Variable located : PlaceResult -> Record_ -> Prop.

(** The record was built from a details reply of this run that passed
    the validation, and from the catalog reply for its coordinates. *)
Definition validated (events : list Event) (rec : Record_) : Prop :=
  r_place_id rec <> ""
  /\ exists (t u : nat) (details : option PlaceResult),
       events !! t = Some (Details_fetch (r_place_id rec))
       /\ details_api t (r_place_id rec) = Return details
       /\ is_charger_place details = true
       /\ located (result_of details) rec
       /\ events !! u = Some (Ocm_lookup (r_lat rec) (r_lng rec))
       /\ rec = make_record (r_place_id rec) (result_of details) (r_lat rec) (r_lng rec)
                  (fetch_ocm_details (ocm_api u (r_lat rec) (r_lng rec))).

Definition sound (st : Run) : Prop :=
  map r_place_id (records st) = accepted (trace st)
  /\ seen st = list_to_set (accepted (trace st))
  /\ forall rec : Record_, rec ∈ records st -> validated (trace st) rec.

End Validated.

(** Option 01 takes the coordinates of the details reply. *)
Definition located_01 (res : PlaceResult) (rec : Record_) : Prop :=
  r_lat rec = geometry_lat res /\ r_lng rec = geometry_lng res.


(** The grid in the order of the two loops. *)
Definition grid (lat_points lng_points : list Q) : list (Q * Q) :=
  flat_map (fun lat => map (fun lng => (lat, lng)) lng_points) lat_points.

Section Failure.
Variable nearby_api : nat -> Q -> Q -> PyResult (list Candidate).
Variable details_api : nat -> string -> PyResult (option PlaceResult).

(** The last event is a call to Google that raised [e]. *)
Definition raised_by (e : string) (events : list Event) : Prop :=
  exists (before : list Event) (ev : Event),
    events = before ++ [ev]
    /\ match ev with
       | Nearby_search lat lng => nearby_api (length before) lat lng = Raise e
       | Details_fetch pid => details_api (length before) pid = Raise e
       | _ => False
       end.

(** Whatever a computation raises was raised by its last call. *)
Definition faithful {A} (m : M A) : Prop :=
  forall (st : Run) (e : string), fst (m st) = Raise e -> raised_by e (trace (snd (m st))).

End Failure.

(** A computation searches the grid points [points] and returns, or
    raises within them. *)
Definition searches {A} (m : M A) (points : list (Q * Q)) : Prop :=
  forall st : Run,
    match m st with
    | (Return _, st') => searched (trace st') = searched (trace st) ++ points
    | (Raise _, st') =>
        exists done_ : list (Q * Q),
          done_ `prefix_of` points /\ searched (trace st') = searched (trace st) ++ done_
    end.

(** A computation returns, whatever the state. *)
Definition returns {A} (m : M A) : Prop :=
  forall st : Run, exists a : A, fst (m st) = Return a.

End Provenance.

(** ** The extraction script on the replies as they are served
    ([fetch_central_london_verified], [data_extracting_OCM_GPA.py]) *)

Module Script.
Import PyStr Reconciler Verified.

(** The [result] object of a place-details reply as it is served:
    [types] may be missing or null. *)
Record ServedResult := {
  served_name : option string;
  served_formatted_address : option string;
  served_geometry_lat : option Q;
  served_geometry_lng : option Q;
  served_types : Member (list string);
  served_business_status : option string;
  served_formatted_phone_number : option string
}.

(** [result.get("types", []) or []] *)
Definition types_or_empty (res : ServedResult) : list string :=
  match served_types res with
  | Present types => types
  | Absent | Null => []
  end.

(** The reply as [is_charger_place] reads it. *)
Definition guarded (res : ServedResult) : PlaceResult :=
  {| name := served_name res;
     formatted_address := served_formatted_address res;
     geometry_lat := served_geometry_lat res;
     geometry_lng := served_geometry_lng res;
     types := types_or_empty res;
     business_status := served_business_status res;
     formatted_phone_number := served_formatted_phone_number res |}.

(** [",".join(res.get("types", []))] with [res = details.get("result", {})]:
    no guard here, a null [types] raises. *)
Definition joined_types (details : option ServedResult) : PyResult string :=
  match details with
  | None => Return (join "," [])
  | Some res =>
      match served_types res with
      | Absent => Return (join "," [])
      | Null => Raise "TypeError"
      | Present types => Return (join "," types)
      end
  end.

Section Sweep.
Variable nearby_api : nat -> Q -> Q -> PyResult (list Candidate).
Variable details_api : nat -> string -> PyResult (option ServedResult).
Variable ocm_api : nat -> option Q -> option Q -> OcmReply.
Variable OCM_API_KEY : option string.
Variables lat_points lng_points : list Q.
(** [pd.DataFrame(records)] and [df.to_csv(path, index=False)]: the
    writing raises when the folder is missing, for one. *)
Variable to_csv : list Record_ -> PyResult unit.

Definition fetch_place_details (pid : string) : M (option ServedResult) :=
  let* t := now in let* _ := emit (Details_fetch pid) in lift (details_api t pid).

(** The body of [for r in results]. *)
Definition visit (r : Candidate) : M unit :=
  match place_id r with
  | None | Some EmptyString => ret tt
  | Some pid =>
      let* known := in_seen pid in
      if known then ret tt
      else
        let* fetched := try_except (let* d := fetch_place_details pid in ret (Some d)) (ret None) in
        match fetched with
        | None => ret tt
        | Some details =>
            if negb (is_charger_place_script (guarded <$> details)) then ret tt
            else
              let* _ := seen_add pid in
              let res := result_of (guarded <$> details) in
              let place_lat := or_else (geometry_lat res) (candidate_lat r) in
              let place_lng := or_else (geometry_lng res) (candidate_lng r) in
              let* ocm := fetch_ocm_script ocm_api OCM_API_KEY place_lat place_lng in
              let* _ := lift (joined_types details) in
              records_append (make_record pid res place_lat place_lng ocm)
        end
  end.

(** The two loops over the grid. *)
Definition scan : M unit :=
  for_each lat_points (fun lat =>
    for_each lng_points (fun lng =>
      let* found := try_except (let* rs := fetch_nearby nearby_api lat lng in ret (Some rs))
                      (ret None) in
      match found with
      | None => ret tt
      | Some results => for_each results visit
      end)).

(** [df = pd.DataFrame(records)], [df.to_csv(...)], [return df] *)
Definition save : M (list Record_) :=
  fun st =>
    match to_csv (records st) with
    | Raise e => (Raise e, st)
    | Return _ => (Return (records st), st)
    end.

Definition fetch_central_london_verified : M (list Record_) :=
  let* _ := scan in save.

(** The replies as [Verified] has them: [types] read through the
    guard. *)
Definition typed (t : nat) (pid : string) : PyResult (option PlaceResult) :=
  match details_api t pid with
  | Return details => Return (guarded <$> details)
  | Raise e => Raise e
  end.

(** No reply has a null [types]. *)
Definition types_never_null : Prop :=
  forall (t : nat) (pid : string) (res : ServedResult),
    details_api t pid = Return (Some res) -> served_types res <> Null.

(** The run accepted a place whose reply has a null [types]: the
    details lookup number [t] of the trace returned it, the validation
    passed, the identifier went to [seen] and the catalog was asked. *)
Definition null_types_accepted (events : list Event) : Prop :=
  exists (t : nat) (pid : string) (res : ServedResult) (lat lng : option Q),
    events !! t = Some (Details_fetch pid)
    /\ details_api t pid = Return (Some res)
    /\ served_types res = Null
    /\ is_charger_place_script (Some (guarded res)) = true
    /\ events !! S t = Some (Seen_add pid)
    /\ events !! S (S t) = Some (Ocm_lookup lat lng)
    /\ length events = S (S (S t)).

(** Whatever a computation raises is the [TypeError] of such a place. *)
Definition raises_on_null_types {A} (m : M A) : Prop :=
  forall (st : Run) (e : string),
    fst (m st) = Raise e ->
    e = "TypeError" /\ null_types_accepted (trace (snd (m st))).

End Sweep.

End Script.

(** ** The sweep of bounding boxes ([ocm_extractor], Option 02)

    [MIN_LAT], [STEP] and the others are floating-point numbers, and
    [lat += STEP] is a floating-point addition.  The constants stand
    for the exact values of these numbers and [add] for the rounded
    sum; nothing is assumed about either unless a statement says so. *)

Module Tiles.

Record Box := {
  min_lat_box : Q;
  min_lng_box : Q;
  max_lat_box : Q;
  max_lng_box : Q
}.

(** [min(a, b)] *)
Definition min2 (a b : Q) : Q := if Qlt_b b a then b else a.

Section Sweep.
Context {Poi : Type}.
Variables MIN_LAT MAX_LAT MIN_LNG MAX_LNG STEP : Q.
Variable add : Q -> Q -> Q.
(** [safe_get] on the n-th bounding box of the run, then [resp.json()]
    when a response came: [None] for a skipped box, [Raise] for what
    either of them raises. *)
Variable fetch : nat -> Box -> PyResult (option (list Poi)).

(** The boxes requested, [all_poi_data], and the one-second sleeps. *)
Record State := {
  fetched : list Box;
  all_poi_data : list Poi;
  sleeps : nat
}.

Definition tile (lat lng : Q) : Box :=
  {| min_lat_box := lat;
     max_lat_box := min2 (add lat STEP) MAX_LAT;
     min_lng_box := lng;
     max_lng_box := min2 (add lng STEP) MAX_LNG |}.

(** The body of the inner loop, up to [time.sleep(1)]. *)
Definition visit (lat lng : Q) (s : State) : PyResult State :=
  let box := tile lat lng in
  match fetch (length (fetched s)) box with
  | Raise e => Raise e
  | Return resp =>
      Return {| fetched := fetched s ++ [box];
                all_poi_data := all_poi_data s ++ default [] resp;
                sleeps := S (sleeps s) |}
  end.

(** [while lat < MAX_LAT: ...; lat += STEP] *)
Fixpoint lat_loop (fuel : nat) (lng lat : Q) (s : State) : option (PyResult State) :=
  match fuel with
  | O => None
  | S fuel =>
      if Qlt_b lat MAX_LAT then
        match visit lat lng s with
        | Raise e => Some (Raise e)
        | Return s => lat_loop fuel lng (add lat STEP) s
        end
      else Some (Return s)
  end.

(** [while lng < MAX_LNG: lat = MIN_LAT; ...; lng += STEP] *)
Fixpoint lng_loop (fuel_lng fuel_lat : nat) (lng : Q) (s : State)
    : option (PyResult State) :=
  match fuel_lng with
  | O => None
  | S fuel_lng =>
      if Qlt_b lng MAX_LNG then
        match lat_loop fuel_lat lng MIN_LAT s with
        | None => None
        | Some (Raise e) => Some (Raise e)
        | Some (Return s) => lng_loop fuel_lng fuel_lat (add lng STEP) s
        end
      else Some (Return s)
  end.

Definition no_box : State := {| fetched := []; all_poi_data := []; sleeps := 0 |}.

(** The head of [ocm_extractor]: the key test, then the sweep. *)
Definition sweep (OCM_API_KEY : option string) (fuel_lng fuel_lat : nat)
    : option (PyResult (string + State)) :=
  match OCM_API_KEY with
  | None | Some EmptyString =>
      Some (Return (inl "ERROR: Missing OCM_API_KEY environment variable"))
  | Some _ =>
      match lng_loop fuel_lng fuel_lat MIN_LNG no_box with
      | None => None
      | Some (Raise e) => Some (Raise e)
      | Some (Return s) => Some (Return (inr s))
      end
  end.

(** The values that [x = lo; while x < hi: ...; x += STEP] goes
    through. *)
Fixpoint points (fuel : nat) (x hi : Q) : option (list Q) :=
  match fuel with
  | O => None
  | S fuel =>
      if Qlt_b x hi then cons x <$> points fuel (add x STEP) hi else Some []
  end.

(** The cells of the grid in the order of the two loops. *)
Definition cells (lngs lats : list Q) : list (Q * Q) :=
  flat_map (fun lng => map (fun lat => (lat, lng)) lats) lngs.

(** One pass over cells, stopped by the first exception. *)
Fixpoint visit_all (todo : list (Q * Q)) (s : State) : PyResult State :=
  match todo with
  | [] => Return s
  | (lat, lng) :: rest =>
      match visit lat lng s with
      | Raise e => Raise e
      | Return s => visit_all rest s
      end
  end.

End Sweep.

Section ScriptSweep.
Context {Poi : Type}.
Variables MIN_LAT MAX_LAT MAX_LNG STEP : Q.
Variable add : Q -> Q -> Q.
(** [requests.get], [raise_for_status] and [json] on the n-th bounding
    box of [data_extracting_cleaning_OCM.py]. *)
Variable request : nat -> Box -> PyResult (list Poi).

(** The body of the inner loop: the [try] with its [except Exception]. *)
Definition visit_script (lat lng : Q) (s : State (Poi := Poi)) : State :=
  let box := tile MAX_LAT MAX_LNG STEP add lat lng in
  match request (length (fetched s)) box with
  | Return poi_list =>
      {| fetched := fetched s ++ [box];
         all_poi_data := all_poi_data s ++ poi_list;
         sleeps := sleeps s |}
  | Raise _ =>
      {| fetched := fetched s ++ [box];
         all_poi_data := all_poi_data s;
         sleeps := sleeps s |}
  end.

Fixpoint lat_loop_script (fuel : nat) (lng lat : Q) (s : State) : option State :=
  match fuel with
  | O => None
  | S fuel =>
      if Qlt_b lat MAX_LAT
      then lat_loop_script fuel lng (add lat STEP) (visit_script lat lng s)
      else Some s
  end.

Fixpoint lng_loop_script (fuel_lng fuel_lat : nat) (lng : Q) (s : State) : option State :=
  match fuel_lng with
  | O => None
  | S fuel_lng =>
      if Qlt_b lng MAX_LNG then
        match lat_loop_script fuel_lat lng MIN_LAT s with
        | None => None
        | Some s => lng_loop_script fuel_lng fuel_lat (add lng STEP) s
        end
      else Some s
  end.

(** A failed request read as a box that Option 02 skips. *)
Definition failure_as_skip (n : nat) (box : Box) : PyResult (option (list Poi)) :=
  match request n box with
  | Return poi_list => Return (Some poi_list)
  | Raise _ => Return None
  end.

End ScriptSweep.

End Tiles.

(** ** Binary floating point *)

Module Float.
Import PyNum.

(** [floor (log2 |q|)], for [q] other than zero. *)
Definition exponent (q : Q) : Z :=
  let k := (Z.log2 (Z.abs (Qnum q)) - Z.log2 (Z.pos (Qden q)))%Z in
  if Qle_bool (2 ^ k) (Qabs.Qabs q) then k else (k - 1)%Z.

(** The unit in the last place of the doubles of the magnitude of [q]:
    they have 53 significant bits. *)
Definition ulp (q : Q) : Q := (2 ^ (exponent q - 52))%Q.

(** The double nearest to [q], ties to even, within the range of the
    normal numbers. *)
Definition round_double (q : Q) : Q :=
  if Qeq_bool q 0 then 0%Q
  else (inject_Z (round_half_even (q / ulp q)) * ulp q)%Q.

(** [x + y] on floats. *)
Definition add (x y : Q) : Q := round_double (x + y).

End Float.

(** The bounding box of Central London and the step of the sweep, as
    the floats that the literals of the program denote. *)
Module CentralLondon.

Definition MIN_LAT : Q := Float.round_double 51.48.
Definition MAX_LAT : Q := Float.round_double 51.55.
Definition MIN_LNG : Q := Float.round_double (-0.20).
Definition MAX_LNG : Q := Float.round_double (-0.02).
Definition STEP : Q := Float.round_double 0.01.

End CentralLondon.

(** ** The HTTP functions

    [run_etl] and [ev_etl] of Cloud Function Option 01, and the whole
    of [ocm_extractor] of Option 02. *)

Module Functions.
Import Pandas BigQuery Sync Verified Cleaning01.

(** What an HTTP function answers: the body, with status 200 or 500. *)
Inductive Answer :=
  | Status_200 (message : string)
  | Status_500 (error : string).

(** The table and the CSV snapshots uploaded to the bucket. *)
Record World := {
  client : Client Cleaned;
  uploaded : list (list Cleaned)
}.

Section Option01.
Variable nearby_api : nat -> Q -> Q -> PyResult (list Candidate).
Variable details_api : nat -> string -> PyResult (option PlaceResult).
Variable ocm_api : nat -> option Q -> option Q -> Reconciler.OcmReply.
Variable OCM_API_KEY : option string.
Variables lat_points lng_points : list Q.
(** [storage.Client()], [get_bucket], [blob] and
    [upload_from_string(df.to_csv(index=False))]: any of them may
    raise. *)
Variable storage : list Cleaned -> PyResult unit.

Definition run_etl (w : World) : PyResult string * World :=
  match run_extraction nearby_api details_api ocm_api OCM_API_KEY
          lat_points lng_points start with
  | (Raise e, _) => (Raise e, w)
  | (Return _, st) =>
      let df_raw := records st in
      match df_raw with
      | [] => (Return "No data extracted", w)
      | _ :: _ =>
          match clean_ev_charger_data df_raw with
          | Raise e => (Raise e, w)
          | Return df =>
              match storage df with
              | Raise e => (Raise e, w)
              | Return _ =>
                  let w := {| client := client w; uploaded := uploaded w ++ [df] |} in
                  match load_to_bigquery_incremental_01 Place_Id df (client w) with
                  | Raise e => (Raise e, w)
                  | Return (load_status, c) =>
                      (Return ("ETL DONE — " ++ load_status)%string,
                       {| client := c; uploaded := uploaded w |})
                  end
              end
          end
      end
  end.

(** [try: result = run_etl() ... except Exception as e: ...] *)
Definition ev_etl (w : World) : Answer * World :=
  match run_etl w with
  | (Return result, w) => (Status_200 result, w)
  | (Raise e, w) => (Status_500 e, w)
  end.

End Option01.

(** What [ocm_extractor] answers: a message with status 500, or the
    summary of a completed run. *)
Inductive Outcome :=
  | Message_500 (message : string)
  | Completed (message : string) (n_records : nat) (csv_saved_to bigquery_table : string).

Section Option02.
Context {Text : Type} `{EqDecision Text}.
Variables MIN_LAT MAX_LAT MIN_LNG MAX_LNG STEP : Q.
Variable add : Q -> Q -> Q.
Variable fetch : nat -> Tiles.Box -> PyResult (option (list (Catalog.POI Text))).
(** The exception, if any, that the frame operations raise between
    [pd.DataFrame(all_poi_data)] and the upload: [KeyError] when none
    of the records supplies a column that they name. *)
Variable reshape_error : list (Catalog.POI Text) -> option string.
(** [upload_to_gcs(df_final, file_name)]: the path of the snapshot,
    unless the storage raises. *)
Variable upload_to_gcs : list (Catalog.Row Text) -> PyResult string.

(** [ocm_extractor]: the key test and the sweep, then the cleaning,
    the snapshot and the sync of what was fetched. *)
Definition ocm_extractor (OCM_API_KEY : option string) (fuel_lng fuel_lat : nat)
    (bq : Client (Catalog.Row Text))
    : option (PyResult Outcome * Client (Catalog.Row Text)) :=
  match Tiles.sweep MIN_LAT MAX_LAT MIN_LNG MAX_LNG STEP add fetch
          OCM_API_KEY fuel_lng fuel_lat with
  | None => None
  | Some (Raise e) => Some (Raise e, bq)
  | Some (Return (inl message)) => Some (Return (Message_500 message), bq)
  | Some (Return (inr s)) =>
      match Tiles.all_poi_data s with
      | [] => Some (Return (Message_500 "No data returned from OCM API"), bq)
      | all_poi_data =>
          match reshape_error all_poi_data with
          | Some e => Some (Raise e, bq)
          | None =>
              let df_final := Catalog.df_final all_poi_data in
              match upload_to_gcs df_final with
              | Raise e => Some (Raise e, bq)
              | Return csv_path =>
                  match load_to_bigquery_incremental_02 Catalog.Place_ID df_final bq with
                  | Raise e => Some (Raise e, bq)
                  | Return (bq_table, bq) =>
                      Some (Return (Completed "OCM EV data extraction completed"
                                      (length df_final) csv_path bq_table), bq)
                  end
              end
          end
      end
  end.

End Option02.

End Functions.

(** ** The address column ([ocm_extractor] and the catalog script)

    Strings are ASCII, as in [PyStr]. *)

Module TextColumns.
Import PyStr.

(** [c in chars] *)
Definition in_chars (chars : string) (c : ascii) : bool :=
  existsb (Ascii.eqb c) (list_ascii_of_string chars).

(** [s.lstrip(chars)], [s.rstrip(chars)] and [s.strip(chars)] *)
Fixpoint lstrip_chars (chars s : string) : string :=
  match s with
  | String c s' => if in_chars chars c then lstrip_chars chars s' else s
  | EmptyString => EmptyString
  end.

Fixpoint rstrip_chars (chars s : string) : string :=
  match s with
  | EmptyString => EmptyString
  | String c s' =>
      match rstrip_chars chars s' with
      | EmptyString => if in_chars chars c then EmptyString else String c EmptyString
      | t => String c t
      end
  end.

Definition strip_chars (chars s : string) : string :=
  rstrip_chars chars (lstrip_chars chars s).

(** The three parts joined: [fillna("")] on each, with [", "] between. *)
Definition joined (line1 town postcode : option string) : string :=
  (default "" line1 ++ ", " ++ default "" town ++ ", " ++ default "" postcode)%string.

(** [df_final["Address"]] *)
Definition Address (line1 town postcode : option string) : string :=
  strip_chars ", " (replace ", ," ", " (joined line1 town postcode)).

(** The characters that the pattern [\s] matches. *)
Definition is_blank (c : ascii) : bool :=
  let n := nat_of_ascii c in
  is_space c || ((28 <=? n)%nat && (n <=? 31)%nat).

(** [fillna("Unknown")], then [replace(r'^\s*$', "Unknown", regex=True)],
    on a text cell. *)
Definition final_text (cell : option string) : string :=
  let s := default "Unknown" cell in
  if all_chars is_blank s then "Unknown" else s.

(** The last character of a string. *)
Fixpoint last_char (s : string) : option ascii :=
  match s with
  | EmptyString => None
  | String c EmptyString => Some c
  | String _ s' => last_char s'
  end.

End TextColumns.

(** ** The power column in [data_cleaning_OCM_GPA.py] *)

Module CleaningScript.
Import PyStr PyNum Reconciler.

(** [[float(p.replace(' kW', '')) for p in x]]: every entry is
    converted. *)
Fixpoint to_floats (x : list string) : PyResult (list Q) :=
  match x with
  | [] => Return []
  | p :: rest =>
      match py_float (replace " kW" "" p) with
      | None => Raise "ValueError"
      | Some v =>
          match to_floats rest with
          | Raise e => Raise e
          | Return out => Return (v :: out)
          end
      end
  end.

(** The [power_list] column of a row whose [ocm_power_kW] is a
    string: [str.split('; ')], then the conversion. *)
Definition power_list (ocm_power_kW : string) : PyResult (list Q) :=
  to_floats (split "; " ocm_power_kW).


End CleaningScript.

(** ** More sample data *)

Module MoreSamples.

(** A site with a 3.7 kW and a 50 kW connector. *)
Definition slow_and_rapid : list Classifier.Connection :=
  [{| Classifier.PowerKW := Some 3.7%Q; Classifier.ConnectionTypeID := None;
      Classifier.CurrentTypeID := None |};
   {| Classifier.PowerKW := Some 50%Q; Classifier.ConnectionTypeID := None;
      Classifier.CurrentTypeID := None |}].

(** A nearby search in two pages, and one whose every page promises
    another. *)
Definition page_reply (entries : list string) (token : option string)
    : Fetch.Reply (PyResult (Pagination.Page string)) :=
  Fetch.Responds
    {| Fetch.status_code := 200; Fetch.Retry_After := None;
       Fetch.json := Return {| Pagination.results := entries;
                               Pagination.next_page_token := token |} |}.

Definition two_pages (n : nat) : Fetch.Reply (PyResult (Pagination.Page string)) :=
  match n with
  | O => page_reply ["a"; "b"] (Some "t1")
  | _ => page_reply ["c"] None
  end.

Definition endless_pages (n : nat) : Fetch.Reply (PyResult (Pagination.Page string)) :=
  page_reply ["a"] (Some "more").

(** The record of a site with four connectors, two of them without a
    usable reading. *)
Definition four_connector_site : Verified.Record_ :=
  {| Verified.r_place_id := "ChIJ-B"; Verified.r_name := Some "Yard";
     Verified.r_address := None; Verified.r_lat := None; Verified.r_lng := None;
     Verified.ocm_connector_types := "Type 2; Unknown; Unknown; CCS";
     Verified.ocm_power_kW := "7.4 kW; Power Unknown; Power Unknown; 50.0 kW";
     Verified.r_types := ""; Verified.r_business_status := None;
     Verified.r_phone_number := None |}.

(** A catalog that answers each box with its number, and skips the
    second one. *)
Definition numbered_boxes (n : nat) (box : Tiles.Box) : PyResult (option (list nat)) :=
  if (n =? 1)%nat then Return None else Return (Some [n]).

(** A catalog that holds one site, in the first box of the run. *)
Definition one_site (n : nat) (box : Tiles.Box)
    : PyResult (option (list (Catalog.POI string))) :=
  if (n =? 0)%nat then Return (Some [Samples.poi_with_power]) else Return None.

(** A nearby search that finds one place, and a details reply for it
    with a null [types]. *)
Definition nearby_one (t : nat) (lat lng : Q) : PyResult (list Verified.Candidate) :=
  Return [{| Verified.place_id := Some "ChIJ-N"; Verified.candidate_lat := None;
             Verified.candidate_lng := None |}].

Definition details_null_types (t : nat) (pid : string)
    : PyResult (option Script.ServedResult) :=
  Return (Some {| Script.served_name := Some "Tesla Supercharger";
                  Script.served_formatted_address := Some "1 High St";
                  Script.served_geometry_lat := Some 51.5%Q;
                  Script.served_geometry_lng := Some (-0.1)%Q;
                  Script.served_types := Reconciler.Null;
                  Script.served_business_status := None;
                  Script.served_formatted_phone_number := None |}).

(** A connector whose type has a null title. *)
Definition untitled : Reconciler.Connection :=
  {| Reconciler.ConnectionType := Reconciler.Present Reconciler.Null;
     Reconciler.PowerKW := Some 50%Q |}.

(** A place that only the address betrays, and one tagged in capitals. *)
Definition by_address : Verified.PlaceResult :=
  {| Verified.name := Some "Car Park"; Verified.formatted_address := Some "5 Devonshire Row";
     Verified.geometry_lat := None; Verified.geometry_lng := None;
     Verified.types := ["parking"]; Verified.business_status := None;
     Verified.formatted_phone_number := None |}.

End MoreSamples.
(** * Properties *)

(** ** Comparisons *)

Lemma Qle_b_iff (x y : Q) : Qle_b x y = true <-> (x <= y)%Q.
Proof. apply Qle_bool_iff. Qed.

Lemma Qlt_b_iff (x y : Q) : Qlt_b x y = true <-> (x < y)%Q.
Proof.
  unfold Qlt_b. rewrite negb_true_iff, <- not_true_iff_false, Qle_bool_iff.
  split; [apply Qnot_le_lt | apply Qlt_not_le].
Qed.

Lemma Qlt_b_false (x y : Q) : Qlt_b x y = false <-> (y <= x)%Q.
Proof. unfold Qlt_b. rewrite negb_false_iff. apply Qle_bool_iff. Qed.

Lemma Qle_b_false (x y : Q) : Qle_b x y = false <-> (y < x)%Q.
Proof.
  unfold Qle_b. rewrite <- not_true_iff_false, Qle_bool_iff.
  split; [apply Qnot_le_lt | apply Qlt_not_le].
Qed.

(** ** Classifier *)

Section ClassifierFacts.
Import Classifier.

Lemma tier_cases (p : Q) :
  ((p < 7)%Q /\ tier p = "Slow")
  \/ ((7 <= p)%Q /\ (p <= 22)%Q /\ tier p = "Fast")
  \/ ((22 < p)%Q /\ tier p = "Rapid").
Proof.
  unfold tier.
  destruct (Qlt_b p 7) eqn:E1.
  - left. split; [by apply Qlt_b_iff | done].
  - apply Qlt_b_false in E1.
    destruct (Qle_b 7 p) eqn:E2; [| apply Qle_b_false in E2; exfalso; by eapply Qlt_not_le].
    destruct (Qle_b p 22) eqn:E3; simpl.
    + right; left. split; [done | split; [by apply Qle_b_iff | done]].
    + right; right. split; [by apply Qle_b_false | done].
Qed.

Lemma assign_loop_map (types : list string) (power_list : list Q) :
  assign_loop types power_list = types ++ map tier power_list.
Proof.
  revert types. induction power_list as [| p rest IH]; intros types; simpl.
  - by rewrite app_nil_r.
  - rewrite IH, <- app_assoc. done.
Qed.

Lemma assign_charging_type_map (power_list : list Q) :
  assign_charging_type power_list = map tier power_list.
Proof. unfold assign_charging_type. by rewrite assign_loop_map. Qed.

Lemma tier_is_name (p : Q) : tier p = "Slow" \/ tier p = "Fast" \/ tier p = "Rapid".
Proof. destruct (tier_cases p) as [[_ ->] | [(_ & _ & ->) | [_ ->]]]; auto. Qed.

Lemma tier_slow_iff (p : Q) : tier p = "Slow" <-> (p < 7)%Q.
Proof.
  destruct (tier_cases p) as [[Hp Ht] | [(Hp1 & Hp2 & Ht) | [Hp Ht]]]; rewrite Ht;
    split; intros; try done; lra.
Qed.

Lemma tier_fast_iff (p : Q) : tier p = "Fast" <-> (7 <= p)%Q /\ (p <= 22)%Q.
Proof.
  destruct (tier_cases p) as [[Hp Ht] | [(Hp1 & Hp2 & Ht) | [Hp Ht]]]; rewrite Ht;
    split; intros; try done; lra.
Qed.

Lemma tier_rapid_iff (p : Q) : tier p = "Rapid" <-> (22 < p)%Q.
Proof.
  destruct (tier_cases p) as [[Hp Ht] | [(Hp1 & Hp2 & Ht) | [Hp Ht]]]; rewrite Ht;
    split; intros; try done; lra.
Qed.

Lemma tier_monotone (p q : Q) :
  (p <= q)%Q -> tier_rank (tier p) <= tier_rank (tier q).
Proof.
  intros Hpq.
  destruct (tier_cases p) as [[Hp Ht] | [(Hp1 & Hp2 & Ht) | [Hp Ht]]]; rewrite Ht;
    destruct (tier_cases q) as [[Hq Hu] | [(Hq1 & Hq2 & Hu) | [Hq Hu]]]; rewrite Hu;
    try (cbv; lia); lra.
Qed.

(** C1. The tier of a reading is Slow below 7 kW, Fast from 7 to 22 kW
    inclusive and Rapid above 22 kW, and in no other case; the boundary
    readings 7 and 22 are Fast, 6.9999 is Slow and 22.0001 is Rapid; a
    larger reading never gets a lower tier; [assign_charging_type]
    applies this tier to every reading of its list, in order. *)
Theorem tier_bands (p q : Q) :
  (tier p = "Slow" <-> (p < 7)%Q)
  /\ (tier p = "Fast" <-> (7 <= p)%Q /\ (p <= 22)%Q)
  /\ (tier p = "Rapid" <-> (22 < p)%Q)
  /\ tier 7 = "Fast" /\ tier 22 = "Fast"
  /\ tier 6.9999 = "Slow" /\ tier 22.0001 = "Rapid"
  /\ ((p <= q)%Q -> tier_rank (tier p) <= tier_rank (tier q))
  /\ (forall power_list : list Q,
        assign_charging_type power_list = map tier power_list).
Proof.
  split; [apply tier_slow_iff |].
  split; [apply tier_fast_iff |].
  split; [apply tier_rapid_iff |].
  do 4 (split; [reflexivity |]).
  split; [apply tier_monotone | apply assign_charging_type_map].
Qed.

(** The bands at the readings 5, 15 and 30 kW. *)
Lemma tier_bands_witness :
  tier 5 = "Slow" /\ tier 15 = "Fast" /\ tier 30 = "Rapid"
  /\ tier_rank (tier 5) <= tier_rank (tier 30).
Proof.
  destruct (tier_bands 5 30) as (H1 & _ & _ & _ & _ & _ & _ & H8 & _).
  destruct (tier_bands 15 15) as (_ & H2 & _).
  destruct (tier_bands 30 30) as (_ & _ & H3 & _).
  split; [apply H1; reflexivity |].
  split; [apply H2; split; discriminate |].
  split; [apply H3; reflexivity |].
  apply H8. discriminate.
Defined.

End ClassifierFacts.

Section AggregateFacts.
Import Classifier.

Lemma py_in_true (x : string) (types : list string) : py_in x types = true <-> x ∈ types.
Proof. unfold py_in. apply bool_decide_eq_true. Qed.

Lemma py_in_false (x : string) (types : list string) : py_in x types = false <-> x ∉ types.
Proof. unfold py_in. apply bool_decide_eq_false. Qed.

Lemma max_charging_type_spec (types : list string) :
  (("Rapid" ∈ types) /\ max_charging_type types = Some "Rapid")
  \/ (("Rapid" ∉ types) /\ ("Fast" ∈ types) /\ max_charging_type types = Some "Fast")
  \/ (("Rapid" ∉ types) /\ ("Fast" ∉ types) /\ ("Slow" ∈ types)
      /\ max_charging_type types = Some "Slow")
  \/ (("Rapid" ∉ types) /\ ("Fast" ∉ types) /\ ("Slow" ∉ types)
      /\ max_charging_type types = None).
Proof.
  unfold max_charging_type.
  destruct (py_in "Rapid" types) eqn:ER;
    [apply py_in_true in ER; by left | apply py_in_false in ER].
  destruct (py_in "Fast" types) eqn:EF;
    [apply py_in_true in EF; right; by left | apply py_in_false in EF].
  destruct (py_in "Slow" types) eqn:ES;
    [apply py_in_true in ES; right; right; by left | apply py_in_false in ES].
  right; right; by right.
Qed.

Lemma max_charging_type_assigned (powers : list Q) :
  max_charging_type (assign_charging_type powers) = None <-> powers = [].
Proof.
  split; [| by intros ->].
  destruct powers as [| p rest]; [done |].
  rewrite assign_charging_type_map. simpl. intros Hnone.
  destruct (max_charging_type_spec (tier p :: map tier rest))
    as [[_ E] | [(_ & _ & E) | [(_ & _ & _ & E) | (HR & HF & HS & _)]]];
    try congruence.
  exfalso. destruct (tier_is_name p) as [E | [E | E]]; rewrite E in *.
  - apply HS. by left.
  - apply HF. by left.
  - apply HR. by left.
Qed.

(** C2. The site tier is Rapid when some connector tier is Rapid,
    otherwise Fast when some is Fast, otherwise Slow when some is Slow,
    otherwise unknown ([np.nan]); over the tiers of a list of readings
    it is unknown exactly for the empty list; and a connection list
    without any known power gets an unknown site tier and the three
    availability flags "No". *)
Theorem site_tier (types : list string) (powers : list Q) (conn_list : list Connection) :
  (("Rapid" ∈ types) -> max_charging_type types = Some "Rapid")
  /\ (("Rapid" ∉ types) -> ("Fast" ∈ types) -> max_charging_type types = Some "Fast")
  /\ (("Rapid" ∉ types) -> ("Fast" ∉ types) -> ("Slow" ∈ types) ->
      max_charging_type types = Some "Slow")
  /\ (("Rapid" ∉ types) -> ("Fast" ∉ types) -> ("Slow" ∉ types) ->
      max_charging_type types = None)
  /\ max_charging_type [] = None
  /\ (max_charging_type (assign_charging_type powers) = None <-> powers = [])
  /\ (known PowerKW conn_list = [] ->
      exists info,
        extract_connections (Some conn_list) = Some info
        /\ Max_Charging_Type info = None
        /\ Rapid_Charge_Available info = "No"
        /\ Fast_Charge_Available info = "No"
        /\ Slow_Charge_Available info = "No").
Proof.
  pose proof (max_charging_type_spec types) as Hspec.
  split; [| split; [| split; [| split; [| split; [| split]]]]].
  - intros HR. destruct Hspec as [[_ E] | [(N & _) | [(N & _) | (N & _)]]]; done.
  - intros HR HF.
    destruct Hspec as [[Y _] | [(_ & _ & E) | [(_ & N & _) | (_ & N & _)]]]; done.
  - intros HR HF HS.
    destruct Hspec as [[Y _] | [(_ & Y & _) | [(_ & _ & _ & E) | (_ & _ & N & _)]]]; done.
  - intros HR HF HS.
    destruct Hspec as [[Y _] | [(_ & Y & _) | [(_ & _ & Y & _) | (_ & _ & _ & E)]]]; done.
  - reflexivity.
  - apply max_charging_type_assigned.
  - intros Hknown. eexists. split; [reflexivity |]. simpl. rewrite Hknown. done.
Qed.

(** A site with a 5 kW and a 30 kW connector, and one whose only
    connector has no power reading. *)
Lemma site_tier_witness :
  max_charging_type ["Slow"; "Rapid"] = Some "Rapid"
  /\ max_charging_type ["Slow"; "Fast"] = Some "Fast"
  /\ max_charging_type ["Slow"] = Some "Slow"
  /\ exists info,
       extract_connections
         (Some [{| PowerKW := None; ConnectionTypeID := Some 25%Z;
                   CurrentTypeID := None |}]) = Some info
       /\ Max_Charging_Type info = None
       /\ Rapid_Charge_Available info = "No"
       /\ Fast_Charge_Available info = "No"
       /\ Slow_Charge_Available info = "No".
Proof.
  destruct (site_tier ["Slow"; "Rapid"] [] []) as (HR & _).
  destruct (site_tier ["Slow"; "Fast"] [] []) as (_ & HF & _).
  destruct (site_tier ["Slow"] [] []) as (_ & _ & HS & _).
  destruct (site_tier [] []
              [{| PowerKW := None; ConnectionTypeID := Some 25%Z; CurrentTypeID := None |}])
    as (_ & _ & _ & _ & _ & _ & HU).
  split; [apply HR; compute_done |].
  split; [apply HF; compute_done |].
  split; [apply HS; compute_done |].
  apply HU. reflexivity.
Defined.

Lemma py_min_le_first (rest : list Q) (first : Q) : (py_min first rest <= first)%Q.
Proof.
  revert first. induction rest as [| e rest IH]; intros first; simpl.
  - apply Qle_refl.
  - unfold py_min in *. simpl. destruct (Qlt_b e first) eqn:E.
    + apply Qlt_b_iff in E. specialize (IH e). lra.
    + apply IH.
Qed.

Lemma py_min_le (rest : list Q) (first x : Q) :
  x ∈ first :: rest -> (py_min first rest <= x)%Q.
Proof.
  revert first. induction rest as [| e rest IH]; intros first Hx.
  - apply list_elem_of_singleton in Hx as ->. apply Qle_refl.
  - unfold py_min in *. simpl. apply elem_of_cons in Hx as [-> | Hx].
    + destruct (Qlt_b e first) eqn:E.
      * apply Qlt_b_iff in E. pose proof (py_min_le_first rest e). unfold py_min in *. lra.
      * apply (py_min_le_first rest first).
    + destruct (Qlt_b e first) eqn:E.
      * apply IH, Hx.
      * apply Qlt_b_false in E. apply elem_of_cons in Hx as [-> | Hx].
        -- pose proof (py_min_le_first rest first). unfold py_min in *. lra.
        -- apply IH. by right.
Qed.

Lemma py_min_elem (rest : list Q) (first : Q) : py_min first rest ∈ first :: rest.
Proof.
  revert first. induction rest as [| e rest IH]; intros first.
  - by left.
  - unfold py_min in *. simpl. destruct (Qlt_b e first).
    + right. apply IH.
    + specialize (IH first). apply elem_of_cons in IH as [-> | IH]; [by left | by do 2 right].
Qed.

Lemma py_max_ge_first (rest : list Q) (first : Q) : (first <= py_max first rest)%Q.
Proof.
  revert first. induction rest as [| e rest IH]; intros first; simpl.
  - apply Qle_refl.
  - unfold py_max in *. simpl. destruct (Qlt_b first e) eqn:E.
    + apply Qlt_b_iff in E. specialize (IH e). lra.
    + apply IH.
Qed.

Lemma py_max_ge (rest : list Q) (first x : Q) :
  x ∈ first :: rest -> (x <= py_max first rest)%Q.
Proof.
  revert first. induction rest as [| e rest IH]; intros first Hx.
  - apply list_elem_of_singleton in Hx as ->. apply Qle_refl.
  - unfold py_max in *. simpl. apply elem_of_cons in Hx as [-> | Hx].
    + destruct (Qlt_b first e) eqn:E.
      * apply Qlt_b_iff in E. pose proof (py_max_ge_first rest e). unfold py_max in *. lra.
      * apply (py_max_ge_first rest first).
    + destruct (Qlt_b first e) eqn:E.
      * apply IH, Hx.
      * apply Qlt_b_false in E. apply elem_of_cons in Hx as [-> | Hx].
        -- pose proof (py_max_ge_first rest first). unfold py_max in *. lra.
        -- apply IH. by right.
Qed.

Lemma py_max_elem (rest : list Q) (first : Q) : py_max first rest ∈ first :: rest.
Proof.
  revert first. induction rest as [| e rest IH]; intros first.
  - by left.
  - unfold py_max in *. simpl. destruct (Qlt_b first e).
    + right. apply IH.
    + specialize (IH first). apply elem_of_cons in IH as [-> | IH]; [by left | by do 2 right].
Qed.

Lemma min_max_power_spec (powers : list Q) :
  (min_power powers = None <-> powers = [])
  /\ (max_power powers = None <-> powers = [])
  /\ (forall a b : Q, min_power powers = Some a -> max_power powers = Some b ->
        (a <= b)%Q /\ a ∈ powers /\ b ∈ powers
        /\ (forall p : Q, p ∈ powers -> (a <= p)%Q /\ (p <= b)%Q)).
Proof.
  destruct powers as [| p rest]; simpl.
  - repeat split; intros; done.
  - split; [split; intros; done |]. split; [split; intros; done |].
    intros a b [= <-] [= <-].
    pose proof (py_min_le_first rest p). pose proof (py_max_ge_first rest p).
    split; [lra |]. split; [apply py_min_elem |]. split; [apply py_max_elem |].
    intros q Hq. split; [by apply py_min_le | by apply py_max_ge].
Qed.

Lemma min_power_clean_eq (x : list Q) : min_power_clean x = min_power x.
Proof. by destruct x. Qed.

Lemma max_power_clean_eq (x : list Q) : max_power_clean x = max_power x.
Proof. by destruct x. Qed.

(** C8. In the dictionary built by [extract_connections] the known-power
    list holds the readings that are not null; the minimum and the
    maximum power are both undefined exactly when that list is empty,
    and otherwise they are readings of the list with minimum <= maximum
    (every reading lies between them).  The cleaning script computes the
    same two values from its power list. *)
Theorem min_max_power_defined (conn_list : list Connection) (x : list Q) :
  (exists info : ConnectionInfo,
      extract_connections (Some conn_list) = Some info
      /\ Power_List info = known PowerKW conn_list
      /\ (Min_Power_kW info = None <-> Power_List info = [])
      /\ (Max_Power_kW info = None <-> Power_List info = [])
      /\ (forall a b : Q,
            Min_Power_kW info = Some a -> Max_Power_kW info = Some b ->
            (a <= b)%Q /\ a ∈ Power_List info /\ b ∈ Power_List info
            /\ (forall p : Q, p ∈ Power_List info -> (a <= p)%Q /\ (p <= b)%Q)))
  /\ (min_power_clean x = None <-> x = [])
  /\ (max_power_clean x = None <-> x = [])
  /\ (forall a b : Q,
        min_power_clean x = Some a -> max_power_clean x = Some b ->
        (a <= b)%Q /\ a ∈ x /\ b ∈ x
        /\ (forall p : Q, p ∈ x -> (a <= p)%Q /\ (p <= b)%Q)).
Proof.
  split.
  - eexists. split; [reflexivity |]. simpl. split; [reflexivity |].
    apply min_max_power_spec.
  - rewrite min_power_clean_eq, max_power_clean_eq. apply min_max_power_spec.
Qed.

(** Three connectors, one of them without a reading: minimum 5,
    maximum 30, and 5 <= 30. *)
Lemma min_max_power_defined_witness :
  (5 <= 30)%Q /\ (7.4 <= 22)%Q.
Proof.
  destruct (min_max_power_defined
              [{| PowerKW := Some 30%Q; ConnectionTypeID := None; CurrentTypeID := None |};
               {| PowerKW := None; ConnectionTypeID := None; CurrentTypeID := None |};
               {| PowerKW := Some 5%Q; ConnectionTypeID := None; CurrentTypeID := None |}]
              [22%Q; 7.4%Q])
    as [(info & Hinfo & _ & _ & _ & Hle) (_ & _ & Hclean)].
  injection Hinfo as <-.
  split; [exact (proj1 (Hle 5%Q 30%Q eq_refl eq_refl))
         | exact (proj1 (Hclean 7.4%Q 22%Q eq_refl eq_refl))].
Defined.

End AggregateFacts.

(** ** De-duplication *)

Section DropDuplicatesFacts.
Import Pandas.
Context {R K : Type} `{EqDecision K}.
Variable key : R -> K.

Lemma existsb_same_on (r : R) (l : list R) :
  existsb (same_on key r) l = true <-> key r ∈ map key l.
Proof.
  rewrite existsb_exists, list_elem_of_fmap. unfold same_on.
  split.
  - intros (x & Hx & E). apply bool_decide_eq_true in E.
    exists x. split; [done | by apply list_elem_of_In].
  - intros (x & E & Hx). exists x.
    split; [by apply list_elem_of_In | by apply bool_decide_eq_true].
Qed.

Lemma filter_key_nil (k : K) (l : list R) :
  k ∉ map key l -> filter (fun r => key r = k) l = [].
Proof.
  induction l as [| r l IH]; [done |]. simpl. intros Hk.
  rewrite filter_cons_False.
  - apply IH. intros Hin. apply Hk. by right.
  - intros E. apply Hk. rewrite <- E. by left.
Qed.

Lemma filter_key_cons (k : K) (l : list R) :
  k ∈ map key l -> exists r rest, filter (fun r => key r = k) l = r :: rest.
Proof.
  induction l as [| r l IH]; simpl; [by intros ?%elem_of_nil |].
  intros Hk. destruct (decide (key r = k)) as [E | N].
  - rewrite filter_cons_True by done. eauto.
  - rewrite filter_cons_False by done. apply IH.
    apply elem_of_cons in Hk as [E | Hk]; [congruence | done].
Qed.

(** With [keep='first'] the survivors with a given key are the first
    row carrying it, unless an earlier row already did. *)
Lemma drop_after_filter (k : K) (earlier df : list R) :
  filter (fun r => key r = k) (drop_after (same_on key) earlier df)
  = if decide (k ∈ map key earlier) then []
    else option_list (head (filter (fun r => key r = k) df)).
Proof.
  revert earlier. induction df as [| r rest IH]; intros earlier; simpl.
  - by case_decide.
  - destruct (existsb (same_on key r) earlier) eqn:E.
    + apply existsb_same_on in E. rewrite IH.
      case_decide as Hk; [done |].
      rewrite filter_cons_False; [done |]. intros <-. by apply Hk.
    + apply not_true_iff_false in E. rewrite existsb_same_on in E.
      destruct (decide (key r = k)) as [Ek | Nk].
      * rewrite !filter_cons_True by done. rewrite IH. subst k.
        rewrite decide_True.
        -- by rewrite decide_False.
        -- rewrite map_app. apply elem_of_app. right. by left.
      * rewrite !filter_cons_False by done. rewrite IH.
        destruct (decide (k ∈ map key earlier)) as [Y | N].
        -- rewrite decide_True; [done |]. rewrite map_app. apply elem_of_app. by left.
        -- rewrite decide_False; [done |]. rewrite map_app.
           intros [Hin | Hin%list_elem_of_singleton]%elem_of_app; [by apply N | by apply Nk].
Qed.

(** With [keep='last'] they are the last row carrying it. *)
Lemma drop_before_filter (k : K) (df : list R) :
  filter (fun r => key r = k) (drop_before (same_on key) df)
  = option_list (last (filter (fun r => key r = k) df)).
Proof.
  induction df as [| r rest IH]; simpl; [done |].
  destruct (existsb (same_on key r) rest) eqn:E.
  - apply existsb_same_on in E. rewrite IH.
    destruct (decide (key r = k)) as [Ek | Nk].
    + rewrite filter_cons_True by done. subst k.
      destruct (filter_key_cons _ _ E) as (x & xs & ->). done.
    + by rewrite filter_cons_False.
  - apply not_true_iff_false in E. rewrite existsb_same_on in E.
    destruct (decide (key r = k)) as [Ek | Nk].
    + rewrite !filter_cons_True by done. rewrite IH. subst k.
      by rewrite filter_key_nil.
    + by rewrite !filter_cons_False.
Qed.

Lemma drop_after_keys (earlier df : list R) (r : R) :
  r ∈ drop_after (same_on key) earlier df -> r ∈ df /\ key r ∉ map key earlier.
Proof.
  revert earlier. induction df as [| x df IH]; intros earlier; simpl;
    [by intros ?%elem_of_nil |].
  destruct (existsb (same_on key x) earlier) eqn:E.
  - intros [Hin Hk]%IH. split; [by right | done].
  - apply not_true_iff_false in E. rewrite existsb_same_on in E.
    intros [-> | [Hin Hk]%IH]%elem_of_cons; [split; [by left | done] |].
    split; [by right |]. intros Hr. apply Hk. rewrite map_app. apply elem_of_app. by left.
Qed.

Lemma drop_after_NoDup (earlier df : list R) :
  NoDup (map key (drop_after (same_on key) earlier df)).
Proof.
  revert earlier. induction df as [| x df IH]; intros earlier; simpl; [constructor |].
  destruct (existsb (same_on key x) earlier); [apply IH |].
  simpl. constructor; [| apply IH].
  intros (r & E & [_ Hk]%drop_after_keys)%list_elem_of_fmap.
  apply Hk. rewrite map_app, <- E. apply elem_of_app. right. by left.
Qed.

Lemma drop_duplicates_filter (keep : Keep) (k : K) (df : list R) :
  filter (fun r => key r = k) (drop_duplicates (same_on key) keep df)
  = option_list
      (match keep with keep_first => head | keep_last => last end
         (filter (fun r => key r = k) df)).
Proof.
  destruct keep; simpl.
  - rewrite drop_after_filter. by rewrite decide_False by apply not_elem_of_nil.
  - apply drop_before_filter.
Qed.

End DropDuplicatesFacts.

Section CatalogRowFacts.
Import Pandas Catalog.
Context {Text : Type} `{EqDecision Text}.

Lemma cell_same_eq {A} (eqb : A -> A -> bool) (x y : Cell A) :
  (forall a b, eqb a b = true <-> a = b) ->
  cell_same eqb x y = true <-> x = y.
Proof.
  intros Heqb. destruct x, y; simpl; rewrite ?Heqb; split; congruence.
Qed.

Lemma cell_same_Q (x y : Cell Q) :
  cell_same Qeq_bool x y = true <-> canon_cell x = canon_cell y.
Proof.
  destruct x as [a |], y as [b |]; simpl; try (split; congruence).
  rewrite Qeq_bool_iff. split.
  - intros E. f_equal. by apply Qred_complete.
  - intros [= E]. by apply Qred_eq_iff.
Qed.

Lemma same_row_canon (a b : Row Text) :
  same_row a b = same_on canon a b.
Proof.
  unfold same_on. apply eq_true_iff_eq.
  rewrite bool_decide_eq_true. unfold same_row.
  rewrite !andb_true_iff, !cell_same_Q, bool_decide_eq_true.
  rewrite !(cell_same_eq String.eqb) by apply String.eqb_eq.
  rewrite (cell_same_eq Z.eqb) by apply Z.eqb_eq.
  rewrite (cell_same_eq Nat.eqb) by apply Nat.eqb_eq.
  destruct a, b; unfold canon; simpl. split.
  - intros ((((((((((-> & ->) & ->) & ->) & ->) & ->) & ->) & ->) & ->) & ->) & ->). done.
  - intros [=]. repeat split; done.
Qed.

Lemma existsb_pointwise {A} (f g : A -> bool) (l : list A) :
  (forall x, f x = g x) -> existsb f l = existsb g l.
Proof. intros E. induction l as [| x l IH]; simpl; [done | by rewrite E, IH]. Qed.

Lemma drop_duplicates_same_row (keep : Keep) (df : list (Row Text)) :
  drop_duplicates same_row keep df = drop_duplicates (same_on (@canon Text)) keep df.
Proof.
  assert (Hafter : forall l earlier : list (Row Text),
             drop_after same_row earlier l = drop_after (same_on canon) earlier l).
  { induction l as [| r l IH]; intros earlier; simpl; [done |].
    rewrite (existsb_pointwise _ (same_on canon r)) by (intros; apply same_row_canon).
    by rewrite !IH. }
  assert (Hbefore : forall l : list (Row Text),
             drop_before same_row l = drop_before (same_on canon) l).
  { induction l as [| r l IH]; simpl; [done |].
    rewrite (existsb_pointwise _ (same_on canon r)) by (intros; apply same_row_canon).
    by rewrite !IH. }
  destruct keep; simpl; auto.
Qed.

End CatalogRowFacts.

Section CleaningFacts.
Import Pandas Verified Cleaning01.

Lemma clean_row_place (r : Record_) (c : Cleaned) :
  clean_row r = Return c -> Place_Id c = r_place_id r.
Proof.
  unfold clean_row. destruct (Reconciler.power_list (ocm_power_kW r)); [| done].
  by intros [= <-].
Qed.

Lemma clean_rows_each (df : list Record_) (cleaned : list Cleaned) :
  clean_rows df = Return cleaned ->
  Forall2 (fun r c => clean_row r = Return c) df cleaned.
Proof.
  revert cleaned. induction df as [| r df IH]; intros cleaned; simpl.
  - intros [= <-]. constructor.
  - destruct (clean_row r) as [c |] eqn:Hc; [| done].
    destruct (clean_rows df) as [cs |]; [| done].
    intros [= <-]. constructor; [done | by apply IH].
Qed.

Lemma clean_rows_places (df : list Record_) (cleaned : list Cleaned) :
  clean_rows df = Return cleaned -> map Place_Id cleaned = map r_place_id df.
Proof.
  intros Hall%clean_rows_each. induction Hall as [| r c df cs Hc _ IH]; [done |].
  simpl. by rewrite IH, (clean_row_place r c).
Qed.

Lemma NoDup_map_filter {A B} (f : A -> B) (P : A -> Prop) `{forall x, Decision (P x)}
    (l : list A) :
  NoDup (map f l) -> NoDup (map f (filter P l)).
Proof.
  induction l as [| x l IH]; [done |]. simpl. intros [Hx Hl]%NoDup_cons.
  destruct (decide (P x)).
  - rewrite filter_cons_True by done. simpl. constructor; [| by apply IH].
    intros (y & E & [_ Hy]%list_elem_of_filter)%list_elem_of_fmap.
    apply Hx, list_elem_of_fmap. by exists y.
  - rewrite filter_cons_False by done. by apply IH.
Qed.

(** Every cleaned row of Option 01 is the cleaning of the first record
    of its place, and no two cleaned rows share a place. *)
Lemma clean_ev_charger_data_first (df : list Record_) (cleaned : list Cleaned) :
  clean_ev_charger_data df = Return cleaned ->
  NoDup (map Place_Id cleaned)
  /\ forall c : Cleaned, c ∈ cleaned ->
       exists r : Record_,
         head (filter (fun x => r_place_id x = Place_Id c) df) = Some r
         /\ clean_row r = Return c.
Proof.
  unfold clean_ev_charger_data. intros Hclean. split.
  - rewrite (clean_rows_places _ _ Hclean). apply NoDup_map_filter.
    apply (drop_after_NoDup r_place_id).
  - intros c Hc. apply clean_rows_each in Hclean.
    destruct (proj1 (list_elem_of_lookup _ _) Hc) as (i & Hi).
    destruct (Forall2_lookup_r _ _ _ _ _ Hclean Hi) as (r & Hr & Hrc).
    exists r. split; [| done].
    apply list_elem_of_lookup_2, list_elem_of_filter in Hr as [_ Hr].
    assert (Hin : r ∈ filter (fun x => r_place_id x = Place_Id c)
                         (drop_duplicate_places df)).
    { apply list_elem_of_filter. split; [| done]. symmetry. by apply clean_row_place. }
    unfold drop_duplicate_places in Hin.
    rewrite (drop_duplicates_filter r_place_id keep_first) in Hin.
    destruct (head _) as [r' |]; simpl in Hin; [| by apply elem_of_nil in Hin].
    by apply list_elem_of_singleton in Hin as ->.
Qed.

End CleaningFacts.

Section DeduplicationProperties.
Import Pandas Verified Cleaning01 Catalog Samples.

(** C3 (as the code has it).  De-duplication keeps one row per key, and
    which one depends on the variant.  Cloud Function Option 01 compares
    [place_id] and keeps the first record seen: for every place_id the
    survivors with that place_id are exactly the first record of the
    batch carrying it, and every row of the cleaned frame is the
    cleaning of the first record of its place.  Cloud Function Option 02
    compares whole exported rows and keeps the last: of the rows equal
    to a given row in every column exactly the last one survives (rows
    that share a Place_ID and differ elsewhere are not duplicates of
    each other).  In general [drop_duplicates] on a key keeps, per key
    value, the first or the last row according to [keep]; the cleaning
    script uses it on whole rows with [keep='first']. *)
Theorem deduplication_keeps_one_row_per_key :
  (forall (df : list Record_) (pid : string),
      filter (fun r => r_place_id r = pid) (drop_duplicate_places df)
      = option_list (head (filter (fun r => r_place_id r = pid) df)))
  /\ (forall (df : list Record_) (cleaned : list Cleaned),
      clean_ev_charger_data df = Return cleaned ->
      NoDup (map Place_Id cleaned)
      /\ forall c : Cleaned, c ∈ cleaned ->
           exists r : Record_,
             head (filter (fun x => r_place_id x = Place_Id c) df) = Some r
             /\ clean_row r = Return c)
  /\ (forall (Text : Type) (dec : EqDecision Text) (df : list (Row Text)) (r : Row Text),
      filter (fun x => canon x = canon r) (drop_duplicates same_row keep_last df)
      = option_list (last (filter (fun x => canon x = canon r) df)))
  /\ (forall (R K : Type) (dec : EqDecision K) (key : R -> K)
             (keep : Keep) (df : list R) (k : K),
      filter (fun r => key r = k) (drop_duplicates (same_on key) keep df)
      = option_list
          (match keep with keep_first => head | keep_last => last end
             (filter (fun r => key r = k) df))).
Proof.
  split; [| split; [| split]].
  - intros df pid. unfold drop_duplicate_places.
    apply (drop_duplicates_filter r_place_id keep_first).
  - apply clean_ev_charger_data_first.
  - intros Text dec df r. rewrite drop_duplicates_same_row.
    apply (drop_duplicates_filter canon keep_last).
  - intros R K dec key keep df k. apply drop_duplicates_filter.
Qed.

(** Two records of one place: the cleaned frame holds the cleaning of
    the first. *)
Lemma deduplication_keeps_one_row_per_key_witness :
  exists (cleaned : list Cleaned) (c : Cleaned),
    clean_ev_charger_data [first_seen; last_seen] = Return cleaned
    /\ cleaned = [c]
    /\ exists r : Record_,
         head (filter (fun x => r_place_id x = Place_Id c) [first_seen; last_seen])
           = Some r
         /\ clean_row r = Return c.
Proof.
  destruct (clean_ev_charger_data [first_seen; last_seen]) as [cleaned |] eqn:E;
    [| by vm_compute in E].
  destruct deduplication_keeps_one_row_per_key as (_ & Hfirst & _).
  destruct (Hfirst _ _ E) as [_ Heach].
  pose proof E as E'. vm_compute in E'. injection E' as E'.
  destruct cleaned as [| c [| c' rest]]; try discriminate E'.
  exists [c], c. split; [done |]. split; [done |].
  apply Heach. by left.
Defined.

(** Against last-write-wins by place: of two records of one place,
    Option 01 keeps the first, not the last; and Option 02 keeps two
    rows that share a Place_ID when they differ in another column, as
    when two tiles return one POI before and after an update. *)
Lemma last_write_wins_counterexample :
  last (filter (fun r => r_place_id r = "ChIJ-A") [first_seen; last_seen])
    = Some last_seen
  /\ filter (fun r => r_place_id r = "ChIJ-A")
       (drop_duplicate_places [first_seen; last_seen]) = [first_seen]
  /\ first_seen <> last_seen
  /\ Place_ID row_old = Place_ID row_new
  /\ drop_duplicates same_row keep_last [row_old; row_new] = [row_old; row_new]
  /\ map Place_ID (df_final [poi_with_power; poi_upgraded])
     = [Value 1001%Z; Value 1001%Z].
Proof.
  split; [reflexivity |]. split; [reflexivity |].
  split; [discriminate |]. split; [reflexivity |]. split; reflexivity.
Qed.

End DeduplicationProperties.

(** ** Incremental sync *)

Section SyncFacts.
Import Pandas BigQuery Sync.
Context {Row K : Type} `{Countable K}.
Variable Place_Id : Row -> K.

Lemma filter_set_list (l : list K) (df : list Row) :
  filter (fun r => Place_Id r ∉ (list_to_set l : gset K)) df
  = not_isin Place_Id l df.
Proof.
  unfold not_isin. apply list_filter_iff. intros r.
  by rewrite elem_of_list_to_set.
Qed.

Lemma not_isin_nil (l : list K) (df : list Row) :
  (forall r, r ∈ df -> Place_Id r ∈ l) -> not_isin Place_Id l df = [].
Proof.
  intros Hall. unfold not_isin. induction df as [| r df IH]; [done |].
  rewrite filter_cons_False.
  - apply IH. intros x Hx. apply Hall. by right.
  - intros Hnot. apply Hnot, Hall. by left.
Qed.

Lemma not_isin_after_append (rows df : list Row) :
  not_isin Place_Id
    (map Place_Id (rows ++ not_isin Place_Id (map Place_Id rows) df)) df = [].
Proof.
  apply not_isin_nil. intros r Hr. rewrite map_app. apply elem_of_app.
  destruct (decide (Place_Id r ∈ map Place_Id rows)) as [Y | N]; [by left | right].
  apply list_elem_of_fmap. exists r. split; [done |].
  unfold not_isin. by apply list_elem_of_filter.
Qed.

Lemma not_isin_self (df : list Row) : not_isin Place_Id (map Place_Id df) df = [].
Proof.
  apply not_isin_nil. intros r Hr. apply list_elem_of_fmap. by exists r.
Qed.

(** What the Option 01 loader does to an existing table. *)
Lemma load_01_existing (df rows : list Row) (client : Client Row) :
  table client = Some rows ->
  load_to_bigquery_incremental_01 Place_Id df client
  = match not_isin Place_Id (map Place_Id rows) df with
    | [] => Return ("No new data", print No_new_records_to_append client)
    | df_new =>
        Return ("OK",
                print (Records_loaded (length df_new))
                  {| table := Some (rows ++ df_new);
                     jobs := jobs client ++ [(WRITE_APPEND, df_new)];
                     printed := printed client |})
    end.
Proof.
  intros Ht. unfold load_to_bigquery_incremental_01, get_table.
  rewrite Ht. simpl. rewrite Ht. rewrite filter_set_list.
  by destruct (not_isin Place_Id (map Place_Id rows) df) eqn:E.
Qed.

Lemma load_02_existing (df rows : list Row) (client : Client Row) :
  table client = Some rows ->
  load_to_bigquery_incremental_02 Place_Id df client
  = match not_isin Place_Id (map Place_Id rows) df with
    | [] => Return (table_id_02, print No_new_records_to_append client)
    | df_new =>
        Return (table_id_02,
                print (Records_loaded (length df_new))
                  {| table := Some (rows ++ df_new);
                     jobs := jobs client ++ [(WRITE_APPEND, df_new)];
                     printed := printed client |})
    end.
Proof.
  intros Ht. unfold load_to_bigquery_incremental_02, get_table.
  rewrite Ht. simpl. rewrite Ht.
  by destruct (not_isin Place_Id (map Place_Id rows) df) eqn:E.
Qed.

(** ... and when the table does not exist yet. *)
Lemma load_01_missing (df : list Row) (client : Client Row) :
  table client = None ->
  load_to_bigquery_incremental_01 Place_Id df client
  = Return ("OK",
            print (Records_loaded (length df))
              {| table := Some df;
                 jobs := jobs client ++ [(WRITE_EMPTY, df)];
                 printed := printed client ++ [Table_not_found] |}).
Proof.
  intros Ht. unfold load_to_bigquery_incremental_01, get_table.
  rewrite Ht. simpl. by rewrite Ht.
Qed.

Lemma load_02_missing (df : list Row) (client : Client Row) :
  table client = None ->
  load_to_bigquery_incremental_02 Place_Id df client
  = Return (table_id_02,
            print (Records_loaded (length df))
              {| table := Some df;
                 jobs := jobs client ++ [(WRITE_EMPTY, df)];
                 printed := printed client ++ [Table_not_found] |}).
Proof.
  intros Ht. unfold load_to_bigquery_incremental_02, get_table.
  rewrite Ht. simpl. by rewrite Ht.
Qed.

End SyncFacts.

Section SyncProperties.
Import Pandas BigQuery Sync.

(** C4. Against an existing table the sync appends exactly the records
    of the batch whose key is not among the keys read from the table, in
    batch order; when there is none it performs no load job, leaves the
    table as it is and returns normally ("No new data" in Option 01, the
    table id in Option 02, after printing that there is nothing to
    append). *)
Theorem incremental_sync_appends_new_keys
    (Row K : Type) (eqK : EqDecision K) (cntK : Countable K) (Place_Id : Row -> K)
    (df rows : list Row) (client : Client Row) :
  table client = Some rows ->
  let df_new := not_isin Place_Id (map Place_Id rows) df in
  let appended :=
    print (Records_loaded (length df_new))
      {| table := Some (rows ++ df_new);
         jobs := jobs client ++ [(WRITE_APPEND, df_new)];
         printed := printed client |} in
  (forall r : Row, r ∈ df_new <-> r ∈ df /\ Place_Id r ∉ map Place_Id rows)
  /\ (df_new <> [] ->
      load_to_bigquery_incremental_01 Place_Id df client = Return ("OK", appended)
      /\ load_to_bigquery_incremental_02 Place_Id df client
         = Return (table_id_02, appended))
  /\ (df_new = [] ->
      load_to_bigquery_incremental_01 Place_Id df client
        = Return ("No new data", print No_new_records_to_append client)
      /\ load_to_bigquery_incremental_02 Place_Id df client
         = Return (table_id_02, print No_new_records_to_append client)).
Proof.
  intros Ht df_new appended. split; [| split].
  - intros r. unfold df_new, not_isin. rewrite list_elem_of_filter. tauto.
  - intros Hne. rewrite (load_01_existing _ _ rows), (load_02_existing _ _ rows) by done.
    fold df_new. subst appended. by destruct df_new.
  - intros Hnil. rewrite (load_01_existing _ _ rows), (load_02_existing _ _ rows) by done.
    fold df_new. by rewrite Hnil.
Qed.

(** A table holding place 1, a batch with places 1 and 2: place 2 is
    appended; with the batch holding place 1 only, nothing is. *)
Lemma incremental_sync_appends_new_keys_witness :
  load_to_bigquery_incremental_01 (fun r : Z => r) [1%Z; 2%Z]
    {| table := Some [1%Z]; jobs := []; printed := [] |}
  = Return ("OK", {| table := Some [1%Z; 2%Z];
                     jobs := [(WRITE_APPEND, [2%Z])];
                     printed := [Records_loaded 1] |})
  /\ load_to_bigquery_incremental_01 (fun r : Z => r) [1%Z]
       {| table := Some [1%Z]; jobs := []; printed := [] |}
     = Return ("No new data", {| table := Some [1%Z]; jobs := [];
                                 printed := [No_new_records_to_append] |}).
Proof.
  pose proof (incremental_sync_appends_new_keys Z Z _ _ (fun r => r) [1%Z; 2%Z] [1%Z]
                {| table := Some [1%Z]; jobs := []; printed := [] |} eq_refl) as H1.
  pose proof (incremental_sync_appends_new_keys Z Z _ _ (fun r => r) [1%Z] [1%Z]
                {| table := Some [1%Z]; jobs := []; printed := [] |} eq_refl) as H2.
  cbv zeta in H1, H2.
  destruct H1 as (_ & H1 & _). destruct H2 as (_ & _ & H2).
  split.
  - refine (proj1 (H1 _)). discriminate.
  - exact (proj1 (H2 eq_refl)).
Defined.

(** C7. Running the sync a second time with the same batch, the
    destination changed by nothing but the first run, appends nothing:
    the second run performs no load job and leaves the table as the
    first run left it, whether or not the table existed before. *)
Theorem sync_twice_appends_nothing
    (Row K : Type) (eqK : EqDecision K) (cntK : Countable K) (Place_Id : Row -> K)
    (df : list Row) (client : Client Row) :
  (exists (status : string) (after : Client Row),
      load_to_bigquery_incremental_01 Place_Id df client = Return (status, after)
      /\ load_to_bigquery_incremental_01 Place_Id df after
         = Return ("No new data", print No_new_records_to_append after)
      /\ table (print No_new_records_to_append after) = table after
      /\ jobs (print No_new_records_to_append after) = jobs after)
  /\ (exists (status : string) (after : Client Row),
      load_to_bigquery_incremental_02 Place_Id df client = Return (status, after)
      /\ load_to_bigquery_incremental_02 Place_Id df after
         = Return (table_id_02, print No_new_records_to_append after)
      /\ table (print No_new_records_to_append after) = table after
      /\ jobs (print No_new_records_to_append after) = jobs after).
Proof.
  destruct (table client) as [rows |] eqn:Ht.
  - rewrite (load_01_existing _ _ rows), (load_02_existing _ _ rows) by done.
    destruct (not_isin Place_Id (map Place_Id rows) df) as [| r l] eqn:E.
    + split; eexists _, _; (split; [reflexivity |]); (split; [| done]).
      * rewrite (load_01_existing _ _ rows) by done. by rewrite E.
      * rewrite (load_02_existing _ _ rows) by done. by rewrite E.
    + split; eexists _, _; (split; [reflexivity |]); (split; [| done]).
      * rewrite (load_01_existing _ _ (rows ++ r :: l)) by done.
        by rewrite <- E, not_isin_after_append.
      * rewrite (load_02_existing _ _ (rows ++ r :: l)) by done.
        by rewrite <- E, not_isin_after_append.
  - rewrite load_01_missing, load_02_missing by done.
    split; eexists _, _; (split; [reflexivity |]); (split; [| done]).
    + rewrite (load_01_existing _ _ df) by done. by rewrite not_isin_self.
    + rewrite (load_02_existing _ _ df) by done. by rewrite not_isin_self.
Qed.

End SyncProperties.

(** ** Rate-limited fetch *)

Section SafeGetFacts.
Import PyStr Fetch.
Context {Body : Type}.
Variable longest_sleep : nat -> Z.
Variable network : nat -> Reply Body.
Variable max_retries : nat.

Lemma sleep_accepted (secs : Z) (e : Effort) :
  (0 <= secs)%Z ->
  (secs <= sleep_limit)%Z ->
  (secs <= longest_sleep (length (slept e)))%Z ->
  sleep longest_sleep secs e
  = Return {| requests := requests e; slept := slept e ++ [secs] |}.
Proof.
  intros Hs Hlimit Hclock. unfold sleep.
  rewrite (proj2 (Z.ltb_ge sleep_limit (Z.abs secs))) by lia.
  rewrite (proj2 (Z.ltb_ge secs 0)) by done.
  by rewrite (proj2 (Z.ltb_ge (longest_sleep (length (slept e))) secs)).
Qed.

Lemma power_of_two_nonneg (retry : nat) : (0 <= 2 ^ Z.of_nat retry)%Z.
Proof. apply Z.pow_nonneg. lia. Qed.

(** One failed attempt: the loop sleeps for [backoff] and goes on. *)
Lemma loop_failed (fuel retry : nat) (e : Effort) :
  retry < max_retries ->
  requests e = retry ->
  length (slept e) = retry ->
  delay_readable (network retry) ->
  wait_accepted longest_sleep network retry ->
  failed (network retry) = true ->
  safe_get_loop longest_sleep network max_retries (S fuel) retry e
  = safe_get_loop longest_sleep network max_retries fuel (retry + 1)
      {| requests := S retry; slept := slept e ++ [backoff network retry] |}.
Proof.
  intros Hlt Hreq Hlen Hread [Hlimit Hclock] Hfail. simpl.
  rewrite (proj2 (Nat.ltb_lt retry max_retries)) by done.
  rewrite Hreq. unfold backoff, failed, delay_readable in *.
  destruct (network retry) as [| response].
  - rewrite sleep_accepted
      by (try apply power_of_two_nonneg; simpl; by rewrite ?Hlen).
    simpl. by rewrite Hreq.
  - destruct (status_code response =? 429)%Z eqn:E429.
    + apply Z.eqb_eq in E429. specialize (Hread E429). unfold wait_time_429.
      destruct (Retry_After response) as [[| c s] |].
      * rewrite sleep_accepted
          by (try apply power_of_two_nonneg; simpl; by rewrite ?Hreq, ?Hlen).
        simpl. by rewrite Hreq.
      * destruct Hread as (n & Hint & Hn). rewrite Hint in *. simpl in *.
        rewrite sleep_accepted by (simpl; by rewrite ?Hreq, ?Hlen).
        simpl. by rewrite Hreq.
      * rewrite sleep_accepted
          by (try apply power_of_two_nonneg; simpl; by rewrite ?Hreq, ?Hlen).
        simpl. by rewrite Hreq.
    + simpl in Hfail. rewrite Hfail.
      rewrite sleep_accepted
        by (try apply power_of_two_nonneg; simpl; by rewrite ?Hreq, ?Hlen).
      simpl. by rewrite Hreq.
Qed.

(** A successful attempt: the loop returns the response. *)
Lemma loop_succeeded (fuel retry : nat) (e : Effort) (response : Response Body) :
  retry < max_retries ->
  requests e = retry ->
  network retry = Responds response ->
  failed (network retry) = false ->
  safe_get_loop longest_sleep network max_retries (S fuel) retry e
  = Some (Return (Some response), {| requests := S retry; slept := slept e |}).
Proof.
  intros Hlt Hreq Hnet Hok. simpl.
  rewrite (proj2 (Nat.ltb_lt retry max_retries)) by done.
  rewrite Hreq, Hnet. rewrite Hnet in Hok. simpl in Hok.
  apply orb_false_iff in Hok as [-> ->]. unfold request_made. by rewrite Hreq.
Qed.

Lemma loop_exhausted (fuel : nat) (e : Effort) :
  safe_get_loop longest_sleep network max_retries (S fuel) max_retries e
  = Some (Return None, e).
Proof. simpl. by rewrite Nat.ltb_irrefl. Qed.

Lemma loop_spec (k retry : nat) (e : Effort) :
  retry + k = max_retries ->
  requests e = retry ->
  length (slept e) = retry ->
  (forall n, retry <= n < max_retries -> delay_readable (network n)) ->
  (forall n, retry <= n < max_retries ->
             failed (network n) = true -> wait_accepted longest_sleep network n) ->
  exists (r : option (Response Body)) (failures : nat),
    retry <= failures <= max_retries
    /\ safe_get_loop longest_sleep network max_retries (S k) retry e
       = Some (Return r,
               {| requests := match r with Some _ => S failures | None => failures end;
                  slept := slept e ++ map (backoff network) (seq retry (failures - retry)) |})
    /\ (forall n, retry <= n < failures -> failed (network n) = true)
    /\ match r with
       | None => failures = max_retries
       | Some response =>
           failures < max_retries
           /\ network failures = Responds response
           /\ failed (network failures) = false
       end.
Proof.
  revert retry e. induction k as [| k IH]; intros retry e Hk Hreq Hlen Hread Hwait.
  - assert (retry = max_retries) as -> by lia.
    exists None, max_retries. split; [lia |]. split.
    + rewrite loop_exhausted, Nat.sub_diag. simpl. rewrite app_nil_r.
      destruct e; simpl in *. by subst.
    + split; [intros; lia | done].
  - assert (Hlt : retry < max_retries) by lia.
    destruct (failed (network retry)) eqn:Hfail.
    + rewrite loop_failed by (try done; (apply Hread || apply Hwait); (lia || done)).
      destruct (IH (retry + 1)
                  {| requests := S retry; slept := slept e ++ [backoff network retry] |})
        as (r & failures & Hrange & Hloop & Hfailed & Hr);
        [lia | simpl; lia | simpl; rewrite length_app; simpl; lia
        | intros; apply Hread; lia | intros; apply Hwait; (lia || done) |].
      exists r, failures. split; [lia |]. split.
      * rewrite Hloop. simpl. rewrite <- app_assoc. simpl.
        replace (failures - retry) with (S (failures - (retry + 1))) by lia.
        simpl. by rewrite Nat.add_1_r.
      * split; [| done]. intros n Hn.
        destruct (decide (n = retry)) as [-> | Hne]; [done | apply Hfailed; lia].
    + destruct (network retry) as [| response] eqn:Hnet; [done |].
      exists (Some response), retry. split; [lia |]. split.
      * rewrite (loop_succeeded _ _ _ response) by (try done; by rewrite Hnet).
        rewrite Nat.sub_diag. simpl. by rewrite app_nil_r.
      * split; [intros; lia |]. by rewrite Hnet.
Qed.

End SafeGetFacts.

Section SafeGetProperties.
Import PyStr Fetch Samples.

(** C5 (as the code has it).  When every throttled reply carries no
    [Retry-After], an empty one, or one that reads as a non-negative
    integer, and [time.sleep] accepts the wait after every failed
    attempt (as it does for the waits of 1 to 16 seconds of the default
    bound), [safe_get] returns without raising after at most
    [max_retries] requests (5 by default).  It sleeps after each failed
    attempt, for the provider's delay on a 429 that supplies one and for
    two to the power of the attempt index otherwise.  It returns the
    first response that is neither throttled nor an error; it returns
    the skip value [None] exactly when the first [max_retries] attempts
    all fail, that is after the fifth consecutive failure, and no
    further request is made. *)
Theorem safe_get_bounded_retries
    (Body : Type) (longest_sleep : nat -> Z) (network : nat -> Reply Body)
    (max_retries : nat) :
  (forall n : nat, n < max_retries -> delay_readable (network n)) ->
  (forall n : nat, n < max_retries ->
                   failed (network n) = true -> wait_accepted longest_sleep network n) ->
  exists (r : option (Response Body)) (e : Effort) (failures : nat),
    safe_get longest_sleep network max_retries = Some (Return r, e)
    /\ requests e <= max_retries
    /\ slept e = map (backoff network) (seq 0 failures)
    /\ (forall n : nat, n < failures -> failed (network n) = true)
    /\ match r with
       | None => failures = max_retries /\ requests e = max_retries
       | Some response =>
           failures < max_retries
           /\ requests e = S failures
           /\ network failures = Responds response
           /\ failed (network failures) = false
       end.
Proof.
  intros Hread Hwait.
  destruct (loop_spec longest_sleep network max_retries max_retries 0
              {| requests := 0; slept := [] |})
    as (r & failures & Hrange & Hloop & Hfailed & Hr);
    [lia | done | done | intros; apply Hread; lia | intros; apply Hwait; (lia || done) |].
  rewrite Nat.sub_0_r in Hloop. simpl in Hloop.
  eexists r, _, failures. split; [exact Hloop |]. simpl.
  split; [destruct r; [destruct Hr |]; lia |].
  split; [done |].
  split; [intros; apply Hfailed; lia |].
  destruct r; [destruct Hr as (? & ? & ?) |]; done.
Qed.

(** Two throttled replies asking for 3 seconds, then an answer. *)
Lemma safe_get_bounded_retries_witness :
  (forall n : nat, n < 5 -> delay_readable (throttled_twice n))
  /\ (forall n : nat, n < 5 ->
                      failed (throttled_twice n) = true ->
                      wait_accepted young_clock throttled_twice n)
  /\ exists (r : option (Response unit)) (e : Effort) (failures : nat),
       safe_get young_clock throttled_twice 5 = Some (Return r, e)
       /\ requests e <= 5
       /\ slept e = map (backoff throttled_twice) (seq 0 failures)
       /\ (forall n : nat, n < failures -> failed (throttled_twice n) = true)
       /\ match r with
          | None => failures = 5 /\ requests e = 5
          | Some response =>
              failures < 5
              /\ requests e = S failures
              /\ throttled_twice failures = Responds response
              /\ failed (throttled_twice failures) = false
          end.
Proof.
  assert (Hread : forall n : nat, n < 5 -> delay_readable (throttled_twice n)).
  { intros n Hn. do 2 (destruct n as [| n]; [intros _; exists 3%Z; split; [reflexivity | lia] |]).
    intros E. discriminate E. }
  assert (Hwait : forall n : nat, n < 5 ->
                                  failed (throttled_twice n) = true ->
                                  wait_accepted young_clock throttled_twice n).
  { intros n Hn. do 2 (destruct n as [| n]; [intros _; by split |]).
    intros E. discriminate E. }
  split; [exact Hread |]. split; [exact Hwait |].
  exact (safe_get_bounded_retries unit young_clock throttled_twice 5 Hread Hwait).
Defined.

(** Against the sixth failure and against "never raises": after five
    failed attempts [safe_get] gives up, although the sixth request
    would have been answered; a throttled reply whose [Retry-After] is
    a date makes it raise [ValueError], and one that asks for more
    seconds than [time.sleep] can convert makes it raise
    [OverflowError]. *)
Lemma sixth_failure_counterexample :
  safe_get young_clock five_failures_then_answer 5
    = Some (Return None, {| requests := 5; slept := [1; 2; 4; 8; 16]%Z |})
  /\ five_failures_then_answer 5 = Responds answer
  /\ failed (Responds answer) = false
  /\ safe_get young_clock throttled_until_date 5
     = Some (Raise "ValueError", {| requests := 1; slept := [] |})
  /\ safe_get young_clock throttled_for_ages 5
     = Some (Raise "OverflowError", {| requests := 1; slept := [] |}).
Proof. repeat split; reflexivity. Qed.

End SafeGetProperties.

(** ** Catalog variants *)

Section CatalogFacts.
Import Pandas Classifier Catalog BigQuery Sync.
Context {Text : Type} `{EqDecision Text}.

Lemma drop_after_subseteq {R} (same : R -> R -> bool) (earlier df : list R) (r : R) :
  r ∈ drop_after same earlier df -> r ∈ df.
Proof.
  revert earlier. induction df as [| x df IH]; intros earlier; simpl; [done |].
  destruct (existsb (same x) earlier).
  - intros Hr. right. by eapply IH.
  - intros [-> | Hr]%elem_of_cons; [by left | right; by eapply IH].
Qed.

Lemma drop_before_subseteq {R} (same : R -> R -> bool) (df : list R) (r : R) :
  r ∈ drop_before same df -> r ∈ df.
Proof.
  induction df as [| x df IH]; simpl; [done |].
  destruct (existsb (same x) df).
  - intros Hr. right. by apply IH.
  - intros [-> | Hr]%elem_of_cons; [by left | right; by apply IH].
Qed.

Lemma drop_duplicates_subseteq {R} (same : R -> R -> bool) (keep : Keep)
    (df : list R) (r : R) :
  r ∈ drop_duplicates same keep df -> r ∈ df.
Proof.
  destruct keep; simpl; [apply drop_after_subseteq | apply drop_before_subseteq].
Qed.

Lemma max_charging_type_known (powers : list Q) :
  powers <> [] ->
  exists t : string,
    max_charging_type (assign_charging_type powers) = Some t
    /\ t ∈ ["Rapid"; "Fast"; "Slow"].
Proof.
  intros Hne.
  destruct (max_charging_type_spec (assign_charging_type powers))
    as [[_ E] | [(_ & _ & E) | [(_ & _ & _ & E) | (_ & _ & _ & E)]]].
  - exists "Rapid". split; [done | set_solver].
  - exists "Fast". split; [done | set_solver].
  - exists "Slow". split; [done | set_solver].
  - by apply max_charging_type_assigned in E.
Qed.

(** The rows that survive [dropna]. *)
Lemma complete_spec (p : POI Text) :
  complete (widen p) = true <->
  exists (conn_list : list Connection) (lat lng : Q),
    Connections p = Some conn_list
    /\ known PowerKW conn_list <> []
    /\ Address_Latitude p = Some lat
    /\ Address_Longitude p = Some lng.
Proof.
  unfold complete, widen. simpl.
  destruct (Connections p) as [conn_list |]; simpl.
  - destruct (known PowerKW conn_list) as [| q rest] eqn:Hknown; simpl.
    + split; [done | intros (? & ? & ? & [= <-] & Hne & _); by rewrite Hknown in Hne].
    + destruct (Address_Latitude p) as [lat |]; simpl;
        [| split; [done | by intros (? & ? & ? & _ & _ & ? & _)]].
      destruct (Address_Longitude p) as [lng |]; simpl;
        [| split; [done | by intros (? & ? & ? & _ & _ & _ & ?)]].
      split; [| done]. intros _. exists conn_list, lat, lng.
      by rewrite Hknown.
  - split; [done | by intros (? & ? & ? & ? & _)].
Qed.

Lemma df_export_rows (all_poi_data : list (POI Text)) (row : Row Text) :
  row ∈ df_export all_poi_data <->
  exists p : POI Text,
    p ∈ all_poi_data /\ complete (widen p) = true /\ row = export (widen p).
Proof.
  unfold df_export. rewrite list_elem_of_fmap. split.
  - intros (w & -> & Hw). apply list_elem_of_filter in Hw as [Hc Hw].
    apply list_elem_of_fmap in Hw as (p & -> & Hp). by exists p.
  - intros (p & Hp & Hc & ->). exists (widen p). split; [done |].
    apply list_elem_of_filter. split; [done |]. apply list_elem_of_fmap. by exists p.
Qed.

Lemma export_complete (p : POI Text) :
  complete (widen p) = true -> row_defined (export (widen p)).
Proof.
  intros (conn_list & lat & lng & Hc & Hknown & Hlat & Hlng)%complete_spec.
  destruct (max_charging_type_known _ Hknown) as (t & Ht & Hname).
  unfold row_defined, export, widen. simpl. rewrite Hc, Hlat, Hlng. simpl.
  destruct (known PowerKW conn_list) as [| q rest] eqn:E; [done |].
  simpl. rewrite Ht. simpl. by eexists _, _, _, _, _, _.
Qed.

Lemma df_export_defined (all_poi_data : list (POI Text)) (row : Row Text) :
  row ∈ df_export all_poi_data -> row_defined row.
Proof. intros (p & _ & Hc & ->)%df_export_rows. by apply export_complete. Qed.

Lemma df_final_defined (all_poi_data : list (POI Text)) (row : Row Text) :
  row ∈ df_final all_poi_data -> row_defined row.
Proof.
  unfold df_final. intros Hrow%drop_duplicates_subseteq.
  by eapply df_export_defined.
Qed.

Lemma no_known_power_incomplete (p : POI Text) :
  no_known_power p -> complete (widen p) = false.
Proof.
  intros Hno. apply not_true_iff_false.
  intros (conn_list & lat & lng & Hc & Hknown & _)%complete_spec.
  unfold no_known_power in Hno. by rewrite Hc in Hno.
Qed.

Lemma df_export_drops (before after : list (POI Text)) (p : POI Text) :
  no_known_power p ->
  df_export (before ++ p :: after) = df_export (before ++ after).
Proof.
  intros Hno%no_known_power_incomplete. unfold df_export.
  rewrite !map_app, !filter_app. simpl.
  rewrite filter_cons_False; [done |]. by rewrite Hno.
Qed.

(** What the tail of [ocm_extractor] loads into the warehouse. *)
Lemma ocm_extractor_loads (all_poi_data : list (POI Text))
    (client after : Client (Row Text)) (status : string) :
  ocm_extractor all_poi_data client = Return (status, after) ->
  jobs after = jobs client
  \/ exists (wd : WriteDisposition) (rows : list (Row Text)),
       jobs after = jobs client ++ [(wd, rows)]
       /\ forall row : Row Text, row ∈ rows -> row ∈ df_final all_poi_data.
Proof.
  unfold ocm_extractor. destruct all_poi_data as [| p rest]; [intros [= _ <-]; by left |].
  set (df := df_final (p :: rest)).
  destruct (table client) as [existing |] eqn:Ht.
  - rewrite (load_02_existing _ _ existing) by done.
    destruct (not_isin Place_ID (map Place_ID existing) df) as [| r l] eqn:E.
    + intros [= _ <-]. by left.
    + intros [= _ <-]. right. eexists _, _. split; [reflexivity |].
      intros row Hrow. rewrite <- E in Hrow. unfold not_isin in Hrow.
      by apply list_elem_of_filter in Hrow as [_ ?].
  - rewrite load_02_missing by done. intros [= _ <-]. right.
    eexists _, _. split; [reflexivity | done].
Qed.

End CatalogFacts.

Section CatalogProperties.
Import Pandas Classifier Catalog BigQuery Sync Samples.

(** C9. In the catalog variants every exported row, before and after
    the removal of duplicate rows, holds values in Number_of_Connectors,
    Min_Power_kW, Max_Power_kW, Latitude and Longitude, and its maximum
    charging type is one of the three tier names, never "Unknown"; a POI
    whose connection list yields no known power reading leaves no row
    (the output is the same with that POI removed from the input); and
    every row the Option 02 function loads into the warehouse is one of
    these rows. *)
Theorem persisted_rows_are_defined
    (Text : Type) (dec : EqDecision Text) (all_poi_data : list (POI Text)) :
  (forall row : Row Text, row ∈ df_export all_poi_data -> row_defined row)
  /\ (forall row : Row Text, row ∈ df_final all_poi_data -> row_defined row)
  /\ (forall (before after : list (POI Text)) (p : POI Text),
        all_poi_data = before ++ p :: after -> no_known_power p ->
        df_export all_poi_data = df_export (before ++ after)
        /\ df_final all_poi_data = df_final (before ++ after))
  /\ (forall (client after : Client (Row Text)) (status : string),
        ocm_extractor all_poi_data client = Return (status, after) ->
        forall (wd : WriteDisposition) (rows : list (Row Text)) (row : Row Text),
          (wd, rows) ∈ jobs after -> (wd, rows) ∉ jobs client -> row ∈ rows ->
          row_defined row).
Proof.
  split; [apply df_export_defined |]. split; [apply df_final_defined |]. split.
  - intros before after p -> Hno. unfold df_final.
    by rewrite (df_export_drops before after p).
  - intros client after status Hrun wd rows row Hjob Hnew Hrow.
    destruct (ocm_extractor_loads _ _ _ _ Hrun) as [E | (wd' & rows' & E & Hsub)];
      rewrite E in Hjob; [done |].
    apply elem_of_app in Hjob as [Hold | [= -> ->]%list_elem_of_singleton]; [done |].
    by eapply df_final_defined, Hsub.
Qed.

(** A catalog with one POI that has power readings and one that has
    none: one row is exported, and it is defined. *)
Lemma persisted_rows_are_defined_witness :
  df_export [poi_with_power; poi_without_power] = df_export [poi_with_power]
  /\ row_defined (export (widen poi_with_power)).
Proof.
  destruct (persisted_rows_are_defined string _ [poi_with_power; poi_without_power])
    as (Hdefined & _ & Hdrop & _).
  split.
  - apply (Hdrop [poi_with_power] [] poi_without_power eq_refl). reflexivity.
  - apply Hdefined. apply list_elem_of_In. left. reflexivity.
Defined.

End CatalogProperties.

(** ** Verified-place adapter *)

Section SweepFacts.
Import PyStr Reconciler Verified.

Lemma never_refetched_snoc (events : list Event) (ev : Event) :
  never_refetched events ->
  (forall pid : string, ev = Details_fetch pid -> Seen_add pid ∉ events) ->
  never_refetched (events ++ [ev]).
Proof.
  intros Hnever Hev before pid after.
  destruct after as [| x after _] using rev_ind; [intros _; apply not_elem_of_nil |].
  rewrite app_comm_cons, app_assoc. intros [E <-]%app_inj_tail.
  rewrite elem_of_app, list_elem_of_singleton. intros [Hin | Hlast].
  - by eapply Hnever.
  - apply (Hev pid); [done |]. rewrite E. apply elem_of_app. right. by left.
Qed.

Lemma invariant_start : run_invariant start.
Proof.
  repeat split; simpl.
  - by intros pid ?%elem_of_nil.
  - intros [| ? ?] pid after; discriminate.
  - by intros rec ?%elem_of_nil.
  - constructor.
Qed.

Lemma invariant_emit (recs : list Record_) (s : gset string)
    (events : list Event) (ev : Event) :
  run_invariant {| records := recs; seen := s; trace := events |} ->
  (forall pid : string, ev <> Seen_add pid) ->
  (forall pid : string, ev = Details_fetch pid -> pid ∉ s) ->
  run_invariant {| records := recs; seen := s; trace := events ++ [ev] |}.
Proof.
  intros (Hseen & Hnever & Hrecs & Hdup) Hadd Hfetch. repeat split; simpl in *; try done.
  - intros pid [Hin | Hlast%list_elem_of_singleton]%elem_of_app; [by apply Hseen |].
    by destruct (Hadd pid).
  - apply never_refetched_snoc; [done |]. intros pid -> Hin.
    by apply (Hfetch pid), Hseen.
Qed.

Lemma invariant_seen_add (recs : list Record_) (s : gset string)
    (events : list Event) (pid : string) :
  run_invariant {| records := recs; seen := s; trace := events |} ->
  run_invariant {| records := recs; seen := {[pid]} ∪ s;
                   trace := events ++ [Seen_add pid] |}.
Proof.
  intros (Hseen & Hnever & Hrecs & Hdup). repeat split; simpl in *; try done.
  - intros p [Hin | [= ->]%list_elem_of_singleton]%elem_of_app.
    + apply elem_of_union. right. by apply Hseen.
    + set_solver.
  - apply never_refetched_snoc; [done | discriminate].
  - intros rec Hrec. apply elem_of_union. right. by apply Hrecs.
Qed.

Lemma invariant_append (recs : list Record_) (s : gset string)
    (events : list Event) (rec : Record_) :
  run_invariant {| records := recs; seen := s; trace := events |} ->
  r_place_id rec ∈ s ->
  r_place_id rec ∉ map r_place_id recs ->
  run_invariant {| records := recs ++ [rec]; seen := s; trace := events |}.
Proof.
  intros (Hseen & Hnever & Hrecs & Hdup) Hin Hfresh. repeat split; simpl in *; try done.
  - intros r [Hr | ->%list_elem_of_singleton]%elem_of_app; [by apply Hrecs | done].
  - rewrite map_app. apply NoDup_app. split; [done |]. split.
    + intros p Hp [= ->]%list_elem_of_singleton. done.
    + apply NoDup_singleton.
Qed.

(** Accepting a place: the events and the record of one visit. *)
Lemma invariant_accept (st : Run) (pid : string) (rec : Record_) (lat lng : option Q) :
  run_invariant st ->
  pid ∉ seen st ->
  r_place_id rec = pid ->
  run_invariant
    {| records := records st ++ [rec];
       seen := {[pid]} ∪ seen st;
       trace := ((trace st ++ [Details_fetch pid]) ++ [Seen_add pid])
                ++ [Ocm_lookup lat lng] |}.
Proof.
  intros Hinv Hnew Hrec. destruct st as [recs s events]. simpl in *.
  assert (Hfresh : pid ∉ map r_place_id recs).
  { intros (r & E & Hr)%list_elem_of_fmap. apply Hnew.
    destruct Hinv as (_ & _ & Hrecs & _). rewrite E. by apply Hrecs. }
  apply invariant_append; [| rewrite Hrec; set_solver | by rewrite Hrec].
  apply invariant_emit; [| discriminate | discriminate].
  apply invariant_seen_add.
  apply invariant_emit; [done | discriminate | by intros p [= <-]].
Qed.

Lemma invariant_fetch (st : Run) (pid : string) :
  run_invariant st ->
  pid ∉ seen st ->
  run_invariant
    {| records := records st; seen := seen st;
       trace := trace st ++ [Details_fetch pid] |}.
Proof.
  intros Hinv Hnew. destruct st as [recs s events]. simpl in *.
  apply invariant_emit; [done | discriminate | by intros p [= <-]].
Qed.

Lemma keeps_ret {A} (a : A) : keeps (ret a).
Proof. by intros st. Qed.

Lemma keeps_bind {A B} (m : M A) (k : A -> M B) :
  keeps m -> (forall a, keeps (k a)) -> keeps (bind m k).
Proof.
  intros Hm Hk st Hst. unfold bind. specialize (Hm st Hst).
  destruct (m st) as [[a | x] st']; simpl in *; [by apply Hk | done].
Qed.


Lemma keeps_for_each {X} (xs : list X) (body : X -> M unit) :
  (forall x, keeps (body x)) -> keeps (for_each xs body).
Proof.
  intros Hbody. induction xs as [| x xs IH]; simpl; [apply keeps_ret |].
  apply keeps_bind; [apply Hbody | by intros _].
Qed.

Section Oracles.
Variable nearby_api : nat -> Q -> Q -> PyResult (list Candidate).
Variable details_api : nat -> string -> PyResult (option PlaceResult).
Variable ocm_api : nat -> option Q -> option Q -> OcmReply.
Variable OCM_API_KEY : option string.
Variables lat_points lng_points : list Q.

Lemma keeps_fetch_nearby (lat lng : Q) : keeps (fetch_nearby nearby_api lat lng).
Proof.
  intros [recs s events] Hst. unfold fetch_nearby, bind, now, emit, lift. simpl.
  apply invariant_emit; [done | discriminate | discriminate].
Qed.

Lemma keeps_visit_01 (r : Candidate) :
  keeps (visit_01 details_api ocm_api OCM_API_KEY r).
Proof.
  intros st Hst. unfold visit_01.
  destruct (place_id r) as [[| c pid'] |]; [done | | done].
  set (pid := String c pid').
  unfold bind, in_seen, fetch_place_details, bind, now, emit, lift, seen_add,
    fetch_ocm, records_append, ret. simpl.
  destruct (bool_decide (pid ∈ seen st)) eqn:Hknown; [done |].
  apply bool_decide_eq_false in Hknown. simpl.
  destruct (details_api (length (trace st)) pid) as [details | x]; simpl;
    [| by apply invariant_fetch].
  destruct (is_charger_place_01 details); simpl; [| by apply invariant_fetch].
  by apply invariant_accept.
Qed.


Lemma keeps_run_extraction :
  keeps (run_extraction nearby_api details_api ocm_api OCM_API_KEY lat_points lng_points).
Proof.
  unfold run_extraction.
  apply keeps_for_each. intros lat. apply keeps_for_each. intros lng.
  apply keeps_bind; [apply keeps_fetch_nearby |].
  intros results. apply keeps_for_each, keeps_visit_01.
Qed.

End Oracles.

End SweepFacts.

Section SweepProperties.
Import PyStr Reconciler Verified Samples.




End SweepProperties.

(** ** Strings between the two stages of Option 01 *)

Section StringFacts.
Import PyStr.
Local Open Scope string_scope.

Lemma append_cons (c : ascii) (a b : string) : String c a ++ b = String c (a ++ b).
Proof. reflexivity. Qed.

Lemma append_nil_l (b : string) : "" ++ b = b.
Proof. reflexivity. Qed.

Lemma append_assoc (a b c : string) : (a ++ b) ++ c = a ++ (b ++ c).
Proof.
  induction a as [| x a IH]; [done |]. by rewrite !append_cons, IH.
Qed.

Lemma append_nil_r (a : string) : a ++ "" = a.
Proof. induction a as [| x a IH]; [done |]. by rewrite append_cons, IH. Qed.

Lemma all_chars_app (p : ascii -> bool) (a b : string) :
  all_chars p (a ++ b) = all_chars p a && all_chars p b.
Proof.
  induction a as [| c a IH]; [done |].
  rewrite append_cons. simpl. by rewrite IH, andb_assoc.
Qed.

Lemma all_chars_weaken (p q : ascii -> bool) (s : string) :
  (forall c, p c = true -> q c = true) -> all_chars p s = true -> all_chars q s = true.
Proof.
  intros Hpq. induction s as [| c s IH]; simpl; [done |].
  intros [Hc Hs]%andb_true_iff. by rewrite (Hpq c), IH.
Qed.

Lemma prefix_first_differs (x c : ascii) (sep s : string) :
  Ascii.eqb c x = false -> String.prefix (String x sep) (String c s) = false.
Proof.
  intros Hc. simpl. destruct (ascii_dec x c) as [-> | _]; [| done].
  by rewrite Ascii.eqb_refl in Hc.
Qed.

(** Scanning a piece without the first character of the separator. *)
Lemma split_scan_piece (x : ascii) (sep word s : string) :
  all_chars (not_char x) s = true ->
  split_scan (String x sep) 0 word s = [word ++ s].
Proof.
  revert word. induction s as [| c s IH]; intros word.
  - intros _. simpl. by rewrite append_nil_r.
  - simpl all_chars. intros [Hc Hs]%andb_true_iff. apply negb_true_iff in Hc.
    cbn [split_scan]. rewrite prefix_first_differs by done.
    rewrite IH by done. by rewrite append_assoc.
Qed.

Lemma prefix_app (sep rest : string) : String.prefix sep (sep ++ rest) = true.
Proof.
  induction sep as [| x sep IH]; [by destruct rest |].
  rewrite append_cons. simpl. destruct (ascii_dec x x); [done | congruence].
Qed.

Lemma split_scan_skip (sep word sep' rest : string) :
  split_scan sep (String.length sep') word (sep' ++ rest) = split_scan sep 0 word rest.
Proof.
  induction sep' as [| c sep' IH]; [done |]. by rewrite append_cons.
Qed.

(** ... followed by the separator and more text. *)
Lemma split_scan_piece_sep (x : ascii) (sep word s rest : string) :
  all_chars (not_char x) s = true ->
  split_scan (String x sep) 0 word (s ++ String x sep ++ rest)
  = (word ++ s) :: split_scan (String x sep) 0 "" rest.
Proof.
  revert word. induction s as [| c s IH]; intros word.
  - intros _. rewrite append_nil_r, append_nil_l.
    pose proof (prefix_app (String x sep) rest) as Hp.
    rewrite append_cons in *. cbn [split_scan]. rewrite Hp.
    cbn [String.length]. rewrite Nat.sub_succ, Nat.sub_0_r. f_equal.
    apply split_scan_skip.
  - simpl all_chars. intros [Hc Hs]%andb_true_iff. apply negb_true_iff in Hc.
    rewrite append_cons.
    cbn [split_scan]. rewrite prefix_first_differs by done.
    rewrite IH by done. by rewrite append_assoc.
Qed.

(** Splitting what was joined gives the pieces back, when no piece
    holds the first character of the separator. *)
Lemma split_join (x : ascii) (sep : string) (first : string) (rest : list string) :
  Forall (fun piece => all_chars (not_char x) piece = true) (first :: rest) ->
  split (String x sep) (join (String x sep) (first :: rest)) = first :: rest.
Proof.
  unfold split, join. revert first.
  induction rest as [| second rest IH]; intros first Hall.
  - simpl. apply Forall_cons in Hall as [Hfirst _].
    by rewrite split_scan_piece.
  - apply Forall_cons in Hall as [Hfirst Hrest].
    change (String.concat (String x sep) (first :: second :: rest))
      with (first ++ String x sep ++ String.concat (String x sep) (second :: rest)).
    rewrite split_scan_piece_sep by done. rewrite append_nil_l. f_equal.
    by apply IH.
Qed.

(** *** What [format_1f] writes *)

Lemma uint_digits (d : Decimal.uint) :
  all_chars is_digit (NilEmpty.string_of_uint d) = true.
Proof. induction d; simpl; auto. Qed.

Lemma decimal_digits (n : Z) : all_chars is_digit (PyNum.decimal n) = true.
Proof.
  unfold PyNum.decimal, NilZero.string_of_uint.
  destruct (N.to_uint (Z.to_N n)) eqn:E; try done; rewrite <- E; apply uint_digits.
Qed.

Lemma decimal_nonempty (n : Z) :
  exists (c : ascii) (s : string), PyNum.decimal n = String c s /\ is_digit c = true.
Proof.
  pose proof (decimal_digits n) as Hd. unfold PyNum.decimal, NilZero.string_of_uint in *.
  destruct (N.to_uint (Z.to_N n)); simpl in *;
    try (eexists _, _; split; [reflexivity | done]).
Qed.

Lemma decimal_parses (n : Z) :
  (0 <= n)%Z -> PyNum.digits_N (PyNum.decimal n) = Some (Z.to_N n).
Proof.
  intros Hn. unfold PyNum.digits_N, PyNum.decimal, NilZero.string_of_uint.
  pose proof (DecimalN.Unsigned.of_to (Z.to_N n)) as Hof.
  destruct (N.to_uint (Z.to_N n)) eqn:E;
    try (rewrite <- E, NilEmpty.usu; simpl; by rewrite E, Hof).
  simpl in *. by rewrite <- Hof.
Qed.

Lemma decimal_one_digit (n : Z) :
  (0 <= n < 10)%Z -> String.length (PyNum.decimal n) = 1.
Proof.
  intros Hn.
  assert (exists m : nat, n = Z.of_nat m /\ (m < 10)%nat) as (m & -> & Hm)
    by (exists (Z.to_nat n); lia).
  do 10 (destruct m as [| m]; [reflexivity |]). lia.
Qed.

Lemma format_1f_numeric (q : Q) : all_chars is_numeric (PyNum.format_1f q) = true.
Proof.
  assert (Hdigits : forall n, all_chars is_numeric (PyNum.decimal n) = true).
  { intros n. eapply all_chars_weaken; [| apply decimal_digits].
    intros c Hc. unfold is_numeric. by rewrite Hc. }
  unfold PyNum.format_1f. rewrite !all_chars_app, !Hdigits.
  by destruct (Qlt_b q 0).
Qed.

Lemma numeric_not_char (x : ascii) (s : string) :
  is_numeric x = false ->
  all_chars is_numeric s = true -> all_chars (not_char x) s = true.
Proof.
  intros Hx. apply all_chars_weaken. intros c Hc. unfold not_char.
  apply negb_true_iff. destruct (Ascii.eqb_spec c x) as [-> | _]; [congruence | done].
Qed.

Lemma numeric_not_space (s : string) :
  all_chars is_numeric s = true -> all_chars (fun c => negb (is_space c)) s = true.
Proof.
  apply all_chars_weaken. intros c.
  destruct c as [[] [] [] [] [] [] [] []]; by vm_compute.
Qed.

(** *** Reading it back *)

Lemma contains_suffix (sub s : string) : contains sub (s ++ sub) = true.
Proof.
  induction s as [| c s IH].
  - rewrite append_nil_l. destruct sub as [| x sub]; [done |].
    simpl. destruct (ascii_dec x x); [| congruence].
    pose proof (prefix_app sub "") as Hp. rewrite append_nil_r in Hp. by rewrite Hp.
  - rewrite append_cons. simpl. rewrite IH. apply orb_true_r.
Qed.

Lemma replace_suffix (x : ascii) (old s : string) :
  all_chars (not_char x) s = true ->
  replace (String x old) "" (s ++ String x old) = s.
Proof.
  intros Hs. unfold replace, split.
  rewrite <- (append_nil_r (String x old)) at 2.
  rewrite split_scan_piece_sep by done. rewrite append_nil_l. simpl.
  rewrite append_nil_l. apply append_nil_r.
Qed.

Lemma lstrip_id (c : ascii) (s : string) :
  is_space c = false -> lstrip (String c s) = String c s.
Proof. intros Hc. simpl. by rewrite Hc. Qed.

Lemma rstrip_id (s : string) :
  all_chars (fun c => negb (is_space c)) s = true -> rstrip s = s.
Proof.
  induction s as [| c s IH]; simpl; [done |].
  intros [Hc Hs]%andb_true_iff. apply negb_true_iff in Hc.
  rewrite IH by done. rewrite Hc. by destruct s.
Qed.

Lemma strip_id (s : string) :
  all_chars (fun c => negb (is_space c)) s = true -> strip s = s.
Proof.
  intros Hs. unfold strip. destruct s as [| c s]; [done |].
  pose proof Hs as Hs'. simpl in Hs'. apply andb_true_iff in Hs' as [Hc _].
  apply negb_true_iff in Hc. rewrite lstrip_id by done. by apply rstrip_id.
Qed.

Lemma cut_at_point_digits (a b : string) :
  all_chars is_digit a = true ->
  PyNum.cut_at_point (a ++ String "." b) = (a, Some b).
Proof.
  induction a as [| c a IH]; [done |].
  simpl all_chars. intros [Hc Ha]%andb_true_iff.
  rewrite append_cons. simpl. rewrite IH by done.
  destruct (Ascii.eqb_spec c ".") as [-> | _]; [discriminate | done].
Qed.

(** The text [digits.digit] reads as the number it denotes. *)
Lemma unsigned_decimal_tenths (t : Z) :
  (0 <= t)%Z ->
  exists v : Q,
    PyNum.unsigned_decimal
      (PyNum.decimal (t / 10) ++ "." ++ PyNum.decimal (t mod 10)) = Some v
    /\ (v == inject_Z t / 10)%Q.
Proof.
  intros Ht.
  assert (Ha : (0 <= t / 10)%Z) by (apply Z.div_pos; lia).
  assert (Hb : (0 <= t mod 10 < 10)%Z) by (apply Z.mod_pos_bound; lia).
  unfold PyNum.unsigned_decimal.
  change ("." ++ PyNum.decimal (t mod 10)) with (String "." (PyNum.decimal (t mod 10))).
  rewrite cut_at_point_digits by apply decimal_digits. simpl default.
  destruct (decimal_nonempty (t / 10)) as (c & s & E & _).
  rewrite !decimal_parses by lia. rewrite decimal_one_digit by done.
  rewrite E. rewrite !Z2N.id by lia.
  eexists. split; [reflexivity |].
  unfold Qeq, Qplus, Qdiv, Qmult, Qinv, inject_Z, PyNum.pow10. simpl.
  pose proof (Z.div_mod t 10). lia.
Qed.

Lemma py_float_unsigned (c : ascii) (s : string) :
  is_digit c = true ->
  all_chars (fun c => negb (is_space c)) (String c s) = true ->
  PyNum.py_float (String c s) = PyNum.unsigned_decimal (String c s).
Proof.
  intros Hc Hs. unfold PyNum.py_float. rewrite strip_id by done.
  destruct c as [[] [] [] [] [] [] [] []]; try discriminate Hc; reflexivity.
Qed.

Lemma py_float_negative (s : string) :
  all_chars (fun c => negb (is_space c)) s = true ->
  PyNum.py_float (String "-" s) = Qopp <$> PyNum.unsigned_decimal s.
Proof.
  intros Hs. unfold PyNum.py_float. by rewrite strip_id.
Qed.

Lemma round_half_even_sign (q : Q) :
  ((q < 0)%Q -> (PyNum.round_half_even (q * 10) <= 0)%Z)
  /\ ((0 <= q)%Q -> (0 <= PyNum.round_half_even (q * 10))%Z).
Proof.
  unfold PyNum.round_half_even. destruct q as [n d].
  unfold Qlt, Qle. simpl. rewrite !Z.mul_1_r, Pos.mul_1_r.
  set (f := (n * 10 / Z.pos d)%Z).
  split; intros Hn.
  - assert (f < 0)%Z by (apply Z.div_lt_upper_bound; lia).
    destruct (2 * ((n * 10) mod Z.pos d) ?= Z.pos d)%Z; [destruct (Z.even f) | |]; lia.
  - assert (0 <= f)%Z by (apply Z.div_pos; lia).
    destruct (2 * ((n * 10) mod Z.pos d) ?= Z.pos d)%Z; [destruct (Z.even f) | |]; lia.
Qed.

(** Reading a formatted number back gives the number rounded to one
    decimal. *)
Lemma py_float_format_1f (q : Q) :
  exists v : Q,
    PyNum.py_float (PyNum.format_1f q) = Some v /\ (v == Reconciler.one_decimal q)%Q.
Proof.
  pose proof (format_1f_numeric q) as Hnum. apply numeric_not_space in Hnum.
  destruct (round_half_even_sign q) as [Hneg Hpos].
  unfold PyNum.format_1f, Reconciler.one_decimal in *.
  set (r := PyNum.round_half_even (q * 10)) in *.
  destruct (unsigned_decimal_tenths (Z.abs r)) as (v & Hv & Ev); [lia |].
  destruct (Qlt_b q 0) eqn:Hsign.
  - apply Qlt_b_iff in Hsign. specialize (Hneg Hsign).
    change ("-" ++ ?s) with (String "-" s) in *.
    rewrite py_float_negative by exact Hnum.
    rewrite Hv. exists (- v)%Q. split; [done |]. rewrite Ev.
    rewrite Z.abs_neq by done. unfold Qeq, Qopp, Qdiv, Qmult, Qinv, inject_Z. simpl. lia.
  - apply Qlt_b_false in Hsign. specialize (Hpos Hsign). rewrite append_nil_l in *.
    destruct (decimal_nonempty (Z.abs r / 10)) as (c & s & E & Hc).
    rewrite E in *. rewrite append_cons in *.
    rewrite py_float_unsigned by done. rewrite Hv. exists v. split; [done |].
    by rewrite Ev, Z.abs_eq.
Qed.

End StringFacts.

(** ** Reconciler and cleaning of Option 01 *)

Section ReconcilerFacts.
Import PyStr PyNum Classifier Verified Cleaning01 Reconciler.
Local Open Scope string_scope.

Lemma power_value_cases (conn : Connection) :
  (truthy (PowerKW conn) = false /\ power_value conn = "Power Unknown")
  \/ (exists q : Q,
        PowerKW conn = Some q /\ truthy (PowerKW conn) = true
        /\ ~ (q == 0)%Q /\ power_value conn = format_1f q ++ " kW").
Proof.
  unfold power_value. destruct (truthy (PowerKW conn)) eqn:E; [right | by left].
  destruct (PowerKW conn) as [q |]; [| done]. exists q. repeat split; try done.
  simpl in E. apply negb_true_iff in E. intros Hq. apply Qeq_bool_iff in Hq. congruence.
Qed.

Lemma power_value_no_semicolon (conn : Connection) :
  all_chars (not_char ";") (power_value conn) = true.
Proof.
  destruct (power_value_cases conn) as [[_ ->] | (q & _ & _ & _ & ->)]; [done |].
  rewrite all_chars_app, (numeric_not_char ";") by (done || apply format_1f_numeric).
  done.
Qed.

(** [convert_power] keeps one value per rendered reading and nothing
    for a "Power Unknown" entry. *)
Lemma convert_power_values (connections : list Connection) :
  exists values : list Q,
    convert_power (map power_value connections) = Return values
    /\ Forall2 (fun v q => (v == one_decimal q)%Q) values (rendered_powers connections).
Proof.
  induction connections as [| conn rest (values & Hvalues & Hall)].
  - exists []. by split.
  - unfold rendered_powers in *. simpl.
    destruct (power_value_cases conn) as [[Hfalsy ->] | (q & Hq & Htruthy & _ & ->)].
    + rewrite Hfalsy. simpl. by exists values.
    + rewrite Htruthy, Hq.
      replace (format_1f q ++ " kW") with ((format_1f q ++ " ") ++ "kW")
        by (by rewrite append_assoc).
      rewrite contains_suffix. rewrite append_assoc.
      change (" " ++ "kW") with (String " " "kW").
      rewrite replace_suffix
        by (apply (numeric_not_char " "); [done | apply format_1f_numeric]).
      destruct (py_float_format_1f q) as (v & -> & Ev).
      rewrite Hvalues. exists (v :: values). split; [done |]. by constructor.
Qed.

Lemma power_list_values (connections : list Connection) :
  exists values : list Q,
    power_list (join "; " (map power_value connections)) = Return values
    /\ Forall2 (fun v q => (v == one_decimal q)%Q) values (rendered_powers connections).
Proof.
  destruct connections as [| conn rest]; [exists []; by split |].
  unfold power_list. simpl map. rewrite split_join.
  - apply (convert_power_values (conn :: rest)).
  - apply Forall_cons. split; [apply power_value_no_semicolon |].
    apply Forall_forall. intros piece (c & -> & _)%list_elem_of_fmap.
    apply power_value_no_semicolon.
Qed.

Lemma rendered_powers_nonzero (connections : list Connection) (q : Q) :
  q ∈ rendered_powers connections -> ~ (q == 0)%Q.
Proof.
  unfold rendered_powers. intros (conn & Hconn & E)%list_elem_of_omap.
  destruct (power_value_cases conn) as [[Hfalsy _] | (q' & Hq & Htruthy & Hne & _)].
  - by rewrite Hfalsy in E.
  - rewrite Htruthy, Hq in E. by injection E as <-.
Qed.

(** The normal path of [fetch_ocm_details]. *)
Lemma fetch_ocm_details_listed (key_first : ascii) (key_rest : string)
    (poi : Poi) (others : list Poi) (connections : list Connection)
    (titles : list string) :
  Connections poi = Some connections ->
  connections <> [] ->
  conn_types connections = Return titles ->
  fetch_ocm_details (Some (String key_first key_rest)) (Ocm_data (poi :: others))
  = (join "; " titles, join "; " (map power_value connections)).
Proof.
  intros Hc Hne Ht. unfold fetch_ocm_details. rewrite Hc.
  destruct connections as [| conn rest]; [done |]. by rewrite Ht.
Qed.

End ReconcilerFacts.

Section ReconcilerProperties.
Import PyStr PyNum Classifier Verified Cleaning01 Samples Reconciler.
Local Open Scope string_scope.

(** C10. In Cloud Function Option 01 a connector whose PowerKW is
    absent, null or zero is written as "Power Unknown"; the normal path
    of [fetch_ocm_details] joins these entries with "; "; and the
    known-power list that the cleaning computes from that text holds one
    value per connector with a non-zero reading, in order (the reading
    rounded to one decimal), and nothing for the others.  The minimum,
    the maximum and the tiers of the cleaned row are computed from that
    list. *)
Theorem falsy_power_is_excluded (connections : list Connection) :
  (forall conn : Connection,
      PowerKW conn = None \/ (exists q : Q, PowerKW conn = Some q /\ (q == 0)%Q) ->
      power_value conn = "Power Unknown")
  /\ contains "kW" "Power Unknown" = false
  /\ (forall (key_first : ascii) (key_rest : string) (poi : Poi) (others : list Poi)
             (titles : list string),
        Connections poi = Some connections ->
        connections <> [] ->
        conn_types connections = Return titles ->
        snd (fetch_ocm_details (Some (String key_first key_rest))
               (Ocm_data (poi :: others)))
        = join "; " (map power_value connections))
  /\ (exists values : list Q,
        power_list (join "; " (map power_value connections)) = Return values
        /\ Forall2 (fun v q => (v == one_decimal q)%Q) values
             (rendered_powers connections)
        /\ (forall q : Q, q ∈ rendered_powers connections -> ~ (q == 0)%Q)
        /\ (forall r : Record_,
              ocm_power_kW r = join "; " (map power_value connections) ->
              exists cleaned : Cleaned,
                clean_row r = Return cleaned
                /\ Min_Power_kW cleaned = min_power values
                /\ Max_Power_kW cleaned = max_power values
                /\ Max_Charging_Type cleaned
                   = max_charging_type (assign_charging_type values))).
Proof.
  split; [| split; [done | split]].
  - intros conn Hfalsy.
    destruct (power_value_cases conn) as [[_ E] | (q & Hq & _ & Hne & _)]; [done |].
    exfalso. destruct Hfalsy as [E | (q' & E & Hzero)]; rewrite Hq in E; [done |].
    injection E as <-. by apply Hne.
  - intros key_first key_rest poi others titles Hc Hne Ht.
    by rewrite (fetch_ocm_details_listed _ _ _ _ connections titles).
  - destruct (power_list_values connections) as (values & Hvalues & Hall).
    exists values. split; [done |]. split; [done |].
    split; [apply rendered_powers_nonzero |].
    intros r Hr. unfold clean_row. rewrite Hr, Hvalues. by eexists.
Qed.

(** Four connectors with readings 7.4, 0, none and 50: the second and
    the third are written "Power Unknown", and the known-power list
    holds two values, for 7.4 and for 50. *)
Lemma falsy_power_is_excluded_witness :
  power_value zero_power = "Power Unknown"
  /\ power_value no_power = "Power Unknown"
  /\ snd (fetch_ocm_details (Some "key") (Ocm_data [{| Connections := Some four_connectors |}]))
     = "7.4 kW; Power Unknown; Power Unknown; 50.0 kW"
  /\ exists values : list Q,
       power_list "7.4 kW; Power Unknown; Power Unknown; 50.0 kW" = Return values
       /\ Forall2 (fun v q => (v == one_decimal q)%Q) values [7.4%Q; 50%Q].
Proof.
  destruct (falsy_power_is_excluded four_connectors)
    as (Hunknown & _ & Hfetch & values & Hvalues & Hall & _).
  split; [apply Hunknown; right; exists 0%Q; by split |].
  split; [apply Hunknown; by left |].
  split; [exact (Hfetch "k"%char "ey" {| Connections := Some four_connectors |} []
                   ["Type 2"; "Unknown"; "Unknown"; "CCS"]
                   eq_refl ltac:(discriminate) eq_refl) |].
  exists values. split; [exact Hvalues | exact Hall].
Defined.

End ReconcilerProperties.

(** * Further properties of the code *)

(** ** Aggregation: tier, minimum and maximum together *)

Section AggregationProperties.
Import Classifier.

Lemma tier_in_assigned (powers : list Q) (p : Q) :
  p ∈ powers -> tier p ∈ assign_charging_type powers.
Proof.
  rewrite assign_charging_type_map. intros Hp. apply list_elem_of_fmap. by exists p.
Qed.

Lemma assigned_from_reading (powers : list Q) (t : string) :
  t ∈ assign_charging_type powers <-> exists p : Q, p ∈ powers /\ tier p = t.
Proof.
  rewrite assign_charging_type_map, list_elem_of_fmap. split.
  - intros (p & -> & Hp). by exists p.
  - intros (p & Hp & <-). by exists p.
Qed.

(** The site tier of a list of readings is the tier of its largest
    reading. *)
Lemma max_charging_type_of_max (powers : list Q) (m : Q) :
  max_power powers = Some m ->
  max_charging_type (assign_charging_type powers) = Some (tier m).
Proof.
  intros Hm.
  destruct (min_max_power_spec powers) as (_ & Hnone & _).
  destruct (min_power powers) as [a |] eqn:Ha;
    [| destruct powers; [by rewrite (proj2 Hnone) in Hm | done]].
  destruct (min_max_power_spec powers) as (_ & _ & Hboth).
  destruct (Hboth a m Ha Hm) as (_ & _ & Hin & Hbound).
  pose proof (tier_in_assigned powers m Hin) as Htier.
  assert (Hle : forall t, t ∈ assign_charging_type powers ->
                          tier_rank t <= tier_rank (tier m)).
  { intros t (p & Hp & <-)%assigned_from_reading.
    apply tier_monotone. by apply Hbound. }
  destruct (max_charging_type_spec (assign_charging_type powers))
    as [[HR E] | [(NR & HF & E) | [(NR & NF & HS & E) | (NR & NF & NS & E)]]];
    rewrite E; f_equal.
  - specialize (Hle _ HR).
    destruct (tier_is_name m) as [T | [T | T]]; rewrite T in *; try done;
      vm_compute in Hle; lia.
  - specialize (Hle _ HF).
    destruct (tier_is_name m) as [T | [T | T]]; rewrite T in *; try done.
    vm_compute in Hle; lia.
  - destruct (tier_is_name m) as [T | [T | T]]; rewrite T in *; done.
  - destruct (tier_is_name m) as [T | [T | T]]; rewrite T in *; done.
Qed.

Lemma flag_yes (x : string) (types : list string) :
  yes_no (py_in x types) = "Yes" <-> x ∈ types.
Proof.
  unfold yes_no. destruct (py_in x types) eqn:E.
  - apply py_in_true in E. by split.
  - apply py_in_false in E. by split.
Qed.

Lemma flags_of_readings (powers : list Q) :
  (yes_no (py_in "Rapid" (assign_charging_type powers)) = "Yes"
   <-> exists m : Q, max_power powers = Some m /\ (22 < m)%Q)
  /\ (yes_no (py_in "Slow" (assign_charging_type powers)) = "Yes"
      <-> exists a : Q, min_power powers = Some a /\ (a < 7)%Q)
  /\ (yes_no (py_in "Fast" (assign_charging_type powers)) = "Yes"
      <-> exists p : Q, p ∈ powers /\ (7 <= p)%Q /\ (p <= 22)%Q).
Proof.
  rewrite !flag_yes, !assigned_from_reading.
  destruct (min_max_power_spec powers) as (Hmin & Hmax & Hboth).
  split; [| split].
  - split.
    + intros (p & Hp & Ht%tier_rapid_iff).
      destruct powers as [| q rest]; [by apply elem_of_nil in Hp |].
      destruct (Hboth _ _ eq_refl eq_refl) as (_ & _ & _ & Hbound).
      eexists. split; [reflexivity |]. destruct (Hbound p Hp). lra.
    + intros (m & Hm & Hgt).
      destruct powers as [| q rest]; [done |].
      destruct (Hboth _ _ eq_refl Hm) as (_ & _ & Hin & _).
      exists m. split; [done | by apply tier_rapid_iff].
  - split.
    + intros (p & Hp & Ht%tier_slow_iff).
      destruct powers as [| q rest]; [by apply elem_of_nil in Hp |].
      destruct (Hboth _ _ eq_refl eq_refl) as (_ & _ & _ & Hbound).
      eexists. split; [reflexivity |]. destruct (Hbound p Hp). lra.
    + intros (a & Ha & Hlt).
      destruct powers as [| q rest]; [done |].
      destruct (Hboth _ _ Ha eq_refl) as (_ & Hin & _ & _).
      exists a. split; [done | by apply tier_slow_iff].
  - split.
    + intros (p & Hp & Ht%tier_fast_iff). by exists p.
    + intros (p & Hp & H1 & H2). exists p. split; [done | by apply tier_fast_iff].
Qed.

Lemma extract_connections_readings (conn_list : list Connection) (info : ConnectionInfo) :
  extract_connections (Some conn_list) = Some info ->
  Charging_Type_List info = assign_charging_type (Power_List info)
  /\ Power_List info = known PowerKW conn_list
  /\ Min_Power_kW info = min_power (Power_List info)
  /\ Max_Power_kW info = max_power (Power_List info)
  /\ Max_Charging_Type info = max_charging_type (Charging_Type_List info)
  /\ Rapid_Charge_Available info = yes_no (py_in "Rapid" (Charging_Type_List info))
  /\ Fast_Charge_Available info = yes_no (py_in "Fast" (Charging_Type_List info))
  /\ Slow_Charge_Available info = yes_no (py_in "Slow" (Charging_Type_List info))
  /\ Number_of_Connectors info = length conn_list.
Proof.
  intros [= <-]. simpl. by destruct (known PowerKW conn_list).
Qed.

(** X1. The maximum charging type of a site is the tier of its maximum
    power: whenever the maximum power of a connection list is defined,
    [extract_connections] reports as maximum charging type the tier of
    that reading, and so does the cleaning of Option 01 for the power
    list of a record. *)
Theorem site_tier_is_tier_of_maximum
    (conn_list : list Connection) (info : ConnectionInfo) (m : Q) :
  extract_connections (Some conn_list) = Some info ->
  Max_Power_kW info = Some m ->
  Max_Charging_Type info = Some (tier m)
  /\ forall (r : Verified.Record_) (c : Cleaning01.Cleaned) (top : Q),
       Cleaning01.clean_row r = Return c ->
       Cleaning01.Max_Power_kW c = Some top ->
       Cleaning01.Max_Charging_Type c = Some (tier top).
Proof.
  intros Hinfo Hm.
  destruct (extract_connections_readings _ _ Hinfo) as (-> & _ & _ & Hmax & -> & _).
  split; [apply max_charging_type_of_max; by rewrite <- Hmax |].
  intros r c top. unfold Cleaning01.clean_row.
  destruct (Reconciler.power_list (Verified.ocm_power_kW r)) as [powers |]; [| done].
  intros [= <-]. simpl. apply max_charging_type_of_max.
Qed.

(** A slow and a rapid connector: maximum 50 kW, maximum type Rapid. *)
Lemma site_tier_is_tier_of_maximum_witness :
  exists info : ConnectionInfo,
    extract_connections (Some MoreSamples.slow_and_rapid) = Some info
    /\ Max_Power_kW info = Some 50%Q
    /\ Max_Charging_Type info = Some "Rapid".
Proof.
  eexists. split; [reflexivity |]. split; [reflexivity |].
  exact (proj1 (site_tier_is_tier_of_maximum MoreSamples.slow_and_rapid _ 50%Q
                  eq_refl eq_refl)).
Defined.

(** X2. The three availability flags follow the readings, each on its
    own: Rapid is "Yes" exactly when the maximum power is above 22 kW,
    Slow exactly when the minimum power is below 7 kW, Fast exactly
    when some reading lies from 7 to 22 kW; so a site with a slow and a
    rapid connector reports both, whatever its maximum charging type.
    The cleaning of Option 01 computes the same three flags from the
    power list that it converts from the text of a record. *)
Theorem availability_flags_follow_readings
    (conn_list : list Connection) (info : ConnectionInfo) :
  extract_connections (Some conn_list) = Some info ->
  (Rapid_Charge_Available info = "Yes"
   <-> exists m : Q, Max_Power_kW info = Some m /\ (22 < m)%Q)
  /\ (Slow_Charge_Available info = "Yes"
      <-> exists a : Q, Min_Power_kW info = Some a /\ (a < 7)%Q)
  /\ (Fast_Charge_Available info = "Yes"
      <-> exists p : Q, p ∈ Power_List info /\ (7 <= p)%Q /\ (p <= 22)%Q)
  /\ forall (r : Verified.Record_) (c : Cleaning01.Cleaned),
       Cleaning01.clean_row r = Return c ->
       (Cleaning01.Rapid_Charge_Available c = "Yes"
        <-> exists m : Q, Cleaning01.Max_Power_kW c = Some m /\ (22 < m)%Q)
       /\ (Cleaning01.Slow_Charge_Available c = "Yes"
           <-> exists a : Q, Cleaning01.Min_Power_kW c = Some a /\ (a < 7)%Q)
       /\ exists powers : list Q,
            Reconciler.power_list (Verified.ocm_power_kW r) = Return powers
            /\ (Cleaning01.Fast_Charge_Available c = "Yes"
                <-> exists p : Q, p ∈ powers /\ (7 <= p)%Q /\ (p <= 22)%Q).
Proof.
  intros Hinfo.
  destruct (extract_connections_readings _ _ Hinfo)
    as (-> & _ & -> & -> & _ & -> & -> & -> & _).
  destruct (flags_of_readings (Power_List info)) as (HR & HS & HF).
  split; [done |]. split; [done |]. split; [done |].
  intros r c. unfold Cleaning01.clean_row.
  destruct (Reconciler.power_list (Verified.ocm_power_kW r)) as [powers |]; [| done].
  intros [= <-]. simpl.
  destruct (flags_of_readings powers) as (HR' & HS' & HF').
  split; [done |]. split; [done |]. by exists powers.
Qed.

(** A 3.7 kW and a 50 kW connector: Rapid and Slow are both available;
    the record of a 7 kW connector is cleaned to Fast. *)
Lemma availability_flags_follow_readings_witness :
  (exists info : ConnectionInfo,
     extract_connections (Some MoreSamples.slow_and_rapid) = Some info
     /\ Rapid_Charge_Available info = "Yes"
     /\ Slow_Charge_Available info = "Yes")
  /\ exists c : Cleaning01.Cleaned,
       Cleaning01.clean_row Samples.first_seen = Return c
       /\ Cleaning01.Fast_Charge_Available c = "Yes".
Proof.
  destruct (availability_flags_follow_readings MoreSamples.slow_and_rapid _ eq_refl)
    as (HR & HS & _ & Hclean).
  split.
  - eexists. split; [reflexivity |].
    split; [apply HR | apply HS]; eexists; (split; [reflexivity | reflexivity]).
  - eexists. split; [reflexivity |].
    destruct (Hclean Samples.first_seen _ eq_refl) as (_ & _ & powers & Hp & HF).
    apply HF. injection Hp as <-. eexists.
    split; [apply elem_of_cons; by left | split; by vm_compute].
Defined.

End AggregationProperties.

(** ** Substrings *)

Section SubstringFacts.
Import PyStr.
Local Open Scope string_scope.

Lemma prefix_iff (a b : string) :
  String.prefix a b = true <-> exists post : string, b = a ++ post.
Proof.
  revert b. induction a as [| x a IH]; intros b.
  - split; [intros _; by exists b | by destruct b].
  - destruct b as [| y b]; simpl.
    + split; [done | by intros (post & ?)].
    + destruct (ascii_dec x y) as [-> | Hne].
      * rewrite IH. split; intros (post & E); exists post.
        -- by rewrite append_cons, E.
        -- rewrite append_cons in E. by injection E.
      * split; [done |]. intros (post & E). rewrite append_cons in E. by injection E.
Qed.

(** [sub in s]: [s] holds [sub] somewhere. *)
Lemma contains_iff (sub s : string) :
  contains sub s = true <-> exists pre post : string, s = pre ++ sub ++ post.
Proof.
  induction s as [| c s IH]; cbn [contains].
  - rewrite prefix_iff. split.
    + intros (post & E). exists "", post. by rewrite append_nil_l.
    + intros ([| ? ?] & post & E); [| by rewrite append_cons in E].
      rewrite append_nil_l in E. by exists post.
  - rewrite orb_true_iff, prefix_iff, IH. split.
    + intros [(post & E) | (pre & post & E)].
      * exists "", post. by rewrite append_nil_l.
      * exists (String c pre), post. by rewrite append_cons, E.
    + intros ([| x pre] & post & E).
      * left. exists post. by rewrite append_nil_l in E.
      * right. rewrite append_cons in E. injection E as -> E. by exists pre, post.
Qed.

Lemma contains_trans (a b c : string) :
  contains a b = true -> contains b c = true -> contains a c = true.
Proof.
  rewrite !contains_iff. intros (p1 & q1 & ->) (p2 & q2 & ->).
  exists (p2 ++ p1), (q1 ++ q2). by rewrite !append_assoc.
Qed.

(** A keyword list catches whatever a list of longer keywords
    catches. *)
Lemma keywords_cover (short long : list string) (s : string) :
  forallb (fun kw => existsb (fun kw' => contains kw' kw) short) long = true ->
  existsb (fun kw => contains kw s) long = true ->
  existsb (fun kw => contains kw s) short = true.
Proof.
  rewrite forallb_forall, !existsb_exists. intros Hcover (kw & Hkw & Hin).
  destruct (proj1 (existsb_exists _ _) (Hcover kw Hkw)) as (kw' & Hkw' & Hsub).
  exists kw'. split; [done |]. by eapply contains_trans.
Qed.

Lemma lower_char_idem (c : ascii) : lower_char (lower_char c) = lower_char c.
Proof. destruct c as [[] [] [] [] [] [] [] []]; reflexivity. Qed.

Lemma lower_idem (s : string) : lower (lower s) = lower s.
Proof. induction s as [| c s IH]; simpl; [done |]. by rewrite lower_char_idem, IH. Qed.

End SubstringFacts.

(** ** Validation of a place *)

Section ValidationProperties.
Import PyStr Verified.
Local Open Scope string_scope.

Lemma keywords_same (long short : list string) (s : string) :
  forallb (fun kw => existsb (fun kw' => contains kw' kw) short) long = true ->
  forallb (fun kw => existsb (fun kw' => contains kw' kw) long) short = true ->
  existsb (fun kw => contains kw s) long = existsb (fun kw => contains kw s) short.
Proof.
  intros H1 H2. apply eq_true_iff_eq. split; by apply keywords_cover.
Qed.

(** X3. The name test of [is_charger_place] is decided by ten
    keywords in Cloud Function Option 01 and by fourteen in the script:
    a place is accepted exactly when its types hold the charging-station
    tag, or its lower-cased name holds one of these keywords, or its
    lower-cased address holds "charging" or "ev"; the longer keywords of
    the lists never change the verdict. *)
Theorem is_charger_place_by_core_keywords (details_json : option PlaceResult) :
  let result := result_of details_json in
  let name := lower (default "" (name result)) in
  let addr := lower (default "" (formatted_address result)) in
  is_charger_place_01 details_json
  = bool_decide ("electric_vehicle_charging_station" ∈ types result)
    || existsb (fun kw => contains kw name) Keywords.core_01
    || contains "charging" addr || contains "ev" addr
  /\ is_charger_place_script details_json
     = bool_decide ("electric_vehicle_charging_station" ∈ map lower (types result))
       || bool_decide ("charging_station" ∈ map lower (types result))
       || existsb (fun kw => contains kw name) Keywords.core_script
       || contains "charging" addr || contains "ev" addr.
Proof.
  intros result name addr. split.
  - unfold is_charger_place_01. fold result. fold name. fold addr.
    rewrite (keywords_same CHARGER_KEYWORDS_01 Keywords.core_01) by (vm_compute; reflexivity).
    destruct (bool_decide _); [done |].
    by destruct (existsb _ _).
  - unfold is_charger_place_script. fold result. fold name. fold addr.
    rewrite (keywords_same CHARGER_KEYWORDS_script Keywords.core_script) by (vm_compute; reflexivity).
    destruct (bool_decide _ || bool_decide _); [done |].
    by destruct (existsb _ _).
Qed.

(** X4. Every place that the validation of Cloud Function Option 01
    accepts is accepted by the validation of the extraction script. *)
Theorem script_accepts_what_option_01_accepts (details_json : option PlaceResult) :
  is_charger_place_01 details_json = true ->
  is_charger_place_script details_json = true.
Proof.
  unfold is_charger_place_01, is_charger_place_script.
  set (result := result_of details_json).
  set (name := lower (default "" (Verified.name result))).
  set (addr := lower (default "" (formatted_address result))).
  destruct (bool_decide ("electric_vehicle_charging_station" ∈ types result)) eqn:Htag.
  - intros _. apply bool_decide_eq_true in Htag.
    rewrite (bool_decide_eq_true_2
               ("electric_vehicle_charging_station" ∈ map lower (types result))); [done |].
    apply list_elem_of_fmap. by exists "electric_vehicle_charging_station".
  - destruct (bool_decide _ || bool_decide _); [done |].
    destruct (existsb (fun kw => contains kw name) CHARGER_KEYWORDS_01) eqn:Hkw.
    + intros _.
      rewrite (keywords_cover CHARGER_KEYWORDS_script CHARGER_KEYWORDS_01 name);
        [done | vm_compute; reflexivity | done].
    + intros Haddr. rewrite Haddr.
      by destruct (existsb (fun kw => contains kw name) CHARGER_KEYWORDS_script).
Qed.

(** A car park in Devonshire Row: the "ev" of the address is enough for
    both validations. *)
Lemma script_accepts_what_option_01_accepts_witness :
  is_charger_place_01 (Some MoreSamples.by_address) = true
  /\ is_charger_place_script (Some MoreSamples.by_address) = true.
Proof.
  split; [reflexivity |].
  apply script_accepts_what_option_01_accepts. reflexivity.
Defined.

End ValidationProperties.

(** ** Where the records of a sweep come from *)

Section ProvenanceProperties.
Import Reconciler Verified Provenance.

Lemma preserves_ret {A} (P : Run -> Prop) (a : A) : preserves P (ret a).
Proof. by intros st Hst. Qed.

Lemma preserves_bind {A B} (P : Run -> Prop) (m : M A) (k : A -> M B) :
  preserves P m -> (forall a : A, preserves P (k a)) -> preserves P (bind m k).
Proof.
  intros Hm Hk st Hst. unfold bind. specialize (Hm st Hst).
  destruct (m st) as [[a | x] st']; [by apply Hk | done].
Qed.


Lemma preserves_for_each {X} (P : Run -> Prop) (xs : list X) (body : X -> M unit) :
  (forall x : X, preserves P (body x)) -> preserves P (for_each xs body).
Proof.
  intros Hbody. induction xs as [| x xs IH]; simpl; [apply preserves_ret |].
  apply preserves_bind; [apply Hbody | by intros _].
Qed.

Lemma accepted_app (events more : list Event) :
  accepted (events ++ more) = accepted events ++ accepted more.
Proof. apply omap_app. Qed.

Section OneSweep.
Variable nearby_api : nat -> Q -> Q -> PyResult (list Candidate).
Variable details_api : nat -> string -> PyResult (option PlaceResult).
Variable ocm_api : nat -> option Q -> option Q -> OcmReply.
Variable OCM_API_KEY : option string.
Variables lat_points lng_points : list Q.
Variable is_charger_place : option PlaceResult -> bool.
Variable ocm_details : OcmReply -> string * string.
Variable located : PlaceResult -> Record_ -> Prop.

Lemma validated_app (events more : list Event) (rec : Record_) :
  validated details_api ocm_api is_charger_place ocm_details located events rec -> validated details_api ocm_api is_charger_place ocm_details located (events ++ more) rec.
Proof.
  intros (Hpid & t & u & details & Ht & Hd & Hv & Hl & Hu & Hrec).
  split; [done |]. exists t, u, details.
  repeat split; try done; by apply lookup_app_l_Some.
Qed.

Lemma sound_start : sound details_api ocm_api is_charger_place ocm_details located start.
Proof. split; [done |]. split; [done |]. intros rec Hin. by apply elem_of_nil in Hin. Qed.

(** An event other than an addition to [seen] changes nothing. *)
Lemma sound_emit (recs : list Record_) (s : gset string) (events : list Event) (ev : Event) :
  sound details_api ocm_api is_charger_place ocm_details located
    {| records := recs; seen := s; trace := events |} ->
  accepted [ev] = [] ->
  sound details_api ocm_api is_charger_place ocm_details located
    {| records := recs; seen := s; trace := events ++ [ev] |}.
Proof.
  intros (Hids & Hseen & Hrecs) Hev. cbn [records seen trace] in *.
  split; [| split]; cbn [records seen trace];
    rewrite ?accepted_app, ?Hev, ?app_nil_r; try done.
  intros rec Hin. by apply validated_app, Hrecs.
Qed.

(** The three steps that accept a place. *)
Lemma sound_accept (st : Run) (pid : string) (details : option PlaceResult)
    (lat lng : option Q) :
  sound details_api ocm_api is_charger_place ocm_details located st -> pid <> "" ->
  details_api (length (trace st)) pid = Return details ->
  is_charger_place details = true ->
  let rec := make_record pid (result_of details) lat lng
               (ocm_details (ocm_api (S (S (length (trace st)))) lat lng)) in
  located (result_of details) rec ->
  sound details_api ocm_api is_charger_place ocm_details located
    {| records := records st ++ [rec]; seen := {[pid]} ∪ seen st;
           trace := ((trace st ++ [Details_fetch pid]) ++ [Seen_add pid])
                    ++ [Ocm_lookup lat lng] |}.
Proof.
  intros (Hids & Hseen & Hrecs) Hpid Hd Hv rec Hl.
  rewrite <- !app_assoc. simpl.
  split; [| split]; simpl.
  - rewrite map_app, accepted_app, Hids. done.
  - rewrite accepted_app, Hseen. simpl. rewrite list_to_set_app_L. simpl.
    rewrite (right_id_L ∅ (∪)). apply (comm_L (∪)).
  - intros rec' [Hin | ->%list_elem_of_singleton]%elem_of_app.
    + by apply validated_app, Hrecs.
    + split; [done |].
      exists (length (trace st)), (S (S (length (trace st)))), details.
      repeat split; try done.
      * by rewrite list_lookup_middle.
      * rewrite lookup_app_r by lia.
        by replace (S (S (length (trace st))) - length (trace st))%nat with 2%nat by lia.
Qed.

End OneSweep.

Lemma searched_app (events more : list Event) :
  searched (events ++ more) = searched events ++ searched more.
Proof. apply omap_app. Qed.

Lemma searches_ret {A} (a : A) : searches (ret a) [].
Proof. intros st. simpl. by rewrite app_nil_r. Qed.

Lemma searches_bind {A B} (m : M A) (k : A -> M B) (first_ then_ : list (Q * Q)) :
  searches m first_ -> (forall a : A, searches (k a) then_) ->
  searches (bind m k) (first_ ++ then_).
Proof.
  intros Hm Hk st. unfold bind. specialize (Hm st).
  destruct (m st) as [[a | x] st'].
  - specialize (Hk a st'). destruct (k a st') as [[b | y] st''].
    + by rewrite Hk, Hm, app_assoc.
    + destruct Hk as (done_ & Hpre & Hk). exists (first_ ++ done_). split.
      * destruct Hpre as [rest ->]. exists rest. by rewrite app_assoc.
      * by rewrite Hk, Hm, app_assoc.
  - destruct Hm as (done_ & Hpre & Hm). exists done_. split; [| done].
    destruct Hpre as [rest ->]. exists (rest ++ then_). by rewrite app_assoc.
Qed.

Lemma searches_for_each {X} (xs : list X) (body : X -> M unit)
    (points : X -> list (Q * Q)) :
  (forall x : X, searches (body x) (points x)) ->
  searches (for_each xs body) (flat_map points xs).
Proof.
  intros Hbody. induction xs as [| x xs IH]; simpl; [apply searches_ret |].
  apply searches_bind; [apply Hbody | by intros _].
Qed.

Lemma searches_nothing {X} (xs : list X) (body : X -> M unit) :
  (forall x : X, searches (body x) []) -> searches (for_each xs body) [].
Proof.
  intros Hbody. induction xs as [| x xs IH]; simpl; [apply searches_ret |].
  apply (searches_bind _ _ [] []); [apply Hbody | by intros _].
Qed.

Lemma returns_ret {A} (a : A) : returns (ret a).
Proof. intros st. by exists a. Qed.

Lemma returns_bind {A B} (m : M A) (k : A -> M B) :
  returns m -> (forall a : A, returns (k a)) -> returns (bind m k).
Proof.
  intros Hm Hk st. unfold bind. destruct (Hm st) as [a Ha].
  destruct (m st) as [[a' | x] st']; [apply Hk | done].
Qed.

Lemma returns_for_each {X} (xs : list X) (body : X -> M unit) :
  (forall x : X, returns (body x)) -> returns (for_each xs body).
Proof.
  intros Hbody. induction xs as [| x xs IH]; simpl; [apply returns_ret |].
  apply returns_bind; [apply Hbody | by intros _].
Qed.

Lemma returns_try_except {A} (m handler : M A) :
  returns handler -> returns (try_except m handler).
Proof.
  intros Hh st. unfold try_except.
  destruct (m st) as [[a | x] st']; [by exists a | apply Hh].
Qed.

Section SweepOutcome.
Variable nearby_api : nat -> Q -> Q -> PyResult (list Candidate).
Variable details_api : nat -> string -> PyResult (option PlaceResult).
Variable ocm_api : nat -> option Q -> option Q -> OcmReply.
Variable OCM_API_KEY : option string.
Variables lat_points lng_points : list Q.

Lemma faithful_ret {A} (a : A) : faithful nearby_api details_api (ret a).
Proof. by intros st e. Qed.

Lemma faithful_bind {A B} (m : M A) (k : A -> M B) :
  faithful nearby_api details_api m ->
  (forall a : A, faithful nearby_api details_api (k a)) ->
  faithful nearby_api details_api (bind m k).
Proof.
  intros Hm Hk st e. unfold bind. specialize (Hm st e).
  destruct (m st) as [[a | x] st']; [apply Hk |].
  simpl in *. intros [= ->]. by apply Hm.
Qed.

Lemma faithful_for_each {X} (xs : list X) (body : X -> M unit) :
  (forall x : X, faithful nearby_api details_api (body x)) ->
  faithful nearby_api details_api (for_each xs body).
Proof.
  intros Hbody. induction xs as [| x xs IH]; simpl; [apply faithful_ret |].
  apply faithful_bind; [apply Hbody | by intros _].
Qed.

Lemma faithful_fetch_nearby (lat lng : Q) :
  faithful nearby_api details_api (fetch_nearby nearby_api lat lng).
Proof.
  intros st e. unfold fetch_nearby, bind, now, emit, lift. simpl.
  intros He. by exists (trace st), (Nearby_search lat lng).
Qed.

Lemma searches_fetch_nearby (lat lng : Q) :
  searches (fetch_nearby nearby_api lat lng) [(lat, lng)].
Proof.
  intros st. unfold fetch_nearby, bind, now, emit, lift. simpl.
  destruct (nearby_api (length (trace st)) lat lng) as [rs | x]; simpl.
  - by rewrite searched_app.
  - exists [(lat, lng)]. by rewrite searched_app.
Qed.

(** What a visit of Option 01 does, case by case. *)
Lemma visit_01_cases (r : Candidate) (st : Run) :
  visit_01 details_api ocm_api OCM_API_KEY r st = (Return tt, st)
  \/ exists pid : string,
       place_id r = Some pid /\ pid <> "" /\ (pid ∉ seen st)
       /\ let fetched := {| records := records st; seen := seen st;
                            trace := trace st ++ [Details_fetch pid] |} in
          match details_api (length (trace st)) pid with
          | Raise x =>
              visit_01 details_api ocm_api OCM_API_KEY r st = (Raise x, fetched)
          | Return details =>
              if is_charger_place_01 details then
                let res := result_of details in
                visit_01 details_api ocm_api OCM_API_KEY r st
                = (Return tt,
                   {| records :=
                        records st
                        ++ [make_record pid res (geometry_lat res) (geometry_lng res)
                              (fetch_ocm_details OCM_API_KEY
                                 (ocm_api (S (S (length (trace st))))
                                    (geometry_lat res) (geometry_lng res)))];
                      seen := {[pid]} ∪ seen st;
                      trace := ((trace st ++ [Details_fetch pid]) ++ [Seen_add pid])
                               ++ [Ocm_lookup (geometry_lat res) (geometry_lng res)] |})
              else visit_01 details_api ocm_api OCM_API_KEY r st = (Return tt, fetched)
          end.
Proof.
  unfold visit_01.
  destruct (place_id r) as [[| c pid'] |]; [by left | | by left].
  set (pid := String c pid').
  unfold bind, in_seen, fetch_place_details, bind, now, emit, lift, seen_add,
    fetch_ocm, records_append, ret. simpl.
  destruct (bool_decide (pid ∈ seen st)) eqn:Hknown; [by left |].
  apply bool_decide_eq_false in Hknown. right. exists pid.
  split; [done |]. split; [done |]. split; [done |]. simpl.
  destruct (details_api (length (trace st)) pid) as [details | x]; simpl; [| done].
  destruct (is_charger_place_01 details); simpl; [| done].
  rewrite !length_app. simpl.
  by replace (length (trace st) + 1 + 1)%nat with (S (S (length (trace st)))) by lia.
Qed.

(** What a visit of the script does, case by case. *)
Lemma visit_script_cases (r : Candidate) (st : Run) :
  visit_script details_api ocm_api OCM_API_KEY r st = (Return tt, st)
  \/ exists pid : string,
       place_id r = Some pid /\ pid <> "" /\ (pid ∉ seen st)
       /\ let fetched := {| records := records st; seen := seen st;
                            trace := trace st ++ [Details_fetch pid] |} in
          match details_api (length (trace st)) pid with
          | Raise x =>
              visit_script details_api ocm_api OCM_API_KEY r st = (Return tt, fetched)
          | Return details =>
              if is_charger_place_script details then
                let res := result_of details in
                let place_lat := or_else (geometry_lat res) (candidate_lat r) in
                let place_lng := or_else (geometry_lng res) (candidate_lng r) in
                visit_script details_api ocm_api OCM_API_KEY r st
                = (Return tt,
                   {| records :=
                        records st
                        ++ [make_record pid res place_lat place_lng
                              (fetch_ocm_details_script OCM_API_KEY
                                 (ocm_api (S (S (length (trace st)))) place_lat place_lng))];
                      seen := {[pid]} ∪ seen st;
                      trace := ((trace st ++ [Details_fetch pid]) ++ [Seen_add pid])
                               ++ [Ocm_lookup place_lat place_lng] |})
              else visit_script details_api ocm_api OCM_API_KEY r st = (Return tt, fetched)
          end.
Proof.
  unfold visit_script.
  destruct (place_id r) as [[| c pid'] |]; [by left | | by left].
  set (pid := String c pid').
  unfold bind, in_seen, try_except, fetch_place_details, bind, now, emit, lift,
    seen_add, fetch_ocm_script, records_append, ret. simpl.
  destruct (bool_decide (pid ∈ seen st)) eqn:Hknown; [by left |].
  apply bool_decide_eq_false in Hknown. right. exists pid.
  split; [done |]. split; [done |]. split; [done |]. simpl.
  destruct (details_api (length (trace st)) pid) as [details | x]; simpl; [| done].
  destruct (is_charger_place_script details); simpl; [| done].
  rewrite !length_app. simpl.
  by replace (length (trace st) + 1 + 1)%nat with (S (S (length (trace st)))) by lia.
Qed.

Lemma sound_visit_01 (r : Candidate) :
  preserves (sound details_api ocm_api is_charger_place_01
               (fetch_ocm_details OCM_API_KEY) located_01)
            (visit_01 details_api ocm_api OCM_API_KEY r).
Proof.
  intros st Hst.
  destruct (visit_01_cases r st) as [-> | (pid & _ & Hpid & _ & Hcase)]; [done |].
  simpl in Hcase.
  destruct (details_api (length (trace st)) pid) as [details | x] eqn:Hd.
  - destruct (is_charger_place_01 details) eqn:Hv; rewrite Hcase; simpl.
    + by apply sound_accept.
    + apply sound_emit; [by destruct st | done].
  - rewrite Hcase. simpl. apply sound_emit; [by destruct st | done].
Qed.



Lemma sound_fetch_nearby (is_charger_place : option PlaceResult -> bool)
    (ocm_details : OcmReply -> string * string) (located : PlaceResult -> Record_ -> Prop)
    (lat lng : Q) :
  preserves (sound details_api ocm_api is_charger_place ocm_details located)
            (fetch_nearby nearby_api lat lng).
Proof.
  intros st Hst. unfold fetch_nearby, bind, now, emit, lift. simpl.
  apply sound_emit; [by destruct st | done].
Qed.

Lemma sound_run_extraction :
  preserves (sound details_api ocm_api is_charger_place_01
               (fetch_ocm_details OCM_API_KEY) located_01)
            (run_extraction nearby_api details_api ocm_api OCM_API_KEY lat_points lng_points).
Proof.
  unfold run_extraction.
  apply preserves_for_each. intros lat. apply preserves_for_each. intros lng.
  apply preserves_bind; [apply sound_fetch_nearby |].
  intros results. apply preserves_for_each, sound_visit_01.
Qed.


Lemma sound_NoDup_ids (is_charger_place : option PlaceResult -> bool)
    (ocm_details : OcmReply -> string * string) (located : PlaceResult -> Record_ -> Prop)
    (st : Run) :
  run_invariant st ->
  sound details_api ocm_api is_charger_place ocm_details located st ->
  seen st = list_to_set (map r_place_id (records st))
  /\ NoDup (map r_place_id (records st)).
Proof.
  intros (_ & _ & _ & Hnodup) (Hids & Hseen & _). split; [| done].
  by rewrite Hids.
Qed.

(** X5. Whatever the services answer, and whether [run_extraction]
    (Cloud Function Option 01) returns or raises, the records it has
    collected are exactly the accepted places: their identifiers are the
    additions to [seen] in order, without repetition, and [seen] holds
    nothing else; each record has a non-empty identifier and was built
    from a details reply of this run that passed [is_charger_place],
    with the coordinates of that reply and the catalog reading for
    them. *)
Theorem run_extraction_records_are_validated :
  let st := snd (run_extraction nearby_api details_api ocm_api OCM_API_KEY
                   lat_points lng_points start) in
  map r_place_id (records st) = accepted (trace st)
  /\ seen st = list_to_set (map r_place_id (records st))
  /\ NoDup (map r_place_id (records st))
  /\ forall rec : Record_,
       rec ∈ records st ->
       validated details_api ocm_api is_charger_place_01
         (fetch_ocm_details OCM_API_KEY) located_01 (trace st) rec.
Proof.
  intros st.
  pose proof (sound_run_extraction start
                (sound_start details_api ocm_api _ _ _)) as Hsound.
  pose proof (keeps_run_extraction nearby_api details_api ocm_api OCM_API_KEY
                lat_points lng_points start invariant_start) as Hinv.
  fold st in Hsound, Hinv.
  destruct (sound_NoDup_ids _ _ _ st Hinv Hsound) as [Hseen Hnodup].
  destruct Hsound as (Hids & _ & Hrecs). done.
Qed.


Lemma searches_visit_01 (r : Candidate) :
  searches (visit_01 details_api ocm_api OCM_API_KEY r) [].
Proof.
  intros st.
  destruct (visit_01_cases r st) as [-> | (pid & _ & _ & _ & Hcase)];
    [by rewrite app_nil_r |].
  simpl in Hcase.
  destruct (details_api (length (trace st)) pid) as [details | x].
  - destruct (is_charger_place_01 details); rewrite Hcase; simpl;
      rewrite !searched_app; simpl; by rewrite ?app_nil_r.
  - rewrite Hcase. exists []. simpl. rewrite searched_app. simpl. by rewrite ?app_nil_r.
Qed.

Lemma faithful_visit_01 (r : Candidate) :
  faithful nearby_api details_api (visit_01 details_api ocm_api OCM_API_KEY r).
Proof.
  intros st e.
  destruct (visit_01_cases r st) as [-> | (pid & _ & _ & _ & Hcase)]; [done |].
  simpl in Hcase.
  destruct (details_api (length (trace st)) pid) as [details | x] eqn:Hd.
  - by destruct (is_charger_place_01 details); rewrite Hcase.
  - rewrite Hcase. simpl. intros [= ->].
    by exists (trace st), (Details_fetch pid).
Qed.

Lemma searches_visit_script (r : Candidate) :
  searches (visit_script details_api ocm_api OCM_API_KEY r) [].
Proof.
  intros st.
  destruct (visit_script_cases r st) as [-> | (pid & _ & _ & _ & Hcase)];
    [by rewrite app_nil_r |].
  simpl in Hcase.
  destruct (details_api (length (trace st)) pid) as [details | x].
  - destruct (is_charger_place_script details); rewrite Hcase; simpl;
      rewrite !searched_app; simpl; by rewrite ?app_nil_r.
  - rewrite Hcase. simpl. rewrite searched_app. simpl. by rewrite ?app_nil_r.
Qed.

Lemma returns_visit_script (r : Candidate) :
  returns (visit_script details_api ocm_api OCM_API_KEY r).
Proof.
  intros st. exists tt.
  destruct (visit_script_cases r st) as [-> | (pid & _ & _ & _ & Hcase)]; [done |].
  simpl in Hcase.
  destruct (details_api (length (trace st)) pid) as [details | x].
  - by destruct (is_charger_place_script details); rewrite Hcase.
  - by rewrite Hcase.
Qed.

Lemma grid_flat_map (points : list Q) (lat : Q) :
  map (fun lng => (lat, lng)) points = flat_map (fun lng => [(lat, lng)]) points.
Proof. induction points as [| lng points IH]; simpl; by rewrite ?IH. Qed.

Lemma faithful_run_extraction :
  faithful nearby_api details_api
    (run_extraction nearby_api details_api ocm_api OCM_API_KEY lat_points lng_points).
Proof.
  unfold run_extraction. apply faithful_for_each. intros lat.
  apply faithful_for_each. intros lng.
  apply faithful_bind; [apply faithful_fetch_nearby |].
  intros results. apply faithful_for_each, faithful_visit_01.
Qed.

(** X7. [run_extraction] (Cloud Function Option 01) searches the grid
    points once each, in the order of its two loops.  When it returns it
    has searched them all.  It raises only what a call to Google raised,
    and that call is the last thing it did: the grid points after it are
    not searched. *)
Theorem run_extraction_stops_at_failing_call :
  match run_extraction nearby_api details_api ocm_api OCM_API_KEY
          lat_points lng_points start with
  | (Return _, st) => searched (trace st) = grid lat_points lng_points
  | (Raise e, st) =>
      raised_by nearby_api details_api e (trace st)
      /\ searched (trace st) `prefix_of` grid lat_points lng_points
  end.
Proof.
  assert (searches (run_extraction nearby_api details_api ocm_api OCM_API_KEY
                      lat_points lng_points) (grid lat_points lng_points)) as Hs.
  { unfold run_extraction, grid. apply searches_for_each. intros lat.
    rewrite grid_flat_map. apply searches_for_each. intros lng.
    apply (searches_bind _ _ [(lat, lng)] []); [apply searches_fetch_nearby |].
    intros results. apply searches_nothing, searches_visit_01. }
  pose proof faithful_run_extraction as Hf.
  specialize (Hs start). specialize (Hf start).
  destruct (run_extraction _ _ _ _ _ _ start) as [[[] | e] st]; [done |].
  split; [by apply Hf |].
  destruct Hs as (done_ & Hpre & ->). done.
Qed.

End SweepOutcome.

End ProvenanceProperties.

(** ** The extraction script on the replies as they are served *)

Section ScriptOutcome.
Import Reconciler Verified Provenance Script.
Variable nearby_api : nat -> Q -> Q -> PyResult (list Candidate).
Variable details_api : nat -> string -> PyResult (option ServedResult).
Variable ocm_api : nat -> option Q -> option Q -> OcmReply.
Variable OCM_API_KEY : option string.
Variables lat_points lng_points : list Q.
Variable to_csv : list Record_ -> PyResult unit.

Lemma raises_on_null_types_returns {A} (m : M A) :
  returns m -> raises_on_null_types details_api m.
Proof. intros Hm st e He. destruct (Hm st) as [a Ha]. congruence. Qed.

Lemma raises_on_null_types_bind {A B} (m : M A) (k : A -> M B) :
  raises_on_null_types details_api m ->
  (forall a : A, raises_on_null_types details_api (k a)) ->
  raises_on_null_types details_api (bind m k).
Proof.
  intros Hm Hk st e. unfold bind. specialize (Hm st).
  destruct (m st) as [[a | x] st'] eqn:E; [apply Hk |].
  simpl. intros [= <-]. by apply Hm.
Qed.

Lemma raises_on_null_types_for_each {X} (xs : list X) (body : X -> M unit) :
  (forall x : X, raises_on_null_types details_api (body x)) ->
  raises_on_null_types details_api (for_each xs body).
Proof.
  intros Hbody. induction xs as [| x xs IH]; simpl.
  - apply raises_on_null_types_returns, returns_ret.
  - apply raises_on_null_types_bind; [apply Hbody | by intros _].
Qed.

(** What a visit does, case by case. *)
Lemma visit_cases (r : Candidate) (st : Run) :
  visit details_api ocm_api OCM_API_KEY r st = (Return tt, st)
  \/ exists pid : string,
       place_id r = Some pid /\ pid <> "" /\ (pid ∉ seen st)
       /\ let fetched := {| records := records st; seen := seen st;
                            trace := trace st ++ [Details_fetch pid] |} in
          match details_api (length (trace st)) pid with
          | Raise x =>
              visit details_api ocm_api OCM_API_KEY r st = (Return tt, fetched)
          | Return details =>
              if is_charger_place_script (guarded <$> details) then
                let res := result_of (guarded <$> details) in
                let place_lat := or_else (geometry_lat res) (candidate_lat r) in
                let place_lng := or_else (geometry_lng res) (candidate_lng r) in
                let asked :=
                  ((trace st ++ [Details_fetch pid]) ++ [Seen_add pid])
                  ++ [Ocm_lookup place_lat place_lng] in
                match joined_types details with
                | Raise x =>
                    visit details_api ocm_api OCM_API_KEY r st
                    = (Raise x,
                       {| records := records st; seen := {[pid]} ∪ seen st; trace := asked |})
                | Return _ =>
                    visit details_api ocm_api OCM_API_KEY r st
                    = (Return tt,
                       {| records :=
                            records st
                            ++ [make_record pid res place_lat place_lng
                                  (fetch_ocm_details_script OCM_API_KEY
                                     (ocm_api (S (S (length (trace st))))
                                        place_lat place_lng))];
                          seen := {[pid]} ∪ seen st;
                          trace := asked |})
                end
              else visit details_api ocm_api OCM_API_KEY r st = (Return tt, fetched)
          end.
Proof.
  unfold visit.
  destruct (place_id r) as [[| c pid'] |]; [by left | | by left].
  set (pid := String c pid').
  unfold bind, in_seen, try_except, fetch_place_details, bind, now, emit, lift,
    seen_add, fetch_ocm_script, records_append, ret. simpl.
  destruct (bool_decide (pid ∈ seen st)) eqn:Hknown; [by left |].
  apply bool_decide_eq_false in Hknown. right. exists pid.
  split; [done |]. split; [done |]. split; [done |]. simpl.
  destruct (details_api (length (trace st)) pid) as [details | x]; simpl; [| done].
  destruct (is_charger_place_script (guarded <$> details)); simpl; [| done].
  rewrite !length_app. simpl.
  replace (length (trace st) + 1 + 1)%nat with (S (S (length (trace st)))) by lia.
  by destruct (joined_types details).
Qed.

Lemma searches_visit (r : Candidate) :
  searches (visit details_api ocm_api OCM_API_KEY r) [].
Proof.
  intros st.
  destruct (visit_cases r st) as [-> | (pid & _ & _ & _ & Hcase)];
    [by rewrite app_nil_r |].
  simpl in Hcase.
  destruct (details_api (length (trace st)) pid) as [details | x].
  - destruct (is_charger_place_script (guarded <$> details)).
    + destruct (joined_types details); rewrite Hcase; simpl;
        [| exists []; split; [done |]];
        rewrite !searched_app; simpl; by rewrite ?app_nil_r.
    + rewrite Hcase. simpl. rewrite searched_app. simpl. by rewrite ?app_nil_r.
  - rewrite Hcase. simpl. rewrite searched_app. simpl. by rewrite ?app_nil_r.
Qed.

(** A visit raises on a null [types] only, once the place is accepted
    and the catalog asked. *)
Lemma raises_on_null_types_visit (r : Candidate) :
  raises_on_null_types details_api (visit details_api ocm_api OCM_API_KEY r).
Proof.
  intros st e.
  destruct (visit_cases r st) as [-> | (pid & _ & _ & _ & Hcase)]; [done |].
  simpl in Hcase.
  destruct (details_api (length (trace st)) pid) as [details | x] eqn:Hreply;
    [| by rewrite Hcase].
  destruct (is_charger_place_script (guarded <$> details)) eqn:Hvalid;
    [| by rewrite Hcase].
  destruct (joined_types details) as [text | x] eqn:Hjoin; rewrite Hcase; [done |].
  simpl. intros [= ->].
  destruct details as [res |]; [| done]. unfold joined_types in Hjoin.
  destruct (served_types res) eqn:Htypes; try done. injection Hjoin as <-.
  split; [done |].
  exists (length (trace st)), pid, res. eexists _, _.
  split; [by rewrite <- !app_assoc, lookup_app_r, Nat.sub_diag |].
  split; [done |]. split; [done |]. split; [done |].
  split; [rewrite <- !app_assoc, lookup_app_r by lia;
          by replace (S (length (trace st)) - length (trace st)) with 1 by lia |].
  split; [rewrite <- !app_assoc, lookup_app_r by lia;
          by replace (S (S (length (trace st))) - length (trace st)) with 2 by lia |].
  rewrite !length_app. simpl. lia.
Qed.

Lemma searches_scan :
  searches (scan nearby_api details_api ocm_api OCM_API_KEY lat_points lng_points)
           (grid lat_points lng_points).
Proof.
  assert (forall lat lng,
             searches (try_except (bind (fetch_nearby nearby_api lat lng)
                                        (fun rs => ret (Some rs))) (ret None))
                      [(lat, lng)]) as Htry.
  { intros lat lng st. unfold try_except, fetch_nearby, bind, now, emit, lift, ret. simpl.
    destruct (nearby_api (length (trace st)) lat lng) as [rs | x]; simpl;
      by rewrite searched_app. }
  unfold scan, grid. apply searches_for_each. intros lat.
  rewrite grid_flat_map. apply searches_for_each. intros lng.
  apply (searches_bind _ _ [(lat, lng)] []); [apply Htry |].
  intros [results |]; [apply searches_nothing, searches_visit | apply searches_ret].
Qed.

Lemma raises_on_null_types_scan :
  raises_on_null_types details_api
    (scan nearby_api details_api ocm_api OCM_API_KEY lat_points lng_points).
Proof.
  unfold scan. apply raises_on_null_types_for_each. intros lat.
  apply raises_on_null_types_for_each. intros lng.
  apply raises_on_null_types_bind.
  - apply raises_on_null_types_returns, returns_try_except, returns_ret.
  - intros [results |].
    + apply raises_on_null_types_for_each, raises_on_null_types_visit.
    + apply raises_on_null_types_returns, returns_ret.
Qed.

Lemma for_each_ext {X} (xs : list X) (body body' : X -> M unit) :
  (forall (x : X) (st : Run), body x st = body' x st) ->
  forall st : Run, for_each xs body st = for_each xs body' st.
Proof.
  intros Hbody. induction xs as [| x xs IH]; intros st; simpl; [done |].
  unfold bind. rewrite Hbody. destruct (body' x st) as [[[] | e] st']; [apply IH | done].
Qed.

(** When no reply has a null [types], the two loops do what they do on
    replies whose [types] is a list. *)
Lemma scan_on_typed_replies (st : Run) :
  types_never_null details_api ->
  scan nearby_api details_api ocm_api OCM_API_KEY lat_points lng_points st
  = Verified.fetch_central_london_verified nearby_api (typed details_api) ocm_api
      OCM_API_KEY lat_points lng_points st.
Proof.
  intros Htyped. unfold scan, Verified.fetch_central_london_verified.
  revert st. apply for_each_ext. intros lat. apply for_each_ext. intros lng st.
  unfold bind. destruct (try_except _ _ st) as [[[results |] | e] st']; [| done | done].
  revert st'. apply for_each_ext. clear st. intros r st.
  unfold visit, visit_script. destruct (place_id r) as [[| c pid'] |]; [done | | done].
  set (pid := String c pid').
  unfold bind, in_seen, try_except, fetch_place_details, Verified.fetch_place_details,
    bind, now, emit, lift, typed, ret. simpl.
  destruct (bool_decide (pid ∈ seen st)); [done |].
  destruct (details_api (length (trace st)) pid) as [details | x] eqn:Hreply; simpl; [| done].
  destruct (is_charger_place_script (guarded <$> details)); simpl; [| done].
  unfold seen_add, fetch_ocm_script, bind, now, emit, ret, records_append. simpl.
  destruct details as [res |]; simpl; [| done].
  specialize (Htyped _ _ _ Hreply). by destruct (served_types res).
Qed.

(** X8. [fetch_central_london_verified] (the extraction script), on
    replies whose [types] may be missing or null: a failing nearby
    search skips the grid point and a failing details lookup skips the
    place, so the calls to the services never make it raise.  It raises
    in two cases only: [TypeError], out of the joining of the types of
    a place that it had accepted (identifier in [seen], catalog asked)
    and whose reply has a null [types], which the record building does
    not guard; and whatever the writing of the CSV raises, once every
    grid point has been searched.  When it returns, every grid point
    was searched once, in the order of the two loops, and the frame
    written is the one returned. *)
Theorem script_sweep_survives_failures :
  match fetch_central_london_verified nearby_api details_api ocm_api OCM_API_KEY
          lat_points lng_points to_csv start with
  | (Return df, st) =>
      searched (trace st) = grid lat_points lng_points
      /\ df = records st
      /\ to_csv df = Return tt
  | (Raise e, st) =>
      (searched (trace st) = grid lat_points lng_points
       /\ to_csv (records st) = Raise e)
      \/ (e = "TypeError" /\ null_types_accepted details_api (trace st))
  end.
Proof.
  unfold fetch_central_london_verified, bind.
  pose proof (searches_scan start) as Hs.
  pose proof (raises_on_null_types_scan start) as Hr.
  destruct (scan _ _ _ _ _ _ start) as [[[] | e] st].
  - unfold save. simpl in Hs. destruct (to_csv (records st)) as [[] | e] eqn:Hcsv.
    + by rewrite Hcsv.
    + left. by split.
  - right. by apply Hr.
Qed.

(** A charging station with a null [types] field, found by its name:
    the script raises after the catalog lookup, and nothing is
    written. *)
Lemma script_raises_on_null_types :
  fetch_central_london_verified MoreSamples.nearby_one MoreSamples.details_null_types
    Samples.no_catalog (Some "key"%string) Samples.two_anchors Samples.one_column
    (fun _ => Return tt) start
  = (Raise "TypeError",
     {| records := [];
        seen := {["ChIJ-N"%string]};
        trace := [Nearby_search 51.48 (-0.2); Details_fetch "ChIJ-N"; Seen_add "ChIJ-N";
                  Ocm_lookup (Some 51.5%Q) (Some (-0.1)%Q)] |}).
Proof.
  by vm_compute.
Qed.

End ScriptOutcome.

(** ** Rate-limited fetch *)

Section BackoffProperties.
Import PyStr Fetch Backoff.
Context {Body : Type}.
Variable longest_sleep : nat -> Z.
Variable network : nat -> Reply Body.
Variable max_retries : nat.

(** What [time.sleep] does with a wait. *)
Lemma sleep_cases (secs : Z) (e : Effort) :
  (sleep longest_sleep secs e = Raise "OverflowError" /\ (sleep_limit < Z.abs secs)%Z)
  \/ (sleep longest_sleep secs e = Raise "ValueError"
      /\ (- sleep_limit <= secs < 0)%Z)
  \/ (sleep longest_sleep secs e = Raise "OSError"
      /\ (0 <= secs <= sleep_limit)%Z /\ (longest_sleep (length (slept e)) < secs)%Z)
  \/ (sleep longest_sleep secs e
      = Return {| requests := requests e; slept := slept e ++ [secs] |}
      /\ (0 <= secs <= sleep_limit)%Z /\ (secs <= longest_sleep (length (slept e)))%Z).
Proof.
  unfold sleep.
  destruct (Z.ltb_spec sleep_limit (Z.abs secs)); [by left |]. right.
  destruct (Z.ltb_spec secs 0); [left; split; [done | lia] |]. right.
  destruct (Z.ltb_spec (longest_sleep (length (slept e))) secs);
    [left | right]; (split; [done | lia]).
Qed.

(** One attempt of the loop: an answer, a wait and another attempt, or
    a wait that raises. *)
Lemma loop_step (fuel retry : nat) (e : Effort) :
  retry < max_retries ->
  requests e = retry ->
  length (slept e) = retry ->
  (exists response : Response Body,
     network retry = Responds response
     /\ failed (network retry) = false
     /\ safe_get_loop longest_sleep network max_retries (S fuel) retry e
        = Some (Return (Some response), {| requests := S retry; slept := slept e |}))
  \/ (failed (network retry) = true
      /\ safe_get_loop longest_sleep network max_retries (S fuel) retry e
         = safe_get_loop longest_sleep network max_retries fuel (retry + 1)
             {| requests := S retry; slept := slept e ++ [backoff network retry] |})
  \/ (failed (network retry) = true
      /\ exists x : string,
           refused longest_sleep network retry x
           /\ safe_get_loop longest_sleep network max_retries (S fuel) retry e
              = Some (Raise x, {| requests := S retry; slept := slept e |})).
Proof.
  intros Hlt Hreq Hlen.
  assert (Hplain : forall e' : Effort,
             requests e' = S retry -> slept e' = slept e ->
             backoff network retry = (2 ^ Z.of_nat retry)%Z ->
             delay_readable (network retry) ->
             (match sleep longest_sleep (2 ^ Z.of_nat retry) e' with
              | Raise x => Some (Raise x, e')
              | Return e'' =>
                  safe_get_loop longest_sleep network max_retries fuel (retry + 1) e''
              end
              = safe_get_loop longest_sleep network max_retries fuel (retry + 1)
                  {| requests := S retry; slept := slept e ++ [backoff network retry] |})
             \/ exists x : string,
                  refused longest_sleep network retry x
                  /\ match sleep longest_sleep (2 ^ Z.of_nat retry) e' with
                     | Raise x => Some (Raise x, e')
                     | Return e'' =>
                         safe_get_loop longest_sleep network max_retries fuel (retry + 1) e''
                     end
                     = Some (Raise x, {| requests := S retry; slept := slept e |})).
  { intros e' Hreq' Hslept Hback Hread.
    pose proof (power_of_two_nonneg retry) as Hpos.
    assert (e' = {| requests := S retry; slept := slept e |}) as He'
        by (destruct e'; simpl in *; by subst).
    destruct (sleep_cases (2 ^ Z.of_nat retry) e')
      as [[Hs Hc] | [[Hs Hc] | [[Hs [Hc Hc']] | [Hs _]]]]; rewrite Hs.
    - right. exists "OverflowError". split; [| by rewrite He'].
      right. left. split; [done |]. by rewrite Hback.
    - lia.
    - right. exists "OSError". split; [| by rewrite He'].
      right. right. rewrite Hback. rewrite Hslept, Hlen in Hc'.
      split; [done |]. split; [done |]. split; [lia | done].
    - left. by rewrite Hreq', Hslept, Hback. }
  simpl. rewrite (proj2 (Nat.ltb_lt retry max_retries)) by done.
  rewrite Hreq. unfold failed.
  destruct (network retry) as [| response] eqn:Hnet.
  - right.
    destruct (Hplain (request_made e)) as [Hgo | (x & Hx & Hstop)];
      [simpl; by rewrite Hreq | done | unfold backoff; by rewrite Hnet
      | rewrite ?Hnet; done | by left | right; split; [done | by exists x]].
  - destruct (status_code response =? 429)%Z eqn:E429.
    + right. simpl.
      assert (Hback : backoff network retry
                      = match Retry_After response with
                        | None | Some EmptyString => (2 ^ Z.of_nat retry)%Z
                        | Some retry_after => default 0%Z (py_int retry_after)
                        end)
        by (unfold backoff; by rewrite Hnet, E429).
      assert (Hreadable : delay_readable (Responds response)
                <-> match Retry_After response with
                    | None | Some EmptyString => True
                    | Some retry_after =>
                        exists n : Z, py_int retry_after = Some n /\ (0 <= n)%Z
                    end).
      { unfold delay_readable. apply Z.eqb_eq in E429.
        split; [intros H; by apply H | by intros H _]. }
      unfold wait_time_429.
      destruct (Retry_After response) as [[| c s] |].
      * destruct (Hplain (request_made e)) as [Hgo | (x & Hx & Hstop)];
          [simpl; by rewrite Hreq | done | done | by apply Hreadable
          | by left | right; split; [done | by exists x]].
      * destruct (py_int (String c s)) as [n |] eqn:Hint.
        -- simpl in Hback.
           assert (request_made e = {| requests := S retry; slept := slept e |}) as He'
               by (unfold request_made; by rewrite Hreq).
           destruct (sleep_cases n (request_made e))
             as [[Hs Hc] | [[Hs Hc] | [[Hs [Hc Hc']] | [Hs _]]]]; rewrite Hs.
           ++ right. split; [done |]. exists "OverflowError". split; [| by rewrite He'].
              right. left. split; [done |]. by rewrite Hback.
           ++ right. split; [done |]. exists "ValueError". split; [| by rewrite He'].
              left. split; [done |]. rewrite Hback, Hnet. split; [| lia].
              intros (n' & [= <-] & Hn')%Hreadable. lia.
           ++ right. split; [done |]. exists "OSError". split; [| by rewrite He'].
              right. right. rewrite Hback, Hnet. simpl in Hc'. rewrite Hlen in Hc'.
              split; [done |]. split; [| split; [lia | done]].
              apply Hreadable. exists n. split; [done | lia].
           ++ left. split; [done |]. simpl. by rewrite Hreq, Hback.
        -- right. split; [done |]. exists "ValueError".
           split; [| unfold request_made; by rewrite Hreq].
           left. split; [done |]. rewrite Hback, Hnet.
           split; [| simpl; unfold sleep_limit; lia].
           by intros (n' & [=] & _)%Hreadable.
      * destruct (Hplain (request_made e)) as [Hgo | (x & Hx & Hstop)];
          [simpl; by rewrite Hreq | done | done | by apply Hreadable
          | by left | right; split; [done | by exists x]].
    + simpl. destruct (raise_for_status response) eqn:Hstatus.
      * right.
        destruct (Hplain (request_made e)) as [Hgo | (x & Hx & Hstop)];
          [simpl; by rewrite Hreq | done | unfold backoff; by rewrite Hnet, E429
          | rewrite ?Hnet; simpl; intros E; apply Z.eqb_neq in E429; done
          | by left | right; split; [done | by exists x]].
      * left. exists response. split; [done |]. split; [done |].
        unfold request_made. by rewrite Hreq.
Qed.

Lemma loop_ends (k retry : nat) (e : Effort) :
  retry + k = max_retries ->
  requests e = retry ->
  length (slept e) = retry ->
  exists (out : PyResult (option (Response Body))) (e' : Effort),
    safe_get_loop longest_sleep network max_retries (S k) retry e = Some (out, e')
    /\ requests e' <= max_retries
    /\ match out with
       | Return _ => True
       | Raise x =>
           exists attempt : nat,
             requests e' = S attempt
             /\ failed (network attempt) = true
             /\ refused longest_sleep network attempt x
       end.
Proof.
  revert retry e. induction k as [| k IH]; intros retry e Hk Hreq Hlen.
  - assert (retry = max_retries) as -> by lia.
    rewrite loop_exhausted. exists (Return None), e. split; [done |]. split; [lia | done].
  - assert (Hlt : retry < max_retries) by lia.
    destruct (loop_step (S k) retry e Hlt Hreq Hlen)
      as [(response & _ & _ & ->) | [[_ ->] | (Hfail & x & Hx & ->)]].
    + eexists _, _. split; [done |]. simpl. split; [lia | done].
    + apply IH; simpl; [lia | lia | rewrite length_app; simpl; lia].
    + eexists _, _. split; [done |]. simpl. split; [lia |]. by exists retry.
Qed.

(** X9. [safe_get] always comes to an end within [max_retries]
    requests, whatever the network and the clock do.  It raises only
    out of the wait that follows a failed attempt: [ValueError] when
    the [Retry-After] of a throttled reply (429) does not read as an
    integer or reads as a negative one, [OverflowError] when the wait
    is longer than [time.sleep] can convert (9223372036 seconds), and
    [OSError] when the end of the wait does not fit the clock; every
    other failure is retried or skipped. *)
Theorem safe_get_raises_only_on_refused_wait :
  exists (out : PyResult (option (Response Body))) (e : Effort),
    safe_get longest_sleep network max_retries = Some (out, e)
    /\ requests e <= max_retries
    /\ match out with
       | Return _ => True
       | Raise x =>
           exists attempt : nat,
             requests e = S attempt
             /\ failed (network attempt) = true
             /\ refused longest_sleep network attempt x
       end.
Proof. by apply (loop_ends max_retries 0). Qed.

Lemma sum_powers_of_two (n : nat) :
  foldr Z.add 0%Z (map (fun i : nat => 2 ^ Z.of_nat i)%Z (seq 0 n)) = (2 ^ Z.of_nat n - 1)%Z.
Proof.
  induction n as [| n IH]; [done |].
  rewrite seq_S, map_app, foldr_app. simpl.
  assert (forall (l : list Z) (a : Z), foldr Z.add a l = (foldr Z.add 0 l + a)%Z) as Hshift.
  { induction l as [| x l IHl]; intros a; simpl; [lia | rewrite IHl; lia]. }
  rewrite Hshift, IH. rewrite Nat2Z.inj_succ, Z.pow_succ_r by lia. lia.
Qed.

Lemma backoff_plain (n : nat) :
  no_retry_after (network n) -> backoff network n = (2 ^ Z.of_nat n)%Z.
Proof.
  unfold no_retry_after, backoff. destruct (network n) as [| response]; [done |].
  intros ->. by destruct (status_code response =? 429)%Z.
Qed.

(** X10. When no reply carries a [Retry-After] header and [time.sleep]
    accepts the wait after every failed attempt (as it does for the
    waits of the default bound), [safe_get] sleeps 1, 2, 4, ... seconds
    after its failed attempts: after [failures] of them it has slept
    two to the power [failures] minus one second in all, so never more
    than two to the power [max_retries] minus one (31 seconds with the
    default of 5). *)
Theorem safe_get_sleeps_powers_of_two :
  (forall n : nat, n < max_retries -> no_retry_after (network n)) ->
  (forall n : nat, n < max_retries ->
                   failed (network n) = true -> wait_accepted longest_sleep network n) ->
  exists (r : option (Response Body)) (e : Effort) (failures : nat),
    safe_get longest_sleep network max_retries = Some (Return r, e)
    /\ failures <= max_retries
    /\ (forall n : nat, n < failures -> failed (network n) = true)
    /\ slept e = map (fun i : nat => 2 ^ Z.of_nat i)%Z (seq 0 failures)
    /\ total_slept e = (2 ^ Z.of_nat failures - 1)%Z
    /\ (total_slept e <= 2 ^ Z.of_nat max_retries - 1)%Z.
Proof.
  intros Hplain Hwait.
  assert (forall n, n < max_retries -> delay_readable (network n)) as Hread.
  { intros n Hn. specialize (Hplain n Hn). unfold delay_readable, no_retry_after in *.
    destruct (network n) as [| response]; [done |]. by rewrite Hplain. }
  destruct (loop_spec longest_sleep network max_retries max_retries 0
              {| requests := 0; slept := [] |})
    as (r & failures & Hrange & Hloop & Hfailed & Hr);
    [lia | done | done | intros; apply Hread; lia | intros; apply Hwait; (lia || done) |].
  rewrite Nat.sub_0_r in Hloop. simpl in Hloop.
  assert (map (backoff network) (seq 0 failures)
          = map (fun i : nat => 2 ^ Z.of_nat i)%Z (seq 0 failures)) as Hsleeps.
  { apply map_ext_in. intros n Hn%in_seq. apply backoff_plain, Hplain.
    destruct r; [destruct Hr |]; lia. }
  rewrite Hsleeps in Hloop.
  eexists r, _, failures. split; [exact Hloop |].
  split; [lia |]. split; [intros; apply Hfailed; lia |].
  split; [done |]. unfold total_slept. simpl. rewrite sum_powers_of_two.
  split; [done |].
  assert (2 ^ Z.of_nat failures <= 2 ^ Z.of_nat max_retries)%Z
    by (apply Z.pow_le_mono_r; lia).
  lia.
Qed.

End BackoffProperties.

Section BackoffWitnesses.
Import PyStr Fetch Backoff Samples.

(** Five replies 503, none with a [Retry-After]: 31 seconds asleep. *)
Lemma safe_get_sleeps_powers_of_two_witness :
  (forall n : nat, n < 5 -> no_retry_after (five_failures_then_answer n))
  /\ (forall n : nat, n < 5 ->
                      failed (five_failures_then_answer n) = true ->
                      wait_accepted young_clock five_failures_then_answer n)
  /\ exists (r : option (Response unit)) (e : Effort) (failures : nat),
       safe_get young_clock five_failures_then_answer 5 = Some (Return r, e)
       /\ failures <= 5
       /\ (forall n : nat, n < failures -> failed (five_failures_then_answer n) = true)
       /\ slept e = map (fun i : nat => 2 ^ Z.of_nat i)%Z (seq 0 failures)
       /\ total_slept e = (2 ^ Z.of_nat failures - 1)%Z
       /\ (total_slept e <= 2 ^ Z.of_nat 5 - 1)%Z.
Proof.
  assert (forall n : nat, n < 5 -> no_retry_after (five_failures_then_answer n)) as Hplain.
  { intros n Hn. by do 5 (destruct n as [| n]; [done |]); lia. }
  assert (forall n : nat, n < 5 ->
                          failed (five_failures_then_answer n) = true ->
                          wait_accepted young_clock five_failures_then_answer n) as Hwait.
  { intros n Hn _. by do 5 (destruct n as [| n]; [by split |]); lia. }
  split; [exact Hplain |]. split; [exact Hwait |].
  exact (safe_get_sleeps_powers_of_two young_clock five_failures_then_answer 5 Hplain Hwait).
Defined.

End BackoffWitnesses.

(** ** Incremental sync, whatever the table *)

Section SyncOutcome.
Import Pandas BigQuery Sync.
Context {Row K : Type} `{Countable K}.
Variable Place_Id : Row -> K.

Lemma not_isin_none (df : list Row) : not_isin Place_Id [] df = df.
Proof.
  unfold not_isin. induction df as [| r df IH]; [done |].
  rewrite filter_cons_True by apply not_elem_of_nil. by rewrite IH.
Qed.

(** Both loaders leave the rows of the table, followed by the rows of
    the batch with a new key. *)
Lemma load_outcome (df : list Row) (client : Client Row) :
  let rows := default [] (table client) in
  let added := not_isin Place_Id (map Place_Id rows) df in
  exists (status1 status2 : string) (after1 after2 : Client Row),
    load_to_bigquery_incremental_01 Place_Id df client = Return (status1, after1)
    /\ load_to_bigquery_incremental_02 Place_Id df client = Return (status2, after2)
    /\ table after1 = Some (rows ++ added)
    /\ table after2 = Some (rows ++ added).
Proof.
  destruct (table client) as [rows |] eqn:Ht; simpl.
  - rewrite (load_01_existing _ _ rows), (load_02_existing _ _ rows) by done.
    destruct (not_isin Place_Id (map Place_Id rows) df) as [| r l];
      eexists _, _, _, _; (split; [done |]); (split; [done |]); simpl;
      by rewrite ?Ht, ?app_nil_r.
  - rewrite load_01_missing, load_02_missing, not_isin_none by done.
    by eexists _, _, _, _.
Qed.

(** X11. Whatever the state of the table (missing, empty or filled),
    both loaders return without raising: the one load job that the
    table can refuse, a WRITE_EMPTY into a table with rows, is never
    asked for.  The table then holds the rows it held, in their order,
    followed by rows of the batch: no row is removed or replaced, every
    key of the batch is in the table, and every row of the table was
    there before or comes from the batch. *)
Theorem sync_only_appends (df : list Row) (client : Client Row) :
  exists (status1 status2 : string) (after1 after2 : Client Row) (rows_after : list Row),
    load_to_bigquery_incremental_01 Place_Id df client = Return (status1, after1)
    /\ load_to_bigquery_incremental_02 Place_Id df client = Return (status2, after2)
    /\ table after1 = Some rows_after
    /\ table after2 = Some rows_after
    /\ default [] (table client) `prefix_of` rows_after
    /\ (forall r : Row, r ∈ df -> Place_Id r ∈ map Place_Id rows_after)
    /\ (forall r : Row, r ∈ rows_after -> r ∈ default [] (table client) \/ r ∈ df).
Proof.
  destruct (load_outcome df client) as (s1 & s2 & a1 & a2 & H1 & H2 & Ht1 & Ht2).
  set (rows := default [] (table client)) in *.
  exists s1, s2, a1, a2, (rows ++ not_isin Place_Id (map Place_Id rows) df).
  repeat (split; [done |]).
  split; [by eexists |]. split.
  - intros r Hr. rewrite map_app. apply elem_of_app.
    destruct (decide (Place_Id r ∈ map Place_Id rows)) as [Y | N]; [by left | right].
    apply list_elem_of_fmap. exists r. split; [done |].
    unfold not_isin. by apply list_elem_of_filter.
  - intros r [Hr | Hr]%elem_of_app; [by left | right].
    unfold not_isin in Hr. by apply list_elem_of_filter in Hr as [_ Hr].
Qed.

(** X12. A table with one row per key stays so when the batch has one
    row per key: after either loader no two rows of the table share a
    key. *)
Theorem sync_keeps_keys_unique (df : list Row) (client : Client Row) :
  NoDup (map Place_Id (default [] (table client))) ->
  NoDup (map Place_Id df) ->
  exists (status1 status2 : string) (after1 after2 : Client Row) (rows_after : list Row),
    load_to_bigquery_incremental_01 Place_Id df client = Return (status1, after1)
    /\ load_to_bigquery_incremental_02 Place_Id df client = Return (status2, after2)
    /\ table after1 = Some rows_after
    /\ table after2 = Some rows_after
    /\ NoDup (map Place_Id rows_after).
Proof.
  intros Hrows Hdf.
  destruct (load_outcome df client) as (s1 & s2 & a1 & a2 & H1 & H2 & Ht1 & Ht2).
  set (rows := default [] (table client)) in *.
  exists s1, s2, a1, a2, (rows ++ not_isin Place_Id (map Place_Id rows) df).
  repeat (split; [done |]).
  rewrite map_app. apply NoDup_app. split; [done |]. split.
  - intros k Hk (r & -> & Hr)%list_elem_of_fmap.
    unfold not_isin in Hr. by apply list_elem_of_filter in Hr as [Hnew _].
  - unfold not_isin. by apply NoDup_map_filter.
Qed.

End SyncOutcome.

Section SyncWitnesses.
Import Pandas BigQuery Sync.

(** A table with places 1 and 2, a batch with places 2 and 3. *)
Lemma sync_keeps_keys_unique_witness :
  exists (status1 status2 : string) (after1 after2 : Client Z) (rows_after : list Z),
    load_to_bigquery_incremental_01 (fun r : Z => r) [2%Z; 3%Z]
      {| table := Some [1%Z; 2%Z]; jobs := []; printed := [] |} = Return (status1, after1)
    /\ load_to_bigquery_incremental_02 (fun r : Z => r) [2%Z; 3%Z]
         {| table := Some [1%Z; 2%Z]; jobs := []; printed := [] |} = Return (status2, after2)
    /\ table after1 = Some rows_after
    /\ table after2 = Some rows_after
    /\ NoDup (map (fun r : Z => r) rows_after).
Proof.
  apply (sync_keeps_keys_unique (fun r : Z => r) [2%Z; 3%Z]
           {| table := Some [1%Z; 2%Z]; jobs := []; printed := [] |}).
  - simpl. apply NoDup_cons. split; [compute_done |]. apply NoDup_singleton.
  - simpl. apply NoDup_cons. split; [compute_done |]. apply NoDup_singleton.
Defined.

End SyncWitnesses.

(** ** Nearby search, page by page *)

Section PaginationProperties.
Import Fetch Pagination.
Context {Entry : Type}.
Variable network : nat -> Reply (PyResult (Page Entry)).

(** The requests and sleeps before the n-th request. *)
Lemma request_page_next (pause : Q) (n : nat) :
  n = 0 \/ token_given (token_before network n) = true ->
  request_page pause (token_before network n)
    {| pagetokens := map (token_before network) (seq 0 n);
       sleeps := replicate (pred n) pause |}
  = calls_until network pause n.
Proof.
  unfold request_page, calls_until. intros [-> | Hgiven]; [done |].
  rewrite Hgiven. simpl pagetokens. simpl sleeps.
  destruct n as [| n]; [done |].
  rewrite (seq_S (S n)), map_app. simpl pred.
  by rewrite <- replicate_cons_app.
Qed.

Lemma gathered_next (n : nat) (page : Page Entry) :
  page_at network n = Some page ->
  gathered network (S n) = gathered network n ++ results page.
Proof.
  intros Hpage. unfold gathered.
  rewrite seq_S, omap_app, flat_map_app. simpl. rewrite Hpage. simpl.
  by rewrite app_nil_r.
Qed.

Lemma continues_token (n : nat) :
  continues_01 network n = true -> token_given (token_before network (S n)) = true.
Proof.
  unfold continues_01. simpl. by destruct (page_at network n).
Qed.

Lemma continues_script_01 (n : nat) :
  continues_script network n = true -> continues_01 network n = true.
Proof.
  unfold continues_script. destruct (network n); [done |].
  by intros [_ ?]%andb_true_iff.
Qed.

(** One turn of the loop of Option 01 that finds a token. *)
Lemma loop_01_continues (n fuel : nat) :
  n = 0 \/ token_given (token_before network n) = true ->
  continues_01 network n = true ->
  fetch_nearby_loop_01 network (S fuel) (token_before network n) (gathered network n)
    {| pagetokens := map (token_before network) (seq 0 n);
       sleeps := replicate (pred n) 2%Q |}
  = fetch_nearby_loop_01 network fuel (token_before network (S n))
      (gathered network (S n))
      {| pagetokens := map (token_before network) (seq 0 (S n));
         sleeps := replicate (pred (S n)) 2%Q |}.
Proof.
  intros Hgiven Hcont. cbn [fetch_nearby_loop_01].
  rewrite request_page_next by done. cbn [pagetokens].
  rewrite length_map, length_seq.
  pose proof (gathered_next n) as Hnext.
  change (token_before network (S n)) with (page_at network n ≫= next_page_token).
  unfold continues_01 in Hcont. unfold page_at in Hcont, Hnext |- *.
  destruct (network n) as [| response]; [done |].
  destruct (json response) as [page | x]; [| done].
  cbv beta iota zeta in Hcont |- *. rewrite Hcont. by rewrite (Hnext page).
Qed.

(** The last turn. *)
Lemma loop_01_ends (n fuel : nat) :
  n = 0 \/ token_given (token_before network n) = true ->
  continues_01 network n = false ->
  fetch_nearby_loop_01 network (S fuel) (token_before network n) (gathered network n)
    {| pagetokens := map (token_before network) (seq 0 n);
       sleeps := replicate (pred n) 2%Q |}
  = Some (ending_01 network n, calls_until network 2%Q n).
Proof.
  intros Hgiven Hend. cbn [fetch_nearby_loop_01].
  rewrite request_page_next by done. cbn [pagetokens].
  rewrite length_map, length_seq.
  unfold continues_01, page_at in Hend. unfold ending_01.
  pose proof (gathered_next n) as Hnext. unfold page_at in Hnext.
  destruct (network n) as [| response]; [done |].
  destruct (json response) as [page | x]; [| done].
  cbv beta iota zeta in Hend |- *. rewrite Hend. by rewrite (Hnext page).
Qed.

Lemma loop_script_continues (n fuel : nat) :
  n = 0 \/ token_given (token_before network n) = true ->
  continues_script network n = true ->
  fetch_nearby_loop_script network (S fuel) (token_before network n) (gathered network n)
    {| pagetokens := map (token_before network) (seq 0 n);
       sleeps := replicate (pred n) 2.2%Q |}
  = fetch_nearby_loop_script network fuel (token_before network (S n))
      (gathered network (S n))
      {| pagetokens := map (token_before network) (seq 0 (S n));
         sleeps := replicate (pred (S n)) 2.2%Q |}.
Proof.
  intros Hgiven Hcont. cbn [fetch_nearby_loop_script].
  rewrite request_page_next by done. cbn [pagetokens].
  rewrite length_map, length_seq.
  pose proof (gathered_next n) as Hnext.
  change (token_before network (S n)) with (page_at network n ≫= next_page_token).
  unfold continues_script, continues_01 in Hcont. unfold page_at in Hcont, Hnext |- *.
  destruct (network n) as [| response]; [done |].
  apply andb_true_iff in Hcont as [Hok%negb_true_iff Hcont]. rewrite Hok.
  destruct (json response) as [page | x]; [| done].
  cbv beta iota zeta in Hcont |- *. rewrite Hcont. by rewrite (Hnext page).
Qed.

Lemma loop_script_ends (n fuel : nat) :
  n = 0 \/ token_given (token_before network n) = true ->
  continues_script network n = false ->
  fetch_nearby_loop_script network (S fuel) (token_before network n) (gathered network n)
    {| pagetokens := map (token_before network) (seq 0 n);
       sleeps := replicate (pred n) 2.2%Q |}
  = Some (ending_script network n, calls_until network 2.2%Q n).
Proof.
  intros Hgiven Hend. cbn [fetch_nearby_loop_script].
  rewrite request_page_next by done. cbn [pagetokens].
  rewrite length_map, length_seq.
  unfold continues_script, continues_01, page_at in Hend.
  unfold ending_script, ending_01.
  pose proof (gathered_next n) as Hnext. unfold page_at in Hnext.
  destruct (network n) as [| response]; [done |].
  destruct (raise_for_status response); [done |].
  destruct (json response) as [page | x]; [| done].
  cbv beta iota zeta in Hend |- *. simpl negb in Hend. rewrite andb_true_l in Hend.
  rewrite Hend. by rewrite (Hnext page).
Qed.

Lemma token_given_from (continues : nat -> bool) (n m : nat) :
  (forall i : nat, continues i = true -> continues_01 network i = true) ->
  (forall i : nat, i < n -> continues i = true) ->
  m <= n ->
  m = 0 \/ token_given (token_before network m) = true.
Proof.
  intros Hweaker Hcont Hm. destruct m as [| m]; [by left | right].
  apply continues_token, Hweaker, Hcont. lia.
Qed.

(** X13. [fetch_nearby] of Cloud Function Option 01 asks for pages
    until the first reply that brings no token, that cannot be decoded,
    or that fails: if that is the request number [n] (from 0), the call
    makes [n + 1] requests, each after the first carrying the token of
    the page before it and coming after a sleep of 2 s; it returns the
    results of all the pages, in order, or raises what the last request
    or its decoding raised, the results gathered being lost.  The HTTP
    status is not looked at. *)
Theorem fetch_nearby_01_follows_tokens (n fuel : nat) :
  (forall i : nat, i < n -> continues_01 network i = true) ->
  continues_01 network n = false ->
  n < fuel ->
  fetch_nearby_01 network fuel = Some (ending_01 network n, calls_until network 2%Q n).
Proof.
  intros Hcont Hend Hfuel. unfold fetch_nearby_01.
  assert (forall k m fuel',
             m + k = n -> k < fuel' ->
             fetch_nearby_loop_01 network fuel' (token_before network m)
               (gathered network m)
               {| pagetokens := map (token_before network) (seq 0 m);
                  sleeps := replicate (pred m) 2%Q |}
             = Some (ending_01 network n, calls_until network 2%Q n)) as Hrun.
  { induction k as [| k IH]; intros m fuel' Hm Hk;
      (destruct fuel' as [| fuel']; [lia |]);
      pose proof (token_given_from (continues_01 network) n m (fun i H => H) Hcont
                    ltac:(lia)) as Hgiven.
    - assert (m = n) as -> by lia. by apply loop_01_ends.
    - rewrite loop_01_continues by (try done; apply Hcont; lia).
      apply IH; lia. }
  by apply (Hrun n 0 fuel).
Qed.

(** X14. [fetch_nearby] of the extraction script does the same with
    sleeps of 2.2 s, and looks at the HTTP status first: a reply with
    an error status ends the call with [HTTPError], whatever its body;
    the results of the pages before it are lost. *)
Theorem fetch_nearby_script_follows_tokens (n fuel : nat) :
  (forall i : nat, i < n -> continues_script network i = true) ->
  continues_script network n = false ->
  n < fuel ->
  fetch_nearby_script network fuel
  = Some (ending_script network n, calls_until network 2.2%Q n).
Proof.
  intros Hcont Hend Hfuel. unfold fetch_nearby_script.
  assert (forall k m fuel',
             m + k = n -> k < fuel' ->
             fetch_nearby_loop_script network fuel' (token_before network m)
               (gathered network m)
               {| pagetokens := map (token_before network) (seq 0 m);
                  sleeps := replicate (pred m) 2.2%Q |}
             = Some (ending_script network n, calls_until network 2.2%Q n)) as Hrun.
  { induction k as [| k IH]; intros m fuel' Hm Hk;
      (destruct fuel' as [| fuel']; [lia |]);
      pose proof (token_given_from (continues_script network) n m continues_script_01
                    Hcont ltac:(lia)) as Hgiven.
    - assert (m = n) as -> by lia. by apply loop_script_ends.
    - rewrite loop_script_continues by (try done; apply Hcont; lia).
      apply IH; lia. }
  by apply (Hrun n 0 fuel).
Qed.

(** X15. Neither [fetch_nearby] bounds the number of pages: as long as
    every reply brings a token the loop goes on, and no number of turns
    ends it. *)
Theorem fetch_nearby_has_no_page_limit (fuel : nat) :
  (forall i : nat, i < fuel -> continues_script network i = true) ->
  fetch_nearby_01 network fuel = None /\ fetch_nearby_script network fuel = None.
Proof.
  intros Hcont. unfold fetch_nearby_01, fetch_nearby_script.
  assert (forall k m,
             m + k = fuel ->
             fetch_nearby_loop_01 network k (token_before network m) (gathered network m)
               {| pagetokens := map (token_before network) (seq 0 m);
                  sleeps := replicate (pred m) 2%Q |} = None
             /\ fetch_nearby_loop_script network k (token_before network m)
                  (gathered network m)
                  {| pagetokens := map (token_before network) (seq 0 m);
                     sleeps := replicate (pred m) 2.2%Q |} = None) as Hrun.
  { induction k as [| k IH]; intros m Hm; [done |].
    pose proof (token_given_from (continues_script network) fuel m continues_script_01
                  Hcont ltac:(lia)) as Hgiven.
    rewrite loop_01_continues, loop_script_continues
      by (try done; try apply continues_script_01; apply Hcont; lia).
    apply IH. lia. }
  by apply (Hrun fuel 0).
Qed.

End PaginationProperties.

Section PaginationWitnesses.
Import Fetch Pagination MoreSamples.

(** Two pages: three results, two requests, one sleep. *)
Lemma fetch_nearby_01_follows_tokens_witness :
  fetch_nearby_01 two_pages 5
  = Some (Return ["a"; "b"; "c"],
          {| pagetokens := [None; Some "t1"]; sleeps := [2%Q] |}).
Proof.
  rewrite (fetch_nearby_01_follows_tokens two_pages 1 5); [done | | done | lia].
  intros i Hi. by assert (i = 0) as -> by lia.
Defined.

Lemma fetch_nearby_script_follows_tokens_witness :
  fetch_nearby_script two_pages 5
  = Some (Return ["a"; "b"; "c"],
          {| pagetokens := [None; Some "t1"]; sleeps := [2.2%Q] |}).
Proof.
  rewrite (fetch_nearby_script_follows_tokens two_pages 1 5); [done | | done | lia].
  intros i Hi. by assert (i = 0) as -> by lia.
Defined.

Lemma fetch_nearby_has_no_page_limit_witness :
  fetch_nearby_01 endless_pages 60 = None /\ fetch_nearby_script endless_pages 60 = None.
Proof. apply fetch_nearby_has_no_page_limit. by intros i _. Defined.

End PaginationWitnesses.

(** ** Extraction followed by cleaning (Cloud Function Option 01) *)

Section ExtractThenClean.
Import PyStr PyNum Pandas Verified Provenance Cleaning01 Reconciler.
Local Open Scope string_scope.

Lemma drop_after_distinct {R K : Type} `{EqDecision K} (key : R -> K)
    (earlier df : list R) :
  NoDup (map key df) ->
  (forall r : R, r ∈ df -> key r ∉ map key earlier) ->
  drop_after (same_on key) earlier df = df.
Proof.
  revert earlier. induction df as [| x df IH]; intros earlier; simpl; [done |].
  intros [Hx Hdf]%NoDup_cons Hnew.
  destruct (existsb (same_on key x) earlier) eqn:E.
  - apply existsb_same_on in E. exfalso. apply (Hnew x); [by left | done].
  - f_equal. apply IH; [done |]. intros r Hr. rewrite map_app.
    intros [Hin | Hin%list_elem_of_singleton]%elem_of_app.
    + apply (Hnew r); [by right | done].
    + apply Hx. rewrite <- Hin. apply list_elem_of_fmap. by exists r.
Qed.

(** The power column that [fetch_ocm_details] writes always converts. *)
Lemma power_list_of_lookup (OCM_API_KEY : option string) (reply : OcmReply) :
  exists values : list Q,
    power_list (snd (fetch_ocm_details OCM_API_KEY reply)) = Return values.
Proof.
  unfold fetch_ocm_details.
  destruct OCM_API_KEY as [[| c key] |]; [by exists [] | | by exists []].
  destruct reply as [| [| poi others]]; [by exists [] | by exists [] |].
  destruct (Connections poi) as [[| conn rest] |]; [by exists [] | | by exists []].
  destruct (conn_types (conn :: rest)); [| by exists []].
  destruct (power_list_values (conn :: rest)) as (values & Hvalues & _).
  by exists values.
Qed.

Lemma clean_rows_total (df : list Record_) :
  Forall (fun r => exists values, power_list (ocm_power_kW r) = Return values) df ->
  exists cleaned : list Cleaned,
    clean_rows df = Return cleaned
    /\ Forall2 (fun r c => clean_row r = Return c) df cleaned.
Proof.
  induction 1 as [| r df (values & Hvalues) _ (cleaned & Hcleaned & Hall)]; simpl.
  - exists []. by split.
  - assert (exists c, clean_row r = Return c) as [c Hc]
        by (unfold clean_row; rewrite Hvalues; by eexists).
    rewrite Hc, Hcleaned. exists (c :: cleaned). split; [done | by constructor].
Qed.

Section Run.
Variable nearby_api : nat -> Q -> Q -> PyResult (list Candidate).
Variable details_api : nat -> string -> PyResult (option PlaceResult).
Variable ocm_api : nat -> option Q -> option Q -> OcmReply.
Variable OCM_API_KEY : option string.
Variables lat_points lng_points : list Q.

Lemma records_convert :
  Forall (fun r => exists values, power_list (ocm_power_kW r) = Return values)
    (records (snd (run_extraction nearby_api details_api ocm_api OCM_API_KEY
                     lat_points lng_points start))).
Proof.
  pose proof (sound_run_extraction nearby_api details_api ocm_api OCM_API_KEY
                lat_points lng_points start
                (sound_start details_api ocm_api _ _ _)) as (_ & _ & Hrecs).
  apply Forall_forall. intros r Hr.
  destruct (Hrecs r Hr) as (_ & t & u & details & _ & _ & _ & _ & _ & ->).
  apply power_list_of_lookup.
Qed.

Lemma run_extraction_cleans :
  exists cleaned : list Cleaned,
    clean_ev_charger_data
      (records (snd (run_extraction nearby_api details_api ocm_api OCM_API_KEY
                       lat_points lng_points start))) = Return cleaned.
Proof.
  pose proof records_convert as Hall.
  set (df := records _) in *. unfold clean_ev_charger_data.
  destruct (clean_rows_total (filter (fun r => ocm_connector_types r ∉ bad)
                               (drop_duplicate_places df))) as (cleaned & Hc & _);
    [| by exists cleaned].
  apply Forall_forall. intros r [_ Hr]%list_elem_of_filter.
  unfold drop_duplicate_places in Hr. apply drop_duplicates_subseteq in Hr.
  by apply (proj1 (Forall_forall _ _) Hall).
Qed.

(** X16. On the frame that [run_extraction] builds, whatever the
    services answered, [clean_ev_charger_data] does not raise: the power
    column always converts.  Its [drop_duplicates] removes nothing, and
    the cleaned frame has one row for each record whose connector column
    is none of the three markers, in the order of the records. *)
Theorem extracted_frame_always_cleans :
  let df := records (snd (run_extraction nearby_api details_api ocm_api OCM_API_KEY
                            lat_points lng_points start)) in
  drop_duplicate_places df = df
  /\ exists cleaned : list Cleaned,
       clean_ev_charger_data df = Return cleaned
       /\ Forall2 (fun r c => clean_row r = Return c)
            (filter (fun r => ocm_connector_types r ∉ bad) df) cleaned.
Proof.
  intros df.
  pose proof (sound_run_extraction nearby_api details_api ocm_api OCM_API_KEY
                lat_points lng_points start
                (sound_start details_api ocm_api _ _ _)) as (_ & _ & Hrecs).
  pose proof (keeps_run_extraction nearby_api details_api ocm_api OCM_API_KEY
                lat_points lng_points start invariant_start) as (_ & _ & _ & Hnodup).
  fold df in Hrecs, Hnodup.
  assert (drop_duplicate_places df = df) as Hsame.
  { unfold drop_duplicate_places. simpl.
    apply drop_after_distinct; [done |]. intros r _. apply not_elem_of_nil. }
  split; [done |]. unfold clean_ev_charger_data. rewrite Hsame.
  apply clean_rows_total, Forall_forall.
  intros r [_ Hr]%list_elem_of_filter.
  destruct (Hrecs r Hr) as (_ & t & u & details & _ & _ & _ & _ & _ & ->).
  apply power_list_of_lookup.
Qed.

Lemma run_extraction_distinct :
  let df := records (snd (run_extraction nearby_api details_api ocm_api OCM_API_KEY
                            lat_points lng_points start)) in
  drop_duplicate_places df = df.
Proof.
  intros df.
  pose proof (keeps_run_extraction nearby_api details_api ocm_api OCM_API_KEY
                lat_points lng_points start invariant_start) as (_ & _ & _ & Hnodup).
  unfold drop_duplicate_places. simpl.
  apply drop_after_distinct; [done |]. intros r _. apply not_elem_of_nil.
Qed.

Lemma clean_row_not_available (r : Record_) :
  ocm_connector_types r = "Not Available" ->
  ocm_power_kW r = "Not Available" ->
  exists c : Cleaned,
    clean_row r = Return c
    /\ Place_Id c = r_place_id r
    /\ OCM_Connector_Types c = "Not Available"
    /\ Number_of_Connectors c = 1
    /\ Max_Charging_Type c = None
    /\ Min_Power_kW c = None
    /\ Max_Power_kW c = None
    /\ Rapid_Charge_Available c = "No"
    /\ Fast_Charge_Available c = "No"
    /\ Slow_Charge_Available c = "No".
Proof.
  intros Htypes Hpower. unfold clean_row. destruct r. simpl in *. subst.
  eexists. split; [reflexivity |]. done.
Qed.

(** X25. Without an Open Charge Map key every record of the sweep
    carries "Not Available" in both catalog columns, and the cleaning
    keeps them all: each cleaned row reports one connector, no maximum
    charging type, no minimum or maximum power, and "No" for the three
    availability flags. *)
Theorem without_key_every_site_has_one_unknown_connector :
  OCM_API_KEY = None \/ OCM_API_KEY = Some EmptyString ->
  let df := records (snd (run_extraction nearby_api details_api ocm_api OCM_API_KEY
                            lat_points lng_points start)) in
  exists cleaned : list Cleaned,
    clean_ev_charger_data df = Return cleaned
    /\ map Place_Id cleaned = map r_place_id df
    /\ forall c : Cleaned,
         c ∈ cleaned ->
         OCM_Connector_Types c = "Not Available"
         /\ Number_of_Connectors c = 1
         /\ Max_Charging_Type c = None
         /\ Min_Power_kW c = None
         /\ Max_Power_kW c = None
         /\ Rapid_Charge_Available c = "No"
         /\ Fast_Charge_Available c = "No"
         /\ Slow_Charge_Available c = "No".
Proof.
  intros Hkey df.
  pose proof (sound_run_extraction nearby_api details_api ocm_api OCM_API_KEY
                lat_points lng_points start
                (sound_start details_api ocm_api _ _ _)) as (_ & _ & Hrecs).
  fold df in Hrecs.
  assert (forall r, r ∈ df ->
            ocm_connector_types r = "Not Available"
            /\ ocm_power_kW r = "Not Available") as Hcolumns.
  { intros r Hr. destruct (Hrecs r Hr) as (_ & t & u & details & _ & _ & _ & _ & _ & ->).
    by destruct Hkey as [-> | ->]. }
  pose proof run_extraction_distinct as Hsame. cbv zeta in Hsame. fold df in Hsame.
  unfold clean_ev_charger_data. rewrite Hsame.
  clearbody df. clear Hrecs Hsame.
  induction df as [| r df IH].
  - exists []. split; [done |]. split; [done |]. by intros c ?%elem_of_nil.
  - destruct (Hcolumns r) as [Htypes Hpower]; [by left |].
    destruct IH as (cleaned & Hcleaned & Hids & Hrows);
      [intros x Hx; apply Hcolumns; by right |].
    destruct (clean_row_not_available r Htypes Hpower) as (c & Hc & Hid & Hrow).
    rewrite filter_cons_True by (rewrite Htypes; compute_done).
    simpl. rewrite Hc, Hcleaned. exists (c :: cleaned).
    split; [done |]. split; [simpl; by rewrite Hid, Hids |].
    intros x [-> | Hx]%elem_of_cons; [done | by apply Hrows].
Qed.

End Run.

End ExtractThenClean.

(** ** The HTTP function of Cloud Function Option 01 *)

Section FunctionProperties.
Import Pandas BigQuery Sync Verified Provenance Cleaning01 Functions.

Lemma load_01_status (df : list Cleaned) (c : Client Cleaned) :
  exists (load_status : string) (after : Client Cleaned),
    load_to_bigquery_incremental_01 Place_Id df c = Return (load_status, after)
    /\ load_status ∈ ["OK"; "No new data"].
Proof.
  destruct (table c) as [rows |] eqn:Ht.
  - rewrite (load_01_existing _ _ rows) by done.
    destruct (not_isin Place_Id (map Place_Id rows) df);
      eexists _, _; (split; [done |]); set_solver.
  - rewrite load_01_missing by done. eexists _, _. split; [done |]. set_solver.
Qed.

Section Etl.
Variable nearby_api : nat -> Q -> Q -> PyResult (list Candidate).
Variable details_api : nat -> string -> PyResult (option PlaceResult).
Variable ocm_api : nat -> option Q -> option Q -> Reconciler.OcmReply.
Variable OCM_API_KEY : option string.
Variables lat_points lng_points : list Q.
Variable storage : list Cleaned -> PyResult unit.

(** X23. [ev_etl] never raises, and what it answers tells what
    happened.  It answers 200 with "No data extracted" when the sweep
    accepted no place, and then nothing is uploaded or loaded; it
    answers 200 with "ETL DONE", followed by "OK" or "No new data",
    when the cleaned frame was uploaded and synced.  It answers 500
    only when a call to Google raised during the sweep or when the
    upload raised; in both cases the table is untouched and every
    collected record is dropped.  The conversions of the cleaning and
    the write disposition of the sync are no source of failure (the
    table is taken to answer). *)
Theorem ev_etl_answers (w : World) :
  let df_raw := records (snd (run_extraction nearby_api details_api ocm_api OCM_API_KEY
                                lat_points lng_points start)) in
  let events := trace (snd (run_extraction nearby_api details_api ocm_api OCM_API_KEY
                              lat_points lng_points start)) in
  match ev_etl nearby_api details_api ocm_api OCM_API_KEY lat_points lng_points storage w with
  | (Status_200 message, w') =>
      (message = "No data extracted" /\ df_raw = [] /\ w' = w)
      \/ (exists (df : list Cleaned) (load_status : string),
            df_raw <> []
            /\ clean_ev_charger_data df_raw = Return df
            /\ storage df = Return tt
            /\ uploaded w' = uploaded w ++ [df]
            /\ load_to_bigquery_incremental_01 Place_Id df (client w)
               = Return (load_status, client w')
            /\ load_status ∈ ["OK"; "No new data"]
            /\ message = ("ETL DONE — " ++ load_status)%string)
  | (Status_500 error, w') =>
      w' = w
      /\ (raised_by nearby_api details_api error events
          \/ exists df : list Cleaned,
               clean_ev_charger_data df_raw = Return df /\ storage df = Raise error)
  end.
Proof.
  intros df_raw events. unfold ev_etl, run_etl.
  pose proof (faithful_run_extraction nearby_api details_api ocm_api OCM_API_KEY
                lat_points lng_points start) as Hfaithful.
  destruct (run_extraction_cleans nearby_api details_api ocm_api OCM_API_KEY
              lat_points lng_points) as (df & Hdf).
  fold df_raw in Hdf. subst events df_raw.
  destruct (run_extraction _ _ _ _ _ _ start) as [[[] | e] st]; simpl in *.
  - destruct (records st) as [| r rest] eqn:Hrecords; [by left |].
    rewrite Hdf.
    destruct (storage df) as [[] | e] eqn:Hstorage; simpl.
    + destruct (load_01_status df (client w)) as (load_status & after & Hload & Hstatus).
      rewrite Hload. right. by exists df, load_status.
    + split; [done |]. right. by exists df.
  - split; [done |]. left. by apply Hfaithful.
Qed.

End Etl.

End FunctionProperties.

(** ** Readings, as text and back *)

Section ReadingProperties.
Import PyStr PyNum Classifier Verified Cleaning01 Reconciler.
Local Open Scope string_scope.

Lemma conn_types_length (connections : list Connection) (titles : list string) :
  conn_types connections = Return titles -> length titles = length connections.
Proof.
  revert titles. induction connections as [| conn rest IH]; intros titles; simpl.
  - by intros [= <-].
  - destruct (conn_type conn); [| done].
    destruct (conn_types rest) as [ts |]; [| done].
    intros [= <-]. simpl. by rewrite (IH ts).
Qed.

Lemma rendered_powers_length (connections : list Connection) :
  length (rendered_powers connections) <= length connections.
Proof.
  unfold rendered_powers. induction connections as [| conn rest IH]; [done |].
  set (f := fun conn : Connection => if truthy (PowerKW conn) then PowerKW conn else None)
    in *.
  change (omap f (conn :: rest))
    with (match f conn with Some q => q :: omap f rest | None => omap f rest end).
  destruct (f conn); simpl; lia.
Qed.

(** X17. [Number_of_Connectors] counts every connector that the first
    POI lists, with or without a power reading (the titles holding no
    semicolon): it is the length of [Connections], while the power list
    behind the minimum and the maximum holds only the readings other
    than zero, so never more entries. *)
Theorem connectors_counted_with_or_without_power
    (key_first : ascii) (key_rest : string) (poi : Poi) (others : list Poi)
    (connections : list Connection) (titles : list string) (r : Record_) :
  Connections poi = Some connections ->
  connections <> [] ->
  conn_types connections = Return titles ->
  Forall (fun title => all_chars (not_char ";") title = true) titles ->
  (ocm_connector_types r, ocm_power_kW r)
  = fetch_ocm_details (Some (String key_first key_rest)) (Ocm_data (poi :: others)) ->
  exists (c : Cleaned) (values : list Q),
    clean_row r = Return c
    /\ Number_of_Connectors c = length connections
    /\ power_list (ocm_power_kW r) = Return values
    /\ length values = length (rendered_powers connections)
    /\ length values <= Number_of_Connectors c.
Proof.
  intros Hc Hne Ht Htitles Hr.
  rewrite (fetch_ocm_details_listed _ _ _ _ connections titles) in Hr by done.
  injection Hr as Hcol Hpow.
  destruct (power_list_values connections) as (values & Hvalues & Hall).
  rewrite <- Hpow in Hvalues.
  assert (length (split "; " (ocm_connector_types r)) = length connections) as Hlen.
  { rewrite Hcol, <- (conn_types_length _ _ Ht).
    destruct titles as [| title titles].
    - apply conn_types_length in Ht. by destruct connections.
    - by rewrite split_join. }
  unfold clean_row. rewrite Hvalues. eexists _, values.
  split; [done |]. simpl. split; [done |]. split; [done |].
  apply Forall2_length in Hall. split; [done |].
  rewrite Hlen, Hall. apply rendered_powers_length.
Qed.

Lemma round_half_even_near (x : Q) :
  (inject_Z (round_half_even x) - (1 # 2) <= x
   /\ x <= inject_Z (round_half_even x) + (1 # 2))%Q.
Proof.
  unfold round_half_even. destruct x as [n d]. simpl.
  pose proof (Z.div_mod n (Z.pos d) ltac:(lia)) as Hdiv.
  pose proof (Z.mod_pos_bound n (Z.pos d) ltac:(lia)) as Hmod.
  set (f := (n / Z.pos d)%Z) in *. set (m := (n mod Z.pos d)%Z) in *.
  clearbody f m. subst n.
  unfold Qle, Qminus, Qplus, Qopp, inject_Z. simpl.
  change (Z.pos (1 * 2)) with 2%Z.
  destruct (Z.compare_spec (2 * m) (Z.pos d)) as [E | E | E];
    [destruct (Z.even f) | |]; lia.
Qed.



End ReadingProperties.

Section ReadingWitnesses.
Import PyStr PyNum Classifier Verified Cleaning01 Reconciler Samples MoreSamples.
Local Open Scope string_scope.

(** Four connectors, two usable readings. *)
Lemma connectors_counted_with_or_without_power_witness :
  exists (c : Cleaned) (values : list Q),
    clean_row four_connector_site = Return c
    /\ Number_of_Connectors c = 4
    /\ power_list (ocm_power_kW four_connector_site) = Return values
    /\ length values = 2
    /\ length values <= Number_of_Connectors c.
Proof.
  apply (connectors_counted_with_or_without_power "k"%char "ey"
           {| Connections := Some four_connectors |} [] four_connectors
           ["Type 2"; "Unknown"; "Unknown"; "CCS"] four_connector_site);
    try done.
  repeat constructor.
Defined.

End ReadingWitnesses.

(** ** The power column in the cleaning script *)

Section CleaningScriptProperties.
Import PyStr PyNum Reconciler CleaningScript.
Local Open Scope string_scope.




Lemma to_floats_raises_value_error (x : list string) (e : string) :
  to_floats x = Raise e -> e = "ValueError".
Proof.
  induction x as [| p rest IH]; simpl; [done |].
  destruct (py_float _); [| by intros [= <-]].
  destruct (to_floats rest); [done |]. intros [= <-]. by apply IH.
Qed.




End CleaningScriptProperties.

(** ** The sweep of bounding boxes *)

Section TileProperties.
Import Tiles.
Context {Poi : Type}.
Variables MIN_LAT MAX_LAT MIN_LNG MAX_LNG STEP : Q.
Variable add : Q -> Q -> Q.
Variable fetch : nat -> Box -> PyResult (option (list Poi)).

Lemma visit_all_app (first_ then_ : list (Q * Q)) (s : State (Poi := Poi)) :
  visit_all MAX_LAT MAX_LNG STEP add fetch (first_ ++ then_) s
  = match visit_all MAX_LAT MAX_LNG STEP add fetch first_ s with
    | Raise e => Raise e
    | Return s' => visit_all MAX_LAT MAX_LNG STEP add fetch then_ s'
    end.
Proof.
  revert s. induction first_ as [| [lat lng] first_ IH]; intros s; simpl; [done |].
  destruct (visit _ _ _ _ _ lat lng s) as [s' | e]; [apply IH | done].
Qed.

Lemma points_cons (fuel : nat) (x hi : Q) (pts : list Q) :
  points STEP add (S fuel) x hi = Some pts ->
  (Qlt_b x hi = false /\ pts = [])
  \/ (Qlt_b x hi = true
      /\ exists rest, pts = x :: rest /\ points STEP add fuel (add x STEP) hi = Some rest).
Proof.
  simpl. intros Hpts. destruct (Qlt_b x hi); [right | left].
  - destruct (points STEP add fuel (add x STEP) hi) as [rest |]; [| done].
    injection Hpts as <-. split; [done |]. by exists rest.
  - by injection Hpts as <-.
Qed.

(** The inner loop is one pass over its column. *)
Lemma lat_loop_points (fuel : nat) (lng lat : Q) (lats : list Q) (s : State) :
  points STEP add fuel lat MAX_LAT = Some lats ->
  lat_loop MAX_LAT MAX_LNG STEP add fetch fuel lng lat s
  = Some (visit_all MAX_LAT MAX_LNG STEP add fetch (map (fun lat => (lat, lng)) lats) s).
Proof.
  revert lat lats s. induction fuel as [| fuel IH]; intros lat lats s; [done |].
  intros [[Hend ->] | (Hlt & rest & -> & Hrest)]%points_cons; simpl; rewrite ?Hend, ?Hlt.
  - done.
  - destruct (visit _ _ _ _ _ lat lng s) as [s' | e]; [by apply IH | done].
Qed.

(** The two loops are one pass over the grid. *)
Lemma lng_loop_points (fuel_lng fuel_lat : nat) (lng : Q) (lngs lats : list Q) (s : State) :
  points STEP add fuel_lat MIN_LAT MAX_LAT = Some lats ->
  points STEP add fuel_lng lng MAX_LNG = Some lngs ->
  lng_loop MIN_LAT MAX_LAT MAX_LNG STEP add fetch fuel_lng fuel_lat lng s
  = Some (visit_all MAX_LAT MAX_LNG STEP add fetch (cells lngs lats) s).
Proof.
  intros Hlats. revert lng lngs s.
  induction fuel_lng as [| fuel_lng IH]; intros lng lngs s; [done |].
  intros [[Hend ->] | (Hlt & rest & -> & Hrest)]%points_cons; simpl; rewrite ?Hend, ?Hlt.
  - done.
  - rewrite (lat_loop_points _ _ _ lats) by done. rewrite visit_all_app.
    destruct (visit_all _ _ _ _ _ _ s) as [s' | e]; [by apply IH | done].
Qed.

(** What one pass leaves behind. *)
Lemma visit_all_returns (todo : list (Q * Q)) (s s' : State) :
  visit_all MAX_LAT MAX_LNG STEP add fetch todo s = Return s' ->
  fetched s' = fetched s ++ map (fun cell => tile MAX_LAT MAX_LNG STEP add cell.1 cell.2) todo
  /\ sleeps s' = sleeps s + length todo
  /\ all_poi_data s'
     = all_poi_data s
       ++ concat (imap (fun n cell =>
                          match fetch (length (fetched s) + n)
                                  (tile MAX_LAT MAX_LNG STEP add cell.1 cell.2) with
                          | Return (Some pois) => pois
                          | _ => []
                          end) todo).
Proof.
  revert s. induction todo as [| [lat lng] todo IH]; intros s; simpl.
  - intros [= <-]. by rewrite !app_nil_r, Nat.add_0_r.
  - unfold visit at 1.
    destruct (fetch (length (fetched s)) (tile _ _ _ _ lat lng)) as [resp | e] eqn:Hf;
      [| done].
    intros (Hfetched & Hsleeps & Hdata)%IH. simpl in *.
    rewrite Hfetched, Hsleeps, Hdata, <- !app_assoc, Nat.add_0_r, Hf.
    split; [done |]. split; [lia |]. f_equal.
    assert (default [] resp = match resp with Some pois => pois | None => [] end) as ->
        by by destruct resp.
    f_equal. f_equal. apply imap_ext. intros n cell _. simpl.
    rewrite length_app. simpl. by replace (length (fetched s) + 1 + n) with
      (length (fetched s) + S n) by lia.
Qed.

Lemma visit_all_raises (todo : list (Q * Q)) (s : State) (e : string) :
  visit_all MAX_LAT MAX_LNG STEP add fetch todo s = Raise e ->
  exists (n : nat) (cell : Q * Q),
    todo !! n = Some cell
    /\ fetch (length (fetched s) + n) (tile MAX_LAT MAX_LNG STEP add cell.1 cell.2) = Raise e.
Proof.
  revert s. induction todo as [| [lat lng] todo IH]; intros s; simpl; [done |].
  unfold visit at 1.
  destruct (fetch (length (fetched s)) (tile _ _ _ _ lat lng)) as [resp | e'] eqn:Hf.
  - intros (n & cell & Hcell & Hn)%IH. simpl in Hn. exists (S n), cell. split; [done |].
    rewrite length_app in Hn. simpl in Hn.
    by replace (length (fetched s) + S n) with (length (fetched s) + 1 + n) by lia.
  - intros [= <-]. exists 0, (lat, lng). split; [done |]. by rewrite Nat.add_0_r.
Qed.

(** X20. The two nested [while] loops of [ocm_extractor] request one
    bounding box for each pair of a longitude and a latitude of the two
    progressions from [MIN] by [STEP] below [MAX], column by column.
    When no request raises, every box has been requested once and in
    that order, followed by a sleep of one second, and [all_poi_data]
    holds the answers in the same order, a skipped box adding nothing;
    otherwise the exception of the failing request ends the sweep. *)
Theorem nested_loops_sweep_the_grid (fuel_lng fuel_lat : nat) (lngs lats : list Q) :
  points STEP add fuel_lat MIN_LAT MAX_LAT = Some lats ->
  points STEP add fuel_lng MIN_LNG MAX_LNG = Some lngs ->
  let todo := cells lngs lats in
  let box := fun cell : Q * Q => tile MAX_LAT MAX_LNG STEP add cell.1 cell.2 in
  match lng_loop MIN_LAT MAX_LAT MAX_LNG STEP add fetch fuel_lng fuel_lat MIN_LNG no_box with
  | Some (Return s) =>
      fetched s = map box todo
      /\ sleeps s = length todo
      /\ all_poi_data s
         = concat (imap (fun n cell =>
                           match fetch n (box cell) with
                           | Return (Some pois) => pois
                           | _ => []
                           end) todo)
  | Some (Raise e) =>
      exists (n : nat) (cell : Q * Q), todo !! n = Some cell /\ fetch n (box cell) = Raise e
  | None => False
  end.
Proof.
  intros Hlats Hlngs todo box.
  rewrite (lng_loop_points _ _ _ lngs lats) by done. fold todo.
  destruct (visit_all _ _ _ _ _ todo no_box) as [s | e] eqn:Hpass.
  - by apply visit_all_returns in Hpass.
  - by apply visit_all_raises in Hpass.
Qed.

Lemma Qlt_b_true (x y : Q) : Qlt_b x y = true -> (x < y)%Q.
Proof. apply Qlt_b_iff. Qed.

(** The progression stays below its bound, and each of its values is
    the sum of the one before. *)
Lemma points_chain (fuel : nat) (lo hi : Q) (pts : list Q) :
  points STEP add fuel lo hi = Some pts ->
  head pts = (if Qlt_b lo hi then Some lo else None)
  /\ forall (i : nat) (x : Q),
       pts !! i = Some x ->
       (x < hi)%Q
       /\ match pts !! S i with
          | Some y => min2 (add x STEP) hi = y
          | None => (min2 (add x STEP) hi == hi)%Q
          end.
Proof.
  revert lo pts. induction fuel as [| fuel IH]; intros lo pts; [done |].
  intros [[Hend ->] | (Hlt & rest & -> & Hrest)]%points_cons.
  - by rewrite Hend.
  - rewrite Hlt. split; [done |].
    destruct (IH _ _ Hrest) as [Hhead Hchain].
    intros [| i] x; simpl.
    + intros [= <-]. split; [by apply Qlt_b_true |].
      rewrite <- head_lookup, Hhead. unfold min2.
      destruct (Qlt_b (add lo STEP) hi) eqn:Hnext.
      * apply Qlt_b_true in Hnext.
        destruct (Qlt_b hi (add lo STEP)) eqn:Hover; [| done].
        apply Qlt_b_true in Hover. lra.
      * apply Qlt_b_false in Hnext.
        destruct (Qlt_b hi (add lo STEP)) eqn:Hover; [reflexivity |].
        apply Qlt_b_false in Hover. lra.
    + apply Hchain.
Qed.

(** X21. The boxes of a column leave no gap and do not overlap: the
    first begins at [MIN_LAT], each begins below [MAX_LAT] and ends
    where the next one begins, and the last one ends at [MAX_LAT], the
    [min] cutting off what [lat + STEP] has beyond it.  The columns do
    the same between [MIN_LNG] and [MAX_LNG].  This holds whatever the
    rounding of the additions. *)
Theorem boxes_tile_the_bounding_box (fuel_lng fuel_lat : nat) (lngs lats : list Q) :
  points STEP add fuel_lat MIN_LAT MAX_LAT = Some lats ->
  points STEP add fuel_lng MIN_LNG MAX_LNG = Some lngs ->
  (head lats = (if Qlt_b MIN_LAT MAX_LAT then Some MIN_LAT else None)
   /\ forall (i : nat) (lat lng : Q),
        lats !! i = Some lat ->
        let box := tile MAX_LAT MAX_LNG STEP add lat lng in
        min_lat_box box = lat
        /\ (lat < MAX_LAT)%Q
        /\ match lats !! S i with
           | Some next => max_lat_box box = next
           | None => (max_lat_box box == MAX_LAT)%Q
           end)
  /\ (head lngs = (if Qlt_b MIN_LNG MAX_LNG then Some MIN_LNG else None)
      /\ forall (j : nat) (lat lng : Q),
           lngs !! j = Some lng ->
           let box := tile MAX_LAT MAX_LNG STEP add lat lng in
           min_lng_box box = lng
           /\ (lng < MAX_LNG)%Q
           /\ match lngs !! S j with
              | Some next => max_lng_box box = next
              | None => (max_lng_box box == MAX_LNG)%Q
              end).
Proof.
  intros [Hlat_head Hlat]%points_chain [Hlng_head Hlng]%points_chain.
  split; (split; [done |]).
  - intros i lat lng Hi. simpl. split; [done |]. by apply Hlat.
  - intros j lat lng Hj. simpl. split; [done |]. by apply Hlng.
Qed.

(** The progression ends when each addition moves on by [delta]. *)
Lemma points_exist (delta from hi : Q) (n : nat) (lo : Q) :
  (0 < delta)%Q ->
  (forall x : Q, from <= x < hi -> x + delta <= add x STEP)%Q ->
  (from <= lo)%Q ->
  (hi - lo <= inject_Z (Z.of_nat n) * delta)%Q ->
  exists pts : list Q, points STEP add (S n) lo hi = Some pts /\ length pts <= n.
Proof.
  intros Hdelta Hmove. revert lo. induction n as [| n IH]; intros lo Hfrom Hn.
  - exists []. simpl. rewrite (proj2 (Qlt_b_false lo hi)); [done |].
    change (inject_Z (Z.of_nat 0)) with 0%Q in Hn. lra.
  - destruct (Qlt_b lo hi) eqn:Hlt.
    + pose proof Hlt as Hbelow. apply Qlt_b_true in Hbelow.
      specialize (Hmove lo (conj Hfrom Hbelow)).
      destruct (IH (add lo STEP)) as (rest & Hrest & Hlen); [lra | |].
      { rewrite Nat2Z.inj_succ, <- Z.add_1_r, inject_Z_plus in Hn.
        change (inject_Z 1) with 1%Q in Hn.
        assert ((inject_Z (Z.of_nat n) + 1) * delta == inject_Z (Z.of_nat n) * delta + delta)%Q
          as Hring by ring.
        rewrite Hring in Hn. set (k := (inject_Z (Z.of_nat n) * delta)%Q) in *. lra. }
      exists (lo :: rest). split; [| simpl; lia].
      change (points STEP add (S (S n)) lo hi)
        with (if Qlt_b lo hi then cons lo <$> points STEP add (S n) (add lo STEP) hi
              else Some []).
      by rewrite Hlt, Hrest.
    + exists []. split; [| simpl; lia].
      change (points STEP add (S (S n)) lo hi)
        with (if Qlt_b lo hi then cons lo <$> points STEP add (S n) (add lo STEP) hi
              else Some []).
      by rewrite Hlt.
Qed.

Lemma steps_suffice (delta lo hi : Q) :
  (0 < delta)%Q ->
  exists n : nat, (hi - lo <= inject_Z (Z.of_nat n) * delta)%Q.
Proof.
  intros Hdelta. exists (Z.to_nat (Qceiling ((hi - lo) / delta))).
  pose proof (Qle_ceiling ((hi - lo) / delta)) as Hceil.
  set (c := Qceiling ((hi - lo) / delta)) in *.
  assert (inject_Z c <= inject_Z (Z.of_nat (Z.to_nat c)))%Q as Hnat.
  { rewrite <- Zle_Qle. lia. }
  assert ((hi - lo) / delta * delta == hi - lo)%Q as Hfield by (field; lra).
  rewrite <- Hfield.
  apply Qmult_le_compat_r; [| lra].
  by apply (Qle_trans _ (inject_Z c)).
Qed.

(** X22. The sweep comes to an end whenever adding [STEP] moves the
    coordinates of the bounding box on by some fixed amount, as the
    rounded additions of the program do: both progressions are finite,
    and with that many turns (and one more) the two loops return or
    raise. *)
Theorem sweep_ends_when_steps_move_on (delta : Q) :
  (0 < delta)%Q ->
  (forall x : Q, MIN_LAT <= x < MAX_LAT -> x + delta <= add x STEP)%Q ->
  (forall x : Q, MIN_LNG <= x < MAX_LNG -> x + delta <= add x STEP)%Q ->
  exists (fuel_lng fuel_lat : nat) (lngs lats : list Q) (out : PyResult State),
    points STEP add fuel_lat MIN_LAT MAX_LAT = Some lats
    /\ points STEP add fuel_lng MIN_LNG MAX_LNG = Some lngs
    /\ length lats < fuel_lat
    /\ length lngs < fuel_lng
    /\ lng_loop MIN_LAT MAX_LAT MAX_LNG STEP add fetch fuel_lng fuel_lat MIN_LNG no_box
       = Some out.
Proof.
  intros Hdelta Hmove_lat Hmove_lng.
  destruct (steps_suffice delta MIN_LAT MAX_LAT Hdelta) as [n_lat Hlat].
  destruct (steps_suffice delta MIN_LNG MAX_LNG Hdelta) as [n_lng Hlng].
  destruct (points_exist delta MIN_LAT MAX_LAT n_lat MIN_LAT Hdelta Hmove_lat
              (Qle_refl _) Hlat) as (lats & Hlats & ?).
  destruct (points_exist delta MIN_LNG MAX_LNG n_lng MIN_LNG Hdelta Hmove_lng
              (Qle_refl _) Hlng) as (lngs & Hlngs & ?).
  exists (S n_lng), (S n_lat), lngs, lats. eexists.
  split; [done |]. split; [done |]. split; [lia |]. split; [lia |].
  by rewrite (lng_loop_points _ _ _ lngs lats).
Qed.

End TileProperties.

Section ScriptTileProperties.
Import Tiles.
Context {Poi : Type}.
Variables MIN_LAT MAX_LAT MIN_LNG MAX_LNG STEP : Q.
Variable add : Q -> Q -> Q.
Variable request : nat -> Box -> PyResult (list Poi).

(** The two states hold the same boxes and the same data. *)
Lemma visit_script_as_skip (lat lng : Q) (s s' : State (Poi := Poi)) :
  fetched s = fetched s' ->
  all_poi_data s = all_poi_data s' ->
  exists next : State,
    visit MAX_LAT MAX_LNG STEP add (failure_as_skip request) lat lng s' = Return next
    /\ fetched (visit_script MAX_LAT MAX_LNG STEP add request lat lng s) = fetched next
    /\ all_poi_data (visit_script MAX_LAT MAX_LNG STEP add request lat lng s)
       = all_poi_data next
    /\ sleeps (visit_script MAX_LAT MAX_LNG STEP add request lat lng s) = sleeps s.
Proof.
  intros Hf Hd. unfold visit, visit_script, failure_as_skip. rewrite <- Hf, <- Hd.
  destruct (request _ _) as [poi_list | e]; eexists; (split; [done |]); simpl;
    by rewrite ?app_nil_r.
Qed.

Lemma lat_loop_script_as_skip (fuel : nat) (lng lat : Q) (s s' : State) :
  fetched s = fetched s' ->
  all_poi_data s = all_poi_data s' ->
  match lat_loop MAX_LAT MAX_LNG STEP add (failure_as_skip request) fuel lng lat s' with
  | Some (Return done') =>
      exists done_ : State,
        lat_loop_script MAX_LAT MAX_LNG STEP add request fuel lng lat s = Some done_
        /\ fetched done_ = fetched done'
        /\ all_poi_data done_ = all_poi_data done'
        /\ sleeps done_ = sleeps s
  | Some (Raise _) => False
  | None => lat_loop_script MAX_LAT MAX_LNG STEP add request fuel lng lat s = None
  end.
Proof.
  revert lat s s'. induction fuel as [| fuel IH]; intros lat s s' Hf Hd; simpl; [done |].
  destruct (Qlt_b lat MAX_LAT); [| by exists s].
  destruct (visit_script_as_skip lat lng s s' Hf Hd) as (next & -> & Hf' & Hd' & Hs).
  specialize (IH (add lat STEP) _ next Hf' Hd').
  destruct (lat_loop _ _ _ _ _ fuel lng (add lat STEP) next) as [[done' | e] |];
    [| done | done].
  destruct IH as (done_ & Hloop & ? & ? & Hsleeps). exists done_.
  repeat (split; [done |]). by rewrite Hsleeps.
Qed.

Lemma lng_loop_script_as_skip (fuel_lng fuel_lat : nat) (lng : Q) (s s' : State) :
  fetched s = fetched s' ->
  all_poi_data s = all_poi_data s' ->
  match lng_loop MIN_LAT MAX_LAT MAX_LNG STEP add (failure_as_skip request)
          fuel_lng fuel_lat lng s' with
  | Some (Return done') =>
      exists done_ : State,
        lng_loop_script MIN_LAT MAX_LAT MAX_LNG STEP add request fuel_lng fuel_lat lng s
        = Some done_
        /\ fetched done_ = fetched done'
        /\ all_poi_data done_ = all_poi_data done'
        /\ sleeps done_ = sleeps s
  | Some (Raise _) => False
  | None =>
      lng_loop_script MIN_LAT MAX_LAT MAX_LNG STEP add request fuel_lng fuel_lat lng s = None
  end.
Proof.
  revert lng s s'. induction fuel_lng as [| fuel_lng IH]; intros lng s s' Hf Hd; simpl;
    [done |].
  destruct (Qlt_b lng MAX_LNG); [| by exists s].
  pose proof (lat_loop_script_as_skip fuel_lat lng MIN_LAT s s' Hf Hd) as Hcolumn.
  destruct (lat_loop _ _ _ _ _ fuel_lat lng MIN_LAT s') as [[column' | e] |];
    [| done | by rewrite Hcolumn].
  destruct Hcolumn as (column & -> & Hf' & Hd' & Hs).
  specialize (IH (add lng STEP) column column' Hf' Hd').
  destruct (lng_loop _ _ _ _ _ _ fuel_lng fuel_lat (add lng STEP) column')
    as [[done' | e] |]; [| done | done].
  destruct IH as (done_ & Hloop & ? & ? & Hsleeps). exists done_.
  repeat (split; [done |]). by rewrite Hsleeps.
Qed.

(** X27. The sweep of [data_extracting_cleaning_OCM.py] requests the
    same boxes in the same order as that of Cloud Function Option 02,
    does not sleep, and never raises: a request that fails, by the
    network, an error status or the decoding, is passed over like a box
    that Option 02 skips, and [all_poi_data] holds the answers of the
    others in order. *)
Theorem script_sweep_skips_failures (fuel_lng fuel_lat : nat) (lngs lats : list Q) :
  points STEP add fuel_lat MIN_LAT MAX_LAT = Some lats ->
  points STEP add fuel_lng MIN_LNG MAX_LNG = Some lngs ->
  let todo := cells lngs lats in
  let box := fun cell : Q * Q => tile MAX_LAT MAX_LNG STEP add cell.1 cell.2 in
  exists (s : State) (s02 : State),
    lng_loop_script MIN_LAT MAX_LAT MAX_LNG STEP add request fuel_lng fuel_lat MIN_LNG no_box
    = Some s
    /\ lng_loop MIN_LAT MAX_LAT MAX_LNG STEP add (failure_as_skip request)
         fuel_lng fuel_lat MIN_LNG no_box = Some (Return s02)
    /\ fetched s = fetched s02
    /\ all_poi_data s = all_poi_data s02
    /\ fetched s = map box todo
    /\ sleeps s = 0
    /\ all_poi_data s
       = concat (imap (fun n cell =>
                         match request n (box cell) with
                         | Return poi_list => poi_list
                         | Raise _ => []
                         end) todo).
Proof.
  intros Hlats Hlngs todo box.
  pose proof (lng_loop_script_as_skip fuel_lng fuel_lat MIN_LNG no_box no_box
                eq_refl eq_refl) as Hsame.
  rewrite (lng_loop_points MIN_LAT MAX_LAT MAX_LNG STEP add (failure_as_skip request)
             fuel_lng fuel_lat MIN_LNG lngs lats) in Hsame |- * by done.
  fold todo in Hsame |- *.
  destruct (visit_all _ _ _ _ _ todo no_box) as [s02 | e] eqn:Hpass; [| done].
  destruct Hsame as (s & Hloop & Hf & Hd & Hs).
  apply visit_all_returns in Hpass as (Hfetched & _ & Hdata). simpl in Hfetched, Hdata.
  exists s, s02. repeat (split; [done |]).
  split; [by rewrite Hf |]. split; [done |].
  rewrite Hd, Hdata. f_equal. apply imap_ext. intros n cell _. simpl.
  unfold failure_as_skip. by destruct (request n _).
Qed.

End ScriptTileProperties.

Section FloatProperties.
Import Float.

Lemma exponent_at_most (q : Q) (k : Z) :
  ~ (q == 0)%Q -> (0 <= k)%Z -> (Qabs.Qabs q <= inject_Z (2 ^ k))%Q -> (exponent q <= k)%Z.
Proof.
  intros Hq Hk Hbound. unfold exponent.
  assert (Z.log2 (Z.abs (Qnum q)) - Z.log2 (Z.pos (Qden q)) <= k)%Z as Hlog.
  { destruct q as [n d]. unfold Qabs.Qabs, Qle, Qeq, inject_Z in *.
    cbn [Qnum Qden] in *.
    assert (0 < Z.abs n)%Z as Hn by lia.
    pose proof (Z.log2_le_mono (Z.abs n) (Z.pos d * 2 ^ k) ltac:(lia)) as Hmono.
    rewrite Z.log2_mul_pow2 in Hmono by lia. lia. }
  destruct (Qle_bool _ _); lia.
Qed.

(** Rounding to a double moves a number by half a unit in the last
    place at most. *)
Lemma round_double_within_half_ulp (q : Q) :
  (q - ulp q / 2 <= round_double q /\ round_double q <= q + ulp q / 2)%Q.
Proof.
  assert (0 < ulp q)%Q as Hulp by (by apply Qpower.Qpower_0_lt).
  unfold round_double. set (u := ulp q) in *.
  assert (u / 2 == u * (1 # 2))%Q as Eu by (unfold Qdiv; reflexivity).
  destruct (Qeq_bool q 0) eqn:Hzero.
  - apply Qeq_bool_iff in Hzero. clearbody u. rewrite Eu. split; lra.
  - destruct (round_half_even_near (q / u)) as [Hlow Hhigh].
    set (r := inject_Z (PyNum.round_half_even (q / u))) in *.
    assert (q / u * u == q)%Q as Hfield by (field; lra).
    clearbody u. set (t := (q / u)%Q) in *.
    assert ((r - (1 # 2)) * u <= t * u)%Q as H1 by (apply Qmult_le_compat_r; lra).
    assert (t * u <= (r + (1 # 2)) * u)%Q as H2 by (apply Qmult_le_compat_r; lra).
    assert ((r - (1 # 2)) * u == r * u - u * (1 # 2))%Q as E1 by ring.
    assert ((r + (1 # 2)) * u == r * u + u * (1 # 2))%Q as E2 by ring.
    rewrite E1 in H1. rewrite E2 in H2. rewrite Hfield in H1, H2. rewrite Eu.
    set (ru := (r * u)%Q) in *. split; lra.
Qed.

(** The doubles up to 64 are [2 ^ -46] apart at most. *)
Lemma round_double_near (q : Q) :
  (Qabs.Qabs q <= 64)%Q ->
  (q - (1 # 2 ^ 47) <= round_double q /\ round_double q <= q + (1 # 2 ^ 47))%Q.
Proof.
  intros Hq. destruct (Qeq_dec q 0) as [Hzero | Hzero].
  - unfold round_double. rewrite (proj2 (Qeq_bool_iff q 0) Hzero), Hzero. by split.
  - pose proof (round_double_within_half_ulp q) as [Hlow Hhigh].
    assert (ulp q <= 2 ^ (-46))%Q as Hulp.
    { unfold ulp. apply Qpower.Qpower_le_compat_l; [| done].
      pose proof (exponent_at_most q 6 Hzero ltac:(lia) Hq). lia. }
    assert (2 ^ (-46) / 2 == 1 # 2 ^ 47)%Q as Hhalf by reflexivity.
    set (u := ulp q) in *. set (v := (2 ^ (-46))%Q) in *. set (w := (1 # 2 ^ 47)%Q) in *.
    assert (v / 2 == v * (1 # 2))%Q as Ev by (unfold Qdiv; reflexivity).
    assert (u / 2 == u * (1 # 2))%Q as Eu by (unfold Qdiv; reflexivity).
    rewrite Ev in Hhalf. rewrite Eu in Hlow, Hhigh. split; lra.
Qed.

(** The floats of the program: the bounding box lies within latitudes
    51 to 52 and longitudes -1 to 0, and the step is a hundredth within
    a millionth. *)
Lemma central_london_bounds :
  (51 < CentralLondon.MIN_LAT /\ CentralLondon.MAX_LAT < 52
   /\ -1 < CentralLondon.MIN_LNG /\ CentralLondon.MAX_LNG < 0
   /\ (9999 # 1000000) < CentralLondon.STEP /\ CentralLondon.STEP < (10001 # 1000000))%Q.
Proof. repeat split; by vm_compute. Qed.

(** On the latitudes and the longitudes of the bounding box, adding
    the step as floats moves on by a two-hundredth at least. *)
Lemma central_london_steps_move_on (x : Q) :
  (CentralLondon.MIN_LAT <= x < CentralLondon.MAX_LAT
   \/ CentralLondon.MIN_LNG <= x < CentralLondon.MAX_LNG)%Q ->
  (x + (1 # 200) <= add x CentralLondon.STEP)%Q.
Proof.
  intros Hx. destruct central_london_bounds as (H1 & H2 & H3 & H4 & H5 & H6).
  unfold add.
  destruct (round_double_near (x + CentralLondon.STEP)) as [Hlow _].
  - apply Qabs.Qabs_Qle_condition. destruct Hx; split; lra.
  - assert ((1 # 2 ^ 47) < (1 # 1000))%Q as Htiny by done.
    set (w := (1 # 2 ^ 47)%Q) in *. destruct Hx; lra.
Qed.

End FloatProperties.

Section TileWitnesses.
Import Tiles MoreSamples.

(** Latitudes from 0 below 2.5 and longitudes from 0 below 1, by steps
    of 1 added exactly: one column of three boxes, the second of them
    skipped. *)
Lemma nested_loops_sweep_the_grid_witness :
  exists s : State,
    lng_loop 0 2.5 1 1 Qplus numbered_boxes 2 4 0 no_box = Some (Return s)
    /\ length (fetched s) = 3
    /\ sleeps s = 3
    /\ all_poi_data s = [0; 2].
Proof.
  pose proof (nested_loops_sweep_the_grid 0 2.5 0 1 1 Qplus numbered_boxes 2 4
                _ _ eq_refl eq_refl) as H.
  cbv zeta in H.
  destruct (lng_loop 0 2.5 1 1 Qplus numbered_boxes 2 4 0 no_box) as [[s | e] |];
    [| by destruct H as (n & cell & _ & Hn); do 4 (destruct n as [| n]; [done |]) | done].
  destruct H as (Hfetched & Hsleeps & Hdata).
  exists s. split; [done |]. split; [by rewrite Hfetched |]. by split.
Defined.

Lemma boxes_tile_the_bounding_box_witness :
  exists lngs lats : list Q,
    points 1 Qplus 4 0 2.5 = Some lats
    /\ points 1 Qplus 2 0 1 = Some lngs
    /\ length lats = 3
    /\ (forall (i : nat) (lat lng : Q),
          lats !! i = Some lat ->
          let box := tile 2.5 1 1 Qplus lat lng in
          min_lat_box box = lat
          /\ (lat < 2.5)%Q
          /\ match lats !! S i with
             | Some next => max_lat_box box = next
             | None => (max_lat_box box == 2.5)%Q
             end).
Proof.
  eexists _, _. split; [reflexivity |]. split; [reflexivity |]. split; [reflexivity |].
  exact (proj2 (proj1 (boxes_tile_the_bounding_box 0 2.5 0 1 1 Qplus 2 4 _ _
                         eq_refl eq_refl))).
Defined.

Lemma script_sweep_skips_failures_witness :
  exists s : State,
    lng_loop_script 0 2.5 1 1 Qplus (fun n _ => if (n =? 1)%nat then Raise "Timeout" else Return [n])
      2 4 0 no_box = Some s
    /\ length (fetched s) = 3
    /\ sleeps s = 0
    /\ all_poi_data s = [0; 2].
Proof.
  destruct (script_sweep_skips_failures 0 2.5 0 1 1 Qplus
              (fun n _ => if (n =? 1)%nat then Raise "Timeout" else Return [n])
              2 4 _ _ eq_refl eq_refl)
    as (s & s02 & Hloop & _ & _ & _ & Hfetched & Hsleeps & Hdata).
  exists s. split; [done |]. split; [by rewrite Hfetched |]. by split.
Defined.

(** The bounding box and the step of the program, added as floats: the
    additions are rounded, and the sweep ends. *)
Lemma sweep_ends_when_steps_move_on_witness :
  exists (fuel_lng fuel_lat : nat) (lngs lats : list Q) (out : PyResult State),
    points CentralLondon.STEP Float.add fuel_lat CentralLondon.MIN_LAT CentralLondon.MAX_LAT
    = Some lats
    /\ points CentralLondon.STEP Float.add fuel_lng CentralLondon.MIN_LNG CentralLondon.MAX_LNG
       = Some lngs
    /\ length lats < fuel_lat
    /\ length lngs < fuel_lng
    /\ lng_loop CentralLondon.MIN_LAT CentralLondon.MAX_LAT CentralLondon.MAX_LNG
         CentralLondon.STEP Float.add numbered_boxes fuel_lng fuel_lat
         CentralLondon.MIN_LNG no_box
       = Some out.
Proof.
  apply (sweep_ends_when_steps_move_on CentralLondon.MIN_LAT CentralLondon.MAX_LAT
           CentralLondon.MIN_LNG CentralLondon.MAX_LNG CentralLondon.STEP Float.add
           numbered_boxes (1 # 200)).
  - reflexivity.
  - intros x Hx. apply central_london_steps_move_on. by left.
  - intros x Hx. apply central_london_steps_move_on. by right.
Defined.

End TileWitnesses.

(** ** The HTTP function of Cloud Function Option 02 *)

Section ExtractorProperties.
Import Pandas BigQuery Sync Tiles Functions.
Context {Text : Type} `{EqDecision Text}.
Variables MIN_LAT MAX_LAT MIN_LNG MAX_LNG STEP : Q.
Variable add : Q -> Q -> Q.
Variable fetch : nat -> Box -> PyResult (option (list (Catalog.POI Text))).
Variable reshape_error : list (Catalog.POI Text) -> option string.
Variable upload_to_gcs : list (Catalog.Row Text) -> PyResult string.

Lemma load_02_returns (df : list (Catalog.Row Text)) (bq : Client (Catalog.Row Text)) :
  exists after : Client (Catalog.Row Text),
    load_to_bigquery_incremental_02 Catalog.Place_ID df bq = Return (table_id_02, after).
Proof.
  destruct (table bq) as [rows |] eqn:Ht.
  - rewrite (load_02_existing _ _ rows) by done.
    destruct (not_isin _ _ _); by eexists.
  - rewrite load_02_missing by done. by eexists.
Qed.

(** X24. Without an API key [ocm_extractor] answers with the error
    message and requests nothing.  With a key it requests every box of
    the grid; when a request raises, so does the function; when every
    box is skipped or comes back empty it answers "No data returned
    from OCM API", nothing is uploaded and the table is left as it was.
    Otherwise the records are reshaped, uploaded and synced: the
    function raises when the reshaping does (a column that none of the
    records supplies) and when the upload does, the table then being
    untouched, and else reports the number of cleaned rows, the path of
    the snapshot and the table id; the write disposition of the sync is
    no source of failure (the table is taken to answer). *)
Theorem ocm_extractor_answers (key_first : ascii) (key_rest : string)
    (fuel_lng fuel_lat : nat) (lngs lats : list Q) (bq : Client (Catalog.Row Text)) :
  points STEP add fuel_lat MIN_LAT MAX_LAT = Some lats ->
  points STEP add fuel_lng MIN_LNG MAX_LNG = Some lngs ->
  let box := fun cell : Q * Q => tile MAX_LAT MAX_LNG STEP add cell.1 cell.2 in
  let answers :=
    concat (imap (fun n cell =>
                    match fetch n (box cell) with
                    | Return (Some pois) => pois
                    | _ => []
                    end) (cells lngs lats)) in
  (forall (OCM_API_KEY : option string) (turns_lng turns_lat : nat),
      OCM_API_KEY = None \/ OCM_API_KEY = Some EmptyString ->
      ocm_extractor MIN_LAT MAX_LAT MIN_LNG MAX_LNG STEP add fetch reshape_error
        upload_to_gcs OCM_API_KEY turns_lng turns_lat bq
      = Some (Return (Message_500 "ERROR: Missing OCM_API_KEY environment variable"), bq))
  /\ match ocm_extractor MIN_LAT MAX_LAT MIN_LNG MAX_LNG STEP add fetch reshape_error
             upload_to_gcs (Some (String key_first key_rest)) fuel_lng fuel_lat bq with
     | Some (Return (Message_500 message), bq') =>
         message = "No data returned from OCM API"%string /\ answers = [] /\ bq' = bq
     | Some (Return (Completed message n_records csv_saved_to bigquery_table), bq') =>
         answers <> []
         /\ reshape_error answers = None
         /\ message = "OCM EV data extraction completed"%string
         /\ n_records = length (Catalog.df_final answers)
         /\ upload_to_gcs (Catalog.df_final answers) = Return csv_saved_to
         /\ load_to_bigquery_incremental_02 Catalog.Place_ID (Catalog.df_final answers) bq
            = Return (bigquery_table, bq')
         /\ bigquery_table = table_id_02
     | Some (Raise e, bq') =>
         bq' = bq
         /\ ((exists (n : nat) (cell : Q * Q),
                cells lngs lats !! n = Some cell /\ fetch n (box cell) = Raise e)
             \/ (answers <> [] /\ reshape_error answers = Some e)
             \/ (answers <> [] /\ reshape_error answers = None
                 /\ upload_to_gcs (Catalog.df_final answers) = Raise e))
     | None => False
     end.
Proof.
  intros Hlats Hlngs box answers. split.
  - by intros key turns_lng turns_lat [-> | ->].
  - unfold ocm_extractor, sweep.
    rewrite (lng_loop_points MIN_LAT MAX_LAT MAX_LNG STEP add fetch fuel_lng fuel_lat
               MIN_LNG lngs lats) by done.
    destruct (visit_all _ _ _ _ _ _ no_box) as [s | e] eqn:Hpass.
    + apply visit_all_returns in Hpass as (_ & _ & Hdata). simpl in Hdata.
      assert (all_poi_data s = answers) as -> by exact Hdata.
      clearbody answers.
      destruct answers as [| poi rest]; [done |].
      destruct (reshape_error (poi :: rest)) as [e |] eqn:Hshape;
        [split; [done |]; right; by left |].
      destruct (upload_to_gcs _) as [csv_path | e] eqn:Hupload.
      * destruct (load_02_returns (Catalog.df_final (poi :: rest)) bq) as (after & Hload).
        rewrite Hload. by repeat split.
      * split; [done |]. right. by right.
    + split; [done |]. left. by apply visit_all_raises in Hpass.
Qed.

End ExtractorProperties.

Section ExtractorWitnesses.
Import Pandas BigQuery Sync Tiles Functions.

(** One column of three boxes: the first holds a site, the others are
    skipped; the site is reshaped, uploaded and synced. *)
Lemma ocm_extractor_answers_witness :
  exists after : Client (Catalog.Row string),
    ocm_extractor 0 2.5 0 1 1 Qplus MoreSamples.one_site (fun _ => None)
      (fun _ => Return "gs://snapshot"%string) (Some "key"%string) 2 4
      {| table := None; jobs := []; printed := [] |}
    = Some (Return (Completed "OCM EV data extraction completed" 1
                      "gs://snapshot" table_id_02), after).
Proof.
  pose proof (ocm_extractor_answers 0 2.5 0 1 1 Qplus MoreSamples.one_site (fun _ => None)
                (fun _ => Return "gs://snapshot"%string)
                "k" "ey" 2 4 _ _ {| table := None; jobs := []; printed := [] |}
                eq_refl eq_refl) as [_ H].
  cbv zeta in H.
  destruct (ocm_extractor _ _ _ _ _ _ _ _ _ _ _ _ _) as [[[[message | ? ? ? ?] | e] bq'] |];
    [exfalso | | exfalso | done].
  - by destruct H as (_ & H & _).
  - destruct H as (_ & _ & -> & -> & [= <-] & _ & ->). by exists bq'.
  - destruct H as (_ & [(n & cell & _ & Hn) | [[_ H] | (_ & _ & H)]]); [| done | done].
    unfold MoreSamples.one_site in Hn. by destruct (n =? 0)%nat.
Defined.

End ExtractorWitnesses.

(** ** Malformed connectors and missing keys *)

Section MarkerProperties.
Import PyStr PyNum Pandas Verified Cleaning01 Reconciler.
Local Open Scope string_scope.

Lemma conn_types_malformed (connections : list Connection) :
  (exists conn : Connection,
      conn ∈ connections
      /\ (ConnectionType conn = Null \/ ConnectionType conn = Present Null)) ->
  exists x : string, conn_types connections = Raise x.
Proof.
  induction connections as [| conn rest IH]; intros (bad_conn & Hin & Hbad).
  - by apply elem_of_nil in Hin.
  - simpl. apply elem_of_cons in Hin as [<- | Hin].
    + unfold conn_type. destruct Hbad as [-> | ->]; by eexists.
    + destruct (conn_type conn); [| by eexists].
      destruct IH as (x & ->); [by exists bad_conn | by eexists].
Qed.

Lemma conn_types_script_titled (connections : list Connection) :
  Forall (fun conn => ConnectionType conn <> Null) connections ->
  exists titles : list string, conn_types_script connections = Return titles.
Proof.
  induction 1 as [| conn rest Hconn _ (titles & Htitles)]; simpl; [by eexists |].
  rewrite Htitles. unfold conn_type_script.
  destruct (ConnectionType conn) as [| | [| | title]] eqn:E;
    [by eexists | exfalso; by apply Hconn | by eexists | by eexists | by eexists].
Qed.

(** X26. One malformed connector hides the whole site in Cloud
    Function Option 01: when a connector of the first POI has a null
    [ConnectionType] or a null [Title], [fetch_ocm_details] answers
    "OCM API Error" in both columns, whatever the other connectors
    hold, and no row with that marker (or with one of the two others)
    survives the cleaning.  In the extraction script a null [Title] is
    written as text and only a null [ConnectionType] has this effect. *)
Theorem malformed_connector_hides_the_site
    (key_first : ascii) (key_rest : string) (poi : Poi) (others : list Poi)
    (connections : list Connection) :
  Connections poi = Some connections ->
  (exists conn : Connection,
      conn ∈ connections
      /\ (ConnectionType conn = Null \/ ConnectionType conn = Present Null)) ->
  fetch_ocm_details (Some (String key_first key_rest)) (Ocm_data (poi :: others))
  = ("OCM API Error", "OCM API Error")
  /\ (forall (df : list Record_) (cleaned : list Cleaned) (c : Cleaned),
        clean_ev_charger_data df = Return cleaned ->
        c ∈ cleaned ->
        OCM_Connector_Types c ∉ ["No Match Found"; "No Connections Listed"; "OCM API Error"])
  /\ (Forall (fun conn => ConnectionType conn <> Null) connections ->
      exists titles : list string,
        conn_types_script connections = Return titles
        /\ fetch_ocm_details_script (Some (String key_first key_rest))
             (Ocm_data (poi :: others))
           = (join "; " titles, join "; " (map power_value_script connections))).
Proof.
  intros Hc Hbad. split; [| split].
  - unfold fetch_ocm_details. rewrite Hc.
    destruct (conn_types_malformed connections Hbad) as (x & Hx).
    destruct connections as [| conn rest]; [| by rewrite Hx].
    destruct Hbad as (conn & Hin & _). by apply elem_of_nil in Hin.
  - intros df cleaned c Hclean Hin. unfold clean_ev_charger_data in Hclean.
    apply clean_rows_each in Hclean.
    destruct (proj1 (list_elem_of_lookup _ _) Hin) as (i & Hi).
    destruct (Forall2_lookup_r _ _ _ _ _ Hclean Hi) as (r & Hr & Hrc).
    apply list_elem_of_lookup_2, list_elem_of_filter in Hr as [Hkept _].
    unfold clean_row in Hrc. destruct (power_list (ocm_power_kW r)); [| done].
    by injection Hrc as <-.
  - intros Htitled.
    destruct (conn_types_script_titled connections Htitled) as (titles & Htitles).
    exists titles. split; [done |]. unfold fetch_ocm_details_script. rewrite Hc.
    destruct connections as [| conn rest]; [| by rewrite Htitles].
    destruct Hbad as (conn & Hin & _). by apply elem_of_nil in Hin.
Qed.

End MarkerProperties.

Section MarkerWitnesses.
Import PyStr PyNum Pandas Verified Provenance Cleaning01 Reconciler Samples MoreSamples.
Local Open Scope string_scope.

(** A 7.4 kW connector and one whose type has a null title. *)
Lemma malformed_connector_hides_the_site_witness :
  fetch_ocm_details (Some "key")
    (Ocm_data [{| Connections := Some [with_power "Type 2" 7.4; untitled] |}])
  = ("OCM API Error", "OCM API Error")
  /\ fetch_ocm_details_script (Some "key")
       (Ocm_data [{| Connections := Some [with_power "Type 2" 7.4; untitled] |}])
     = ("Type 2; None", "7.4 kW; 50.0 kW").
Proof.
  destruct (malformed_connector_hides_the_site "k" "ey"
              {| Connections := Some [with_power "Type 2" 7.4; untitled] |} []
              [with_power "Type 2" 7.4; untitled] eq_refl)
    as (Herror & _ & Hscript).
  { exists untitled. split; [| by right].
    apply elem_of_cons. right. apply elem_of_cons. by left. }
  split; [exact Herror |].
  destruct Hscript as (titles & Htitles & Hcolumns); [by repeat constructor |].
  injection Htitles as <-. exact Hcolumns.
Defined.

(** The sweep of the samples without a catalog key: the charger is
    kept, with one connector of unknown type. *)
Lemma without_key_every_site_has_one_unknown_connector_witness :
  exists cleaned : list Cleaned,
    clean_ev_charger_data
      (records (snd (run_extraction nearby_both details_of no_catalog None
                       two_anchors one_column start))) = Return cleaned
    /\ map Place_Id cleaned = ["charger"]
    /\ forall c : Cleaned,
         c ∈ cleaned ->
         OCM_Connector_Types c = "Not Available"
         /\ Number_of_Connectors c = 1
         /\ Max_Charging_Type c = None
         /\ Min_Power_kW c = None
         /\ Max_Power_kW c = None
         /\ Rapid_Charge_Available c = "No"
         /\ Fast_Charge_Available c = "No"
         /\ Slow_Charge_Available c = "No".
Proof.
  exact (without_key_every_site_has_one_unknown_connector nearby_both details_of
           no_catalog None two_anchors one_column (or_introl eq_refl)).
Defined.

End MarkerWitnesses.

(** ** The address column *)

Section AddressProperties.
Import PyStr TextColumns.
Local Open Scope string_scope.

Lemma lstrip_chars_head (chars s : string) (c : ascii) (rest : string) :
  lstrip_chars chars s = String c rest -> in_chars chars c = false.
Proof.
  induction s as [| x s IH]; simpl; [done |].
  destruct (in_chars chars x) eqn:Hx; [done |]. by intros [= <- _].
Qed.

Lemma rstrip_chars_head (chars : string) (c : ascii) (s : string) :
  in_chars chars c = false ->
  exists rest : string, rstrip_chars chars (String c s) = String c rest.
Proof.
  intros Hc. simpl. rewrite Hc. destruct (rstrip_chars chars s); by eexists.
Qed.

Lemma rstrip_chars_last (chars s : string) (c : ascii) :
  last_char (rstrip_chars chars s) = Some c -> in_chars chars c = false.
Proof.
  induction s as [| x s IH]; simpl; [done |].
  destruct (rstrip_chars chars s) as [| y t] eqn:Hs.
  - destruct (in_chars chars x) eqn:Hx; [done |]. simpl. by intros [= <-].
  - done.
Qed.

Lemma lstrip_chars_id (chars s : string) :
  (forall c rest, s = String c rest -> in_chars chars c = false) ->
  lstrip_chars chars s = s.
Proof.
  destruct s as [| c rest]; [done |]. intros Hhead. simpl.
  by rewrite (Hhead c rest).
Qed.

Lemma rstrip_chars_id (chars s : string) :
  (forall c, last_char s = Some c -> in_chars chars c = false) ->
  rstrip_chars chars s = s.
Proof.
  induction s as [| x s IH]; [done |]. intros Hlast.
  destruct s as [| y t].
  - simpl. by rewrite (Hlast x).
  - change (rstrip_chars chars (String x (String y t)))
      with (match rstrip_chars chars (String y t) with
            | "" => if in_chars chars x then "" else String x ""
            | r => String x r
            end).
    by rewrite IH.
Qed.

Lemma last_char_app (a b : string) (c : ascii) :
  last_char b = Some c -> last_char (a ++ b) = Some c.
Proof.
  intros Hb. induction a as [| x a IH]; [done |].
  rewrite append_cons.
  change (last_char (String x (a ++ b)))
    with (match a ++ b with "" => Some x | _ => last_char (a ++ b) end).
  rewrite IH. by destruct (a ++ b).
Qed.

(** X28. The address column never begins or ends with a comma or a
    space; it is empty, and exported as "Unknown", when the three parts
    are missing or empty.  When only the town is missing, the
    replacement of ", ," leaves two spaces after the comma: the parts
    holding no comma, the address is the first line, a comma, two
    spaces and the postcode. *)
Theorem address_is_trimmed (line1 town postcode : option string) :
  let address := Address line1 town postcode in
  (forall (c : ascii) (rest : string), address = String c rest -> in_chars ", " c = false)
  /\ (forall c : ascii, last_char address = Some c -> in_chars ", " c = false)
  /\ (default "" line1 = "" -> default "" town = "" -> default "" postcode = "" ->
      address = "" /\ final_text (Some address) = "Unknown")
  /\ (forall (first last_ : ascii) (a p : string),
        line1 = Some (String first a) ->
        default "" town = "" ->
        postcode = Some p ->
        all_chars (not_char ",") (String first a) = true ->
        all_chars (not_char ",") p = true ->
        in_chars ", " first = false ->
        last_char p = Some last_ ->
        in_chars ", " last_ = false ->
        address = String first a ++ ",  " ++ p).
Proof.
  intros address. split; [| split; [| split]].
  - intros c rest Haddress. unfold address, Address, strip_chars in Haddress.
    destruct (lstrip_chars ", " _) as [| x t] eqn:Hleft; [done |].
    pose proof (lstrip_chars_head _ _ _ _ Hleft) as Hx.
    destruct (rstrip_chars_head ", " x t Hx) as (rest' & Hright).
    rewrite Hright in Haddress. by injection Haddress as <- _.
  - intros c. apply rstrip_chars_last.
  - intros H1 H2 H3. unfold address, Address, joined. by rewrite H1, H2, H3.
  - intros first last_ a p -> Htown -> Ha Hp Hfirst Hlast Hlast_.
    unfold address, Address, joined. simpl default. rewrite Htown.
    assert (replace ", ," ", " (String first a ++ ", " ++ "" ++ ", " ++ p)
            = String first a ++ ",  " ++ p) as ->.
    { unfold replace, split.
      change (String first a ++ ", " ++ "" ++ ", " ++ p)
        with (String first a ++ String "," " ," ++ (" " ++ p)).
      rewrite split_scan_piece_sep by done. rewrite append_nil_l.
      rewrite split_scan_piece
        by (rewrite all_chars_app, Hp; done).
      rewrite append_nil_l. unfold join. simpl String.concat.
      reflexivity. }
    unfold strip_chars. rewrite lstrip_chars_id.
    + apply rstrip_chars_id. intros c Hc.
      rewrite (last_char_app _ (",  " ++ p) last_) in Hc
        by by apply last_char_app.
      by injection Hc as <-.
    + intros c rest. rewrite append_cons. by intros [= <- _].
Qed.

End AddressProperties.

Section AddressWitnesses.
Import PyStr TextColumns.
Local Open Scope string_scope.

(** A site without a town. *)
Lemma address_is_trimmed_witness :
  Address (Some "10 High St") None (Some "N1 9AA") = "10 High St,  N1 9AA"
  /\ Address None None None = ""
  /\ final_text (Some (Address None None None)) = "Unknown".
Proof.
  destruct (address_is_trimmed (Some "10 High St") None (Some "N1 9AA"))
    as (_ & _ & _ & Hquirk).
  destruct (address_is_trimmed None None None) as (_ & _ & Hempty & _).
  split; [by apply (Hquirk "1"%char "A"%char "0 High St" "N1 9AA") |].
  by apply Hempty.
Defined.

End AddressWitnesses.
